(** * Verification of the claude-insights-agent sync engine

    Shallow embedding of the Go sources:
    - [internal/parser/jsonl.go]  (ParseJSONL, ParsePlan)
    - [internal/filter]           (Filter.Apply, isExcluded)
    - [internal/watcher]          (Watcher.sync, syncPlans, findSessions, findPlans)

    Go library functions the code relies on ([strings], [path/filepath],
    [bufio.Scanner], [encoding/json], [filepath.WalkDir]) are modelled in
    module [GoStd] and [Json] from their Go implementations. Instants
    ([time.Time]) are integers counting nanoseconds, with Go's zero time
    as [0]. *)

From Stdlib Require Import String Ascii ZArith List Bool Lia.
From stdpp Require Import base gmap strings list.
Import ListNotations.
Open Scope string_scope.
Set Warnings "-register-all -abstract-large-number".

(* ------------------------------------------------------------------ *)
(** ** Go standard library: strings and path/filepath *)

Module GoStd.

Definition slash : ascii := "/"%char.

(** The double quote byte. *)
Definition dq : ascii := ascii_of_nat 34.

Definition is_empty (s : string) : bool :=
  match s with EmptyString => true | _ => false end.

(** [strings.HasPrefix] *)
Definition HasPrefix (s pre : string) : bool := String.prefix pre s.

(** [strings.HasSuffix] *)
Definition HasSuffix (s suf : string) : bool :=
  let n := String.length s in
  let m := String.length suf in
  Nat.leb m n && String.eqb (substring (n - m) m s) suf.

(** [strings.TrimSuffix] *)
Definition TrimSuffix (s suf : string) : string :=
  if HasSuffix s suf then substring 0 (String.length s - String.length suf) s
  else s.

(** [strings.TrimPrefix] *)
Definition TrimPrefix (s pre : string) : string :=
  if HasPrefix s pre then substring (String.length pre) (String.length s - String.length pre) s
  else s.

(** [strings.Split] with a one-byte separator: [n] separators give
    [n+1] parts, and [Split "" sep = [""]]. *)
Fixpoint Split (s : string) (sep : ascii) : list string :=
  match s with
  | EmptyString => [EmptyString]
  | String a s' =>
      let rest := Split s' sep in
      if Ascii.eqb a sep then EmptyString :: rest
      else match rest with
           | r :: rs => String a r :: rs
           | [] => [String a EmptyString]
           end
  end.

(** [strings.Join] *)
Fixpoint Join (l : list string) (sep : string) : string :=
  match l with
  | [] => ""
  | [x] => x
  | x :: xs => x ++ sep ++ Join xs sep
  end.

(** [strings.ReplaceAll] with one-byte old and new strings. *)
Fixpoint ReplaceAllChar (s : string) (old new : ascii) : string :=
  match s with
  | EmptyString => EmptyString
  | String a s' => String (if Ascii.eqb a old then new else a) (ReplaceAllChar s' old new)
  end.

(** Test texts are written with single quotes for double quotes. *)
Definition q (s : string) : string := ReplaceAllChar s "'" dq.

(** [strings.Contains] *)
Fixpoint Contains (s sub : string) : bool :=
  String.prefix sub s ||
  match s with
  | EmptyString => false
  | String _ s' => Contains s' sub
  end.

Fixpoint contains_byte (s : string) (c : ascii) : bool :=
  match s with
  | EmptyString => false
  | String a s' => Ascii.eqb a c || contains_byte s' c
  end.

Fixpoint drop_while {A} (f : A -> bool) (l : list A) : list A :=
  match l with
  | [] => []
  | x :: xs => if f x then drop_while f xs else l
  end.

Fixpoint take_while {A} (f : A -> bool) (l : list A) : list A :=
  match l with
  | [] => []
  | x :: xs => if f x then x :: take_while f xs else []
  end.

(** Strip trailing slashes. *)
Definition strip_trailing_slashes (s : string) : string :=
  string_of_list_ascii
    (rev (drop_while (fun a => Ascii.eqb a slash) (rev (list_ascii_of_string s)))).

(** The part after the last slash ([path[i+1:]] in [filepath.Base]). *)
Definition after_last_slash (s : string) : string :=
  string_of_list_ascii
    (rev (take_while (fun a => negb (Ascii.eqb a slash)) (rev (list_ascii_of_string s)))).

(** The part up to and including the last slash ([path[:i+1]] in [filepath.Dir]). *)
Definition upto_last_slash (s : string) : string :=
  string_of_list_ascii
    (rev (drop_while (fun a => negb (Ascii.eqb a slash)) (rev (list_ascii_of_string s)))).

(** [filepath.Base] (Unix: no volume names). *)
Definition Base (path : string) : string :=
  if is_empty path then "."
  else
    let p := strip_trailing_slashes path in
    let p := after_last_slash p in
    if is_empty p then "/" else p.

(** [filepath.Clean], by its segment-wise characterisation: empty and
    [.] segments vanish, [..] removes the preceding non-[..] segment
    (at the root it vanishes, in a relative path it stays). *)
Definition clean_step (rooted : bool) (stack : list string) (seg : string) : list string :=
  if is_empty seg || String.eqb seg "." then stack
  else if String.eqb seg ".." then
    match stack with
    | x :: st => if String.eqb x ".." then ".." :: stack else st
    | [] => if rooted then [] else [".."]
    end
  else seg :: stack.

Definition Clean (path : string) : string :=
  if is_empty path then "."
  else
    let rooted := HasPrefix path "/" in
    let stack := fold_left (clean_step rooted) (Split path slash) [] in
    let out := Join (rev stack) "/" in
    if rooted then "/" ++ out
    else if is_empty out then "." else out.

(** [filepath.Dir] *)
Definition Dir (path : string) : string := Clean (upto_last_slash path).

(** [filepath.Join] of two elements: empty elements are ignored and the
    result is cleaned. *)
Definition PathJoin (a b : string) : string :=
  if is_empty a then (if is_empty b then "" else Clean b)
  else if is_empty b then Clean a
  else Clean (a ++ "/" ++ b).

(** Drop the first [n] bytes ([s[n:]]). *)
Fixpoint drop_bytes (n : nat) (s : string) : string :=
  match n, s with
  | O, _ => s
  | S n', String _ s' => drop_bytes n' s'
  | S _, EmptyString => EmptyString
  end.

Definition byte_val (a : ascii) : Z := Z.of_nat (nat_of_ascii a).

Definition RuneError : Z := 65533.

Definition in_range (lo hi x : Z) : bool := (lo <=? x)%Z && (x <=? hi)%Z.

(** Leading byte of a multi-byte UTF-8 sequence: the accepted range of
    the second byte and the sequence length (the table of [unicode/utf8]). *)
Definition utf8_first (b0 : Z) : option (Z * Z * nat) :=
  if in_range 194 223 b0 then Some (128, 191, 2%nat)%Z
  else if (b0 =? 224)%Z then Some (160, 191, 3%nat)%Z
  else if in_range 225 236 b0 then Some (128, 191, 3%nat)%Z
  else if (b0 =? 237)%Z then Some (128, 159, 3%nat)%Z
  else if in_range 238 239 b0 then Some (128, 191, 3%nat)%Z
  else if (b0 =? 240)%Z then Some (144, 191, 4%nat)%Z
  else if in_range 241 243 b0 then Some (128, 191, 4%nat)%Z
  else if (b0 =? 244)%Z then Some (128, 143, 4%nat)%Z
  else None.

Definition cont (x : Z) : bool := in_range 128 191 x.

(** [utf8.DecodeRuneInString]: the rune and its width; an invalid
    encoding gives [(RuneError, 1)], the empty string [(RuneError, 0)]. *)
Definition DecodeRune (s : string) : Z * nat :=
  match s with
  | EmptyString => (RuneError, 0%nat)
  | String a0 r1 =>
      let b0 := byte_val a0 in
      if (b0 <? 128)%Z then (b0, 1%nat)
      else
        match utf8_first b0, r1 with
        | Some (lo, hi, 2%nat), String a1 _ =>
            let b1 := byte_val a1 in
            if in_range lo hi b1
            then (Z.lor (Z.shiftl (Z.land b0 31) 6) (Z.land b1 63), 2%nat)
            else (RuneError, 1%nat)
        | Some (lo, hi, 3%nat), String a1 (String a2 _) =>
            let b1 := byte_val a1 in let b2 := byte_val a2 in
            if in_range lo hi b1 && cont b2
            then (Z.lor (Z.lor (Z.shiftl (Z.land b0 15) 12) (Z.shiftl (Z.land b1 63) 6))
                        (Z.land b2 63), 3%nat)
            else (RuneError, 1%nat)
        | Some (lo, hi, 4%nat), String a1 (String a2 (String a3 _)) =>
            let b1 := byte_val a1 in let b2 := byte_val a2 in let b3 := byte_val a3 in
            if in_range lo hi b1 && cont b2 && cont b3
            then (Z.lor (Z.lor (Z.lor (Z.shiftl (Z.land b0 7) 18) (Z.shiftl (Z.land b1 63) 12))
                               (Z.shiftl (Z.land b2 63) 6)) (Z.land b3 63), 4%nat)
            else (RuneError, 1%nat)
        | _, _ => (RuneError, 1%nat)
        end
  end.

(** *** [filepath.Match] (Unix: backslash escapes, separator [/]) *)

Inductive chunk_result := ChunkOk (rest : string) | ChunkFail | ChunkBad.

(** [getEsc]; [None] is [ErrBadPattern]. *)
Definition getEsc (chunk : string) : option (Z * string) :=
  match chunk with
  | EmptyString => None
  | String c rest =>
      if Ascii.eqb c "-" || Ascii.eqb c "]" then None
      else
        let chunk' := if Ascii.eqb c "\" then rest else chunk in
        if is_empty chunk' then None
        else
          let '(r, n) := DecodeRune chunk' in
          let nchunk := drop_bytes n chunk' in
          if ((r =? RuneError)%Z && Nat.eqb n 1) || is_empty nchunk then None
          else Some (r, nchunk)
  end.

(** The range list of a character class, after [[] and an optional [^]. *)
Fixpoint match_ranges (fuel : nat) (chunk : string) (r : Z) (nrange : nat) (m : bool)
  : option (string * bool) :=
  match fuel with
  | O => None
  | S fuel' =>
      match chunk with
      | String "]" rest => if Nat.ltb 0 nrange then Some (rest, m) else None
      | _ =>
          match getEsc chunk with
          | None => None
          | Some (lo, chunk1) =>
              let hi_rest :=
                match chunk1 with
                | String "-" c2 => getEsc c2
                | _ => Some (lo, chunk1)
                end in
              match hi_rest with
              | None => None
              | Some (hi, chunk2) =>
                  match_ranges fuel' chunk2 r (S nrange) (m || in_range lo hi r)
              end
          end
      end
  end.

(** [matchChunk]; [failed] is the flag of the Go loop. *)
Fixpoint match_chunk_go (fuel : nat) (chunk s : string) (failed : bool) : chunk_result :=
  match fuel with
  | O => ChunkBad
  | S f =>
      match chunk with
      | EmptyString => if failed then ChunkFail else ChunkOk s
      | String c crest =>
          let failed := failed || is_empty s in
          let literal (c : ascii) (crest : string) :=
            if failed then match_chunk_go f crest s failed
            else match s with
                 | String d s' => match_chunk_go f crest s' (negb (Ascii.eqb c d))
                 | EmptyString => ChunkFail
                 end in
          if Ascii.eqb c "[" then
            let '(r, s') := if failed then (0%Z, s)
                            else let '(r, n) := DecodeRune s in (r, drop_bytes n s) in
            let '(negated, ch) := match crest with
                                  | String "^" x => (true, x)
                                  | _ => (false, crest)
                                  end in
            match match_ranges (S (String.length ch)) ch r 0 false with
            | None => ChunkBad
            | Some (ch', m) => match_chunk_go f ch' s' (failed || Bool.eqb m negated)
            end
          else if Ascii.eqb c "?" then
            if failed then match_chunk_go f crest s failed
            else
              let failed' := match s with String d _ => Ascii.eqb d slash | _ => false end in
              let '(_, n) := DecodeRune s in
              match_chunk_go f crest (drop_bytes n s) failed'
          else if Ascii.eqb c "\" then
            match crest with
            | EmptyString => ChunkBad
            | String d crest' => literal d crest'
            end
          else literal c crest
      end
  end.

Definition matchChunk (chunk s : string) : chunk_result :=
  match_chunk_go (S (String.length chunk)) chunk s false.

(** The chunk scan of [scanChunk] after the leading stars. *)
Fixpoint scan_body (p : string) (inrange : bool) : string * string :=
  match p with
  | EmptyString => ("", "")
  | String c p' =>
      if Ascii.eqb c "\" then
        match p' with
        | String d p'' => let '(ch, r) := scan_body p'' inrange in (String c (String d ch), r)
        | EmptyString => (String c EmptyString, "")
        end
      else if Ascii.eqb c "[" then let '(ch, r) := scan_body p' true in (String c ch, r)
      else if Ascii.eqb c "]" then let '(ch, r) := scan_body p' false in (String c ch, r)
      else if Ascii.eqb c "*" && negb inrange then ("", p)
      else let '(ch, r) := scan_body p' inrange in (String c ch, r)
  end.

Fixpoint strip_stars (p : string) : bool * string :=
  match p with
  | String "*" p' => (true, snd (strip_stars p'))
  | _ => (false, p)
  end.

(** [scanChunk]: (star, chunk, rest). *)
Definition scanChunk (p : string) : bool * string * string :=
  let '(star, p') := strip_stars p in
  let '(chunk, rest) := scan_body p' false in
  (star, chunk, rest).

(** The final syntax check of the remaining pattern; [true] = bad pattern. *)
Fixpoint rest_bad (fuel : nat) (p : string) : bool :=
  match fuel with
  | O => false
  | S f =>
      if is_empty p then false
      else let '(_, chunk, p') := scanChunk p in
           match matchChunk chunk "" with
           | ChunkBad => true
           | _ => rest_bad f p'
           end
  end.

(** The star loop: try the chunk after skipping [i+1] bytes, never past
    a separator. [None] = bad pattern, [Some (Some t)] = continue with
    [t], [Some None] = no match. *)
Fixpoint star_skip (chunk pattern name : string) : option (option string) :=
  match name with
  | EmptyString => Some None
  | String c rest =>
      if Ascii.eqb c slash then Some None
      else match matchChunk chunk rest with
           | ChunkOk t =>
               if is_empty pattern && negb (is_empty t) then star_skip chunk pattern rest
               else Some (Some t)
           | ChunkBad => None
           | ChunkFail => star_skip chunk pattern rest
           end
  end.

Fixpoint match_loop (fuel : nat) (pattern name : string) : option bool :=
  match fuel with
  | O => Some false
  | S f =>
      if is_empty pattern then Some (is_empty name)
      else
        let '(star, chunk, pattern') := scanChunk pattern in
        if star && is_empty chunk then Some (negb (contains_byte name slash))
        else
          let r := matchChunk chunk name in
          let no_match := if rest_bad (S (String.length pattern')) pattern' then None else Some false in
          let after_star :=
            if star then
              match star_skip chunk pattern' name with
              | None => None
              | Some (Some t) => match_loop f pattern' t
              | Some None => no_match
              end
            else no_match in
          match r with
          | ChunkOk t =>
              if is_empty t || negb (is_empty pattern') then match_loop f pattern' t
              else after_star
          | ChunkBad => None
          | ChunkFail => after_star
          end
  end.

(** [filepath.Match]: [Some b] is [(b, nil)], [None] is [(false, ErrBadPattern)]. *)
Definition Match (pattern name : string) : option bool :=
  match_loop (S (String.length pattern)) pattern name.

End GoStd.

(* ------------------------------------------------------------------ *)
(** ** encoding/json: JSON texts, their validity and Go's decoding *)

Module Json.
Import GoStd.

Inductive jvalue :=
| JNull
| JBool (b : bool)
| JNum (lit : string)                  (** the number literal as written *)
| JStr (s : string)                    (** the unquoted string *)
| JArr (l : list jvalue)
| JObj (l : list (string * jvalue)).   (** members in input order *)

Definition is_ws (c : ascii) : bool :=
  Ascii.eqb c " " || Ascii.eqb c (ascii_of_nat 9) || Ascii.eqb c (ascii_of_nat 10)
  || Ascii.eqb c (ascii_of_nat 13).

Fixpoint skip_ws (s : string) : string :=
  match s with
  | String c s' => if is_ws c then skip_ws s' else s
  | EmptyString => s
  end.

Definition is_digit (c : ascii) : bool := in_range 48 57 (byte_val c).

Fixpoint digits (s : string) : string * string :=
  match s with
  | String c s' => if is_digit c then let '(d, r) := digits s' in (String c d, r) else ("", s)
  | EmptyString => ("", "")
  end.

(** A JSON number: [-? (0 | [1-9][0-9]* ) (. [0-9]+)? ([eE] [+-]? [0-9]+)?];
    returns the literal and the rest. *)
Definition parse_number (s : string) : option (string * string) :=
  let '(sign, s1) := match s with String "-" r => ("-", r) | _ => ("", s) end in
  let int_part :=
    match s1 with
    | String "0" r => Some ("0", r)
    | String c _ => if is_digit c then Some (digits s1) else None
    | EmptyString => None
    end in
  match int_part with
  | None => None
  | Some (ip, s2) =>
      let frac :=
        match s2 with
        | String "." r => let '(d, r') := digits r in
                          if is_empty d then None else Some ("." ++ d, r')
        | _ => Some ("", s2)
        end in
      match frac with
      | None => None
      | Some (fp, s3) =>
          let expo :=
            match s3 with
            | String e r =>
                if Ascii.eqb e "e" || Ascii.eqb e "E" then
                  let '(sg, r1) := match r with
                                   | String "+" r' => ("+", r')
                                   | String "-" r' => ("-", r')
                                   | _ => ("", r)
                                   end in
                  let '(d, r2) := digits r1 in
                  if is_empty d then None else Some (String e (sg ++ d), r2)
                else Some ("", s3)
            | EmptyString => Some ("", s3)
            end in
          match expo with
          | None => None
          | Some (ep, s4) => Some (sign ++ ip ++ fp ++ ep, s4)
          end
      end
  end.

Definition hex_val (c : ascii) : option Z :=
  let b := byte_val c in
  if in_range 48 57 b then Some (b - 48)%Z
  else if in_range 97 102 b then Some (b - 87)%Z
  else if in_range 65 70 b then Some (b - 55)%Z
  else None.

(** [getu4]: the four hex digits after [\u]. *)
Definition hex4 (s : string) : option (Z * string) :=
  match s with
  | String a (String b (String c (String d r))) =>
      match hex_val a, hex_val b, hex_val c, hex_val d with
      | Some x, Some y, Some z, Some w => Some (x * 4096 + y * 256 + z * 16 + w, r)%Z
      | _, _, _, _ => None
      end
  | _ => None
  end.

Definition byte_of (z : Z) : ascii := ascii_of_nat (Z.to_nat z).

(** [utf8.EncodeRune] for valid runes. *)
Definition EncodeRune (r : Z) : string :=
  if (r <? 128)%Z then String (byte_of r) ""
  else if (r <? 2048)%Z then
    String (byte_of (192 + Z.shiftr r 6)) (String (byte_of (128 + Z.land r 63)) "")
  else if (r <? 65536)%Z then
    String (byte_of (224 + Z.shiftr r 12))
      (String (byte_of (128 + Z.land (Z.shiftr r 6) 63)) (String (byte_of (128 + Z.land r 63)) ""))
  else
    String (byte_of (240 + Z.shiftr r 18))
      (String (byte_of (128 + Z.land (Z.shiftr r 12) 63))
         (String (byte_of (128 + Z.land (Z.shiftr r 6) 63)) (String (byte_of (128 + Z.land r 63)) ""))).

(** The body of a string literal after the opening quote: validity as
    in the scanner of [checkValid], contents as in [unquote] (escapes
    decoded, surrogate pairs combined, lone surrogates and invalid UTF-8
    replaced by U+FFFD). Returns the unquoted bytes and the rest. *)
Fixpoint string_body (fuel : nat) (s : string) : option (string * string) :=
  match fuel with
  | O => None
  | S f =>
      match s with
      | EmptyString => None
      | String c r =>
          if Ascii.eqb c dq then Some ("", r)
          else if Ascii.eqb c "\" then
            match r with
            | String e r' =>
                let simple x := match string_body f r' with
                                | Some (b, rest) => Some (String x b, rest)
                                | None => None
                                end in
                if Ascii.eqb e dq || Ascii.eqb e "\" || Ascii.eqb e "/" then simple e
                else if Ascii.eqb e "b" then simple (ascii_of_nat 8)
                else if Ascii.eqb e "f" then simple (ascii_of_nat 12)
                else if Ascii.eqb e "n" then simple (ascii_of_nat 10)
                else if Ascii.eqb e "r" then simple (ascii_of_nat 13)
                else if Ascii.eqb e "t" then simple (ascii_of_nat 9)
                else if Ascii.eqb e "u" then
                  match hex4 r' with
                  | None => None
                  | Some (u, r2) =>
                      let '(rune, r3) :=
                        if in_range 55296 57343 u then
                          match r2 with
                          | String "\" (String "u" r4) =>
                              match hex4 r4 with
                              | Some (u2, r5) =>
                                  if in_range 55296 56319 u && in_range 56320 57343 u2
                                  then ((65536 + (u - 55296) * 1024 + (u2 - 56320))%Z, r5)
                                  else (RuneError, r2)
                              | None => (RuneError, r2)
                              end
                          | _ => (RuneError, r2)
                          end
                        else (u, r2) in
                      match string_body f r3 with
                      | Some (b, rest) => Some (EncodeRune rune ++ b, rest)
                      | None => None
                      end
                  end
                else None
            | EmptyString => None
            end
          else if (byte_val c <? 32)%Z then None
          else if (byte_val c <? 128)%Z then
            match string_body f r with
            | Some (b, rest) => Some (String c b, rest)
            | None => None
            end
          else
            let '(rune, n) := DecodeRune s in
            let bytes := if (rune =? RuneError)%Z && Nat.eqb n 1 then EncodeRune RuneError
                         else substring 0 n s in
            match string_body f (drop_bytes (n - 1) r) with
            | Some (b, rest) => Some (bytes ++ b, rest)
            | None => None
            end
      end
  end.

(** Maximum nesting depth of the JSON scanner. *)
Definition maxNestingDepth : nat := 10000.

(** One JSON value after optional white space; [depth] counts the open
    arrays and objects. *)
Fixpoint parse_value (fuel depth : nat) (s : string) : option (jvalue * string) :=
  match fuel with
  | O => None
  | S f =>
      let s := skip_ws s in
      match s with
      | String "[" r =>
          if Nat.leb maxNestingDepth depth then None else
          match skip_ws r with
          | String "]" r' => Some (JArr [], r')
          | _ =>
              (fix elems (g : nat) (r : string) (acc : list jvalue) :=
                 match g with
                 | O => None
                 | S g' =>
                     match parse_value f (S depth) r with
                     | None => None
                     | Some (v, r1) =>
                         match skip_ws r1 with
                         | String "," r2 => elems g' r2 (v :: acc)
                         | String "]" r2 => Some (JArr (rev (v :: acc)), r2)
                         | _ => None
                         end
                     end
                 end) f r []
          end
      | String "{" r =>
          if Nat.leb maxNestingDepth depth then None else
          match skip_ws r with
          | String "}" r' => Some (JObj [], r')
          | _ =>
              (fix members (g : nat) (r : string) (acc : list (string * jvalue)) :=
                 match g with
                 | O => None
                 | S g' =>
                     match skip_ws r with
                     | String c0 r0 =>
                         if negb (Ascii.eqb c0 dq) then None else
                         match string_body f r0 with
                         | None => None
                         | Some (k, r1) =>
                             match skip_ws r1 with
                             | String ":" r2 =>
                                 match parse_value f (S depth) r2 with
                                 | None => None
                                 | Some (v, r3) =>
                                     match skip_ws r3 with
                                     | String "," r4 => members g' r4 ((k, v) :: acc)
                                     | String "}" r4 => Some (JObj (rev ((k, v) :: acc)), r4)
                                     | _ => None
                                     end
                                 end
                             | _ => None
                             end
                         end
                     | _ => None
                     end
                 end) f r []
          end
      | String c r =>
          if Ascii.eqb c dq then
            match string_body f r with
            | Some (b, rest) => Some (JStr b, rest)
            | None => None
            end
          else if String.prefix "true" s then Some (JBool true, drop_bytes 4 s)
          else if String.prefix "false" s then Some (JBool false, drop_bytes 5 s)
          else if String.prefix "null" s then Some (JNull, drop_bytes 4 s)
          else if Ascii.eqb c "-" || is_digit c then
            match parse_number s with
            | Some (lit, rest) => Some (JNum lit, rest)
            | None => None
            end
          else None
      | EmptyString => None
      end
  end.

(** A whole text is valid JSON when one value is followed only by white
    space ([checkValid]); the value is what the decoder then reads. *)
Definition parse_text (s : string) : option jvalue :=
  match parse_value (S (String.length s)) 0 s with
  | Some (v, rest) => if is_empty (skip_ws rest) then Some v else None
  | None => None
  end.

Definition valid (s : string) : bool :=
  match parse_text s with Some _ => true | None => false end.

End Json.


(** Library functions whose exact behaviour no claim depends on:
    [time.Parse(time.RFC3339, _)] (an instant, or an error),
    [strings.ToLower] and [strings.TrimSpace] (Unicode tables). *)
Record GoLib := {
  ParseRFC3339 : string -> option Z;
  ToLower : string -> string;
  TrimSpace : string -> string
}.

(** An instance of [GoLib] that is exact on ASCII text: [ToLower] and
    [TrimSpace] on ASCII letters and white space, and [time.Parse] of
    RFC 3339 texts [YYYY-MM-DDTHH:MM:SS[.fraction](Z|+hh:mm|-hh:mm)] as
    nanoseconds since Go's zero time (0001-01-01T00:00:00Z). *)
Module AsciiLib.
Import GoStd.

Definition lower_byte (c : ascii) : ascii :=
  let b := byte_val c in if in_range 65 90 b then ascii_of_nat (Z.to_nat (b + 32)) else c.

Fixpoint ToLower (s : string) : string :=
  match s with
  | EmptyString => EmptyString
  | String c s' => String (lower_byte c) (ToLower s')
  end.

Definition is_space (c : ascii) : bool :=
  let b := byte_val c in (b =? 32)%Z || in_range 9 13 b.

Definition TrimSpace (s : string) : string :=
  string_of_list_ascii
    (rev (drop_while is_space (rev (drop_while is_space (list_ascii_of_string s))))).

Definition digit (c : ascii) : option Z :=
  let b := byte_val c in if in_range 48 57 b then Some (b - 48)%Z else None.

(** [n] decimal digits. *)
Fixpoint num (n : nat) (s : string) (acc : Z) : option (Z * string) :=
  match n with
  | O => Some (acc, s)
  | S n' =>
      match s with
      | String c r => match digit c with Some d => num n' r (acc * 10 + d)%Z | None => None end
      | EmptyString => None
      end
  end.

Definition lit (c : ascii) (s : string) : option string :=
  match s with String d r => if Ascii.eqb c d then Some r else None | _ => None end.

(** Fraction digits as nanoseconds (at most nine are significant). *)
Fixpoint frac (s : string) (scale acc : Z) : Z * string :=
  match s with
  | String c r =>
      match digit c with
      | Some d => frac r (scale / 10) (acc + d * scale)%Z
      | None => (acc, s)
      end
  | EmptyString => (acc, s)
  end.

Definition leap (y : Z) : bool := ((y mod 4 =? 0)%Z && negb (y mod 100 =? 0)%Z) || (y mod 400 =? 0)%Z.

Definition days_in (y m : Z) : Z :=
  if (m =? 2)%Z then (if leap y then 29 else 28)
  else if existsb (Z.eqb m) [4; 6; 9; 11]%Z then 30 else 31.

(** Days from 1970-01-01 to y-m-d in the proleptic Gregorian calendar. *)
Definition days_from_civil (y m d : Z) : Z :=
  let y' := if (m <=? 2)%Z then (y - 1)%Z else y in
  let era := (y' / 400)%Z in
  let yoe := (y' - era * 400)%Z in
  let mp := if (2 <? m)%Z then (m - 3)%Z else (m + 9)%Z in
  let doy := ((153 * mp + 2) / 5 + d - 1)%Z in
  let doe := (yoe * 365 + yoe / 4 - yoe / 100 + doy)%Z in
  (era * 146097 + doe - 719468)%Z.

Definition ParseRFC3339 (s : string) : option Z :=
  match num 4 s 0 with None => None | Some (y, r) =>
  match lit "-" r with None => None | Some r =>
  match num 2 r 0 with None => None | Some (mo, r) =>
  match lit "-" r with None => None | Some r =>
  match num 2 r 0 with None => None | Some (d, r) =>
  match lit "T" r with None => None | Some r =>
  match num 2 r 0 with None => None | Some (hh, r) =>
  match lit ":" r with None => None | Some r =>
  match num 2 r 0 with None => None | Some (mm, r) =>
  match lit ":" r with None => None | Some r =>
  match num 2 r 0 with None => None | Some (ss, r) =>
  let '(ns, r) := match r with
                  | String "." r' => frac r' 100000000 0
                  | _ => (0%Z, r)
                  end in
  let offset :=
    match r with
    | String "Z" EmptyString => Some 0%Z
    | String sg r' =>
        if Ascii.eqb sg "+" || Ascii.eqb sg "-" then
          match num 2 r' 0 with None => None | Some (oh, r2) =>
          match lit ":" r2 with None => None | Some r3 =>
          match num 2 r3 0 with
          | Some (om, EmptyString) =>
              if (oh <? 24)%Z && (om <? 60)%Z
              then Some ((if Ascii.eqb sg "+" then 1 else -1) * (oh * 3600 + om * 60))%Z
              else None
          | _ => None
          end end end
        else None
    | EmptyString => None
    end in
  match offset with
  | None => None
  | Some off =>
      if in_range 1 12 mo && in_range 1 (days_in y mo) d && (hh <? 24)%Z && (mm <? 60)%Z && (ss <? 60)%Z
      then Some (((days_from_civil y mo d + 719162) * 86400 + hh * 3600 + mm * 60 + ss - off)
                   * 1000000000 + ns)%Z
      else None
  end
  end end end end end end end end end end end.

End AsciiLib.

Definition ascii_lib : GoLib :=
  {| ParseRFC3339 := AsciiLib.ParseRFC3339; ToLower := AsciiLib.ToLower; TrimSpace := AsciiLib.TrimSpace |}.

(* ------------------------------------------------------------------ *)
(** ** internal/parser *)

Module Parser.
Import GoStd Json.

(** Go's [int] is 64 bits wide; [++] and [+=] wrap around. *)
Definition wrap64 (z : Z) : Z :=
  let r := (z mod 2 ^ 64)%Z in if (2 ^ 63 <=? r)%Z then (r - 2 ^ 64)%Z else r.

Fixpoint digits_value (s : string) (acc : Z) : Z :=
  match s with
  | String c s' => digits_value s' (acc * 10 + (byte_val c - 48))%Z
  | EmptyString => acc
  end.

Fixpoint all_digits (s : string) : bool :=
  match s with
  | String c s' => is_digit c && all_digits s'
  | EmptyString => true
  end.

(** [strconv.ParseInt(lit, 10, 64)] on a JSON number literal. *)
Definition ParseInt64 (lit : string) : option Z :=
  let '(neg, ds) := match lit with String "-" r => (true, r) | _ => (false, lit) end in
  if is_empty ds || negb (all_digits ds) then None
  else
    let v := digits_value ds 0 in
    let v := if neg then (- v)%Z else v in
    if in_range (- 2 ^ 63) (2 ^ 63 - 1) v then Some v else None.

(** Case folding of object keys against field names ([foldName]): ASCII
    letters to upper case; of the other runes only U+017F and U+212A fold
    to ASCII letters (S and K), the others fold to non-ASCII runes and
    never equal an ASCII field name, which is all the comparison uses. *)
Fixpoint fold_name (fuel : nat) (s : string) : string :=
  match fuel with
  | O => ""
  | S f =>
      match s with
      | EmptyString => ""
      | String c s' =>
          let b := byte_val c in
          if (b <? 128)%Z then
            String (if in_range 97 122 b then byte_of (b - 32) else c) (fold_name f s')
          else
            let '(r, n) := DecodeRune s in
            let folded := if (r =? 383)%Z then "S"
                          else if (r =? 8490)%Z then "K"
                          else EncodeRune r in
            folded ++ fold_name f (drop_bytes n s)
      end
  end.

Definition key_is (key field : string) : bool :=
  String.eqb (fold_name (String.length key) key) (fold_name (String.length field) field).

(** A string field: a string sets it, [null] leaves it, anything else
    leaves it and is an [UnmarshalTypeError] (decoding goes on). *)
Definition dec_string (v : jvalue) (cur : string) : string * bool :=
  match v with
  | JStr x => (x, false)
  | JNull => (cur, false)
  | _ => (cur, true)
  end.

(** An [int] field. *)
Definition dec_int (v : jvalue) (cur : Z) : Z * bool :=
  match v with
  | JNum lit => match ParseInt64 lit with Some z => (z, false) | None => (cur, true) end
  | JNull => (cur, false)
  | _ => (cur, true)
  end.

(** [RawEntry]; a [json.RawMessage] field keeps the value as written
    ([Some JNull] for [null], [None] when the key is absent). *)
Record RawEntry := {
  re_Type : string;
  re_Timestamp : string;
  re_Message : option jvalue;
  re_Role : string;
  re_Content : option jvalue
}.

Definition zero_entry : RawEntry := Build_RawEntry "" "" None "" None.

Definition set_entry_field (e : RawEntry) (kv : string * jvalue) : RawEntry * bool :=
  let '(k, v) := kv in
  if key_is k "type" then
    let '(x, er) := dec_string v (re_Type e) in
    (Build_RawEntry x (re_Timestamp e) (re_Message e) (re_Role e) (re_Content e), er)
  else if key_is k "timestamp" then
    let '(x, er) := dec_string v (re_Timestamp e) in
    (Build_RawEntry (re_Type e) x (re_Message e) (re_Role e) (re_Content e), er)
  else if key_is k "message" then
    (Build_RawEntry (re_Type e) (re_Timestamp e) (Some v) (re_Role e) (re_Content e), false)
  else if key_is k "role" then
    let '(x, er) := dec_string v (re_Role e) in
    (Build_RawEntry (re_Type e) (re_Timestamp e) (re_Message e) x (re_Content e), er)
  else if key_is k "content" then
    (Build_RawEntry (re_Type e) (re_Timestamp e) (re_Message e) (re_Role e) (Some v), false)
  else (e, false).

(** [json.Unmarshal(line, &entry)] on a valid text: the entry as decoded
    and whether an error is returned. *)
Definition decode_raw_entry (v : jvalue) : RawEntry * bool :=
  match v with
  | JNull => (zero_entry, false)
  | JObj kvs =>
      fold_left (fun (acc : RawEntry * bool) kv =>
                   let '(e, err) := acc in
                   let '(e', er) := set_entry_field e kv in (e', err || er))
                kvs (zero_entry, false)
  | _ => (zero_entry, true)
  end.

(** [json.Unmarshal(line, &entry)] on a line: [None] is an error. *)
Definition unmarshal_entry (line : string) : option RawEntry :=
  match parse_text line with
  | None => None
  | Some v => let '(e, err) := decode_raw_entry v in if err then None else Some e
  end.

Record ContentBlock := {
  cb_Type : string;
  cb_Text : string;
  cb_Name : string;
  cb_Input : option jvalue
}.

Definition zero_block : ContentBlock := Build_ContentBlock "" "" "" None.

Definition set_block_field (b : ContentBlock) (kv : string * jvalue) : ContentBlock :=
  let '(k, v) := kv in
  if key_is k "type" then Build_ContentBlock (fst (dec_string v (cb_Type b))) (cb_Text b) (cb_Name b) (cb_Input b)
  else if key_is k "text" then Build_ContentBlock (cb_Type b) (fst (dec_string v (cb_Text b))) (cb_Name b) (cb_Input b)
  else if key_is k "name" then Build_ContentBlock (cb_Type b) (cb_Text b) (fst (dec_string v (cb_Name b))) (cb_Input b)
  else if key_is k "input" then
    Build_ContentBlock (cb_Type b) (cb_Text b) (cb_Name b) (match v with JNull => None | _ => Some v end)
  else b.

Definition decode_block_into (b : ContentBlock) (v : jvalue) : ContentBlock :=
  match v with
  | JObj kvs => fold_left set_block_field kvs b
  | _ => b
  end.

(** Decoding an array into a slice: element [i] is decoded into the
    existing element [i] (a zero value past the old length), and the
    slice takes the array's length. *)
Fixpoint decode_blocks_into (old : list ContentBlock) (l : list jvalue) : list ContentBlock :=
  match l with
  | [] => []
  | x :: xs => decode_block_into (List.hd zero_block old) x :: decode_blocks_into (List.tl old) xs
  end.

Record Usage := { u_InputTokens : Z; u_OutputTokens : Z }.

Definition zero_usage : Usage := Build_Usage 0 0.

Definition set_usage_field (u : Usage) (kv : string * jvalue) : Usage :=
  let '(k, v) := kv in
  if key_is k "input_tokens" then Build_Usage (fst (dec_int v (u_InputTokens u))) (u_OutputTokens u)
  else if key_is k "output_tokens" then Build_Usage (u_InputTokens u) (fst (dec_int v (u_OutputTokens u)))
  else u.

Record MessageContent := {
  mc_Content : list ContentBlock;
  mc_Usage : option Usage;
  mc_Model : string
}.

Definition zero_mc : MessageContent := Build_MessageContent [] None "".

Definition set_mc_field (m : MessageContent) (kv : string * jvalue) : MessageContent :=
  let '(k, v) := kv in
  if key_is k "content" then
    match v with
    | JNull => Build_MessageContent [] (mc_Usage m) (mc_Model m)
    | JArr l => Build_MessageContent (decode_blocks_into (mc_Content m) l) (mc_Usage m) (mc_Model m)
    | _ => m
    end
  else if key_is k "usage" then
    (* a pointer field: [null] resets it; anything else allocates it when nil *)
    let u0 := match mc_Usage m with Some u => u | None => zero_usage end in
    match v with
    | JNull => Build_MessageContent (mc_Content m) None (mc_Model m)
    | JObj kvs => Build_MessageContent (mc_Content m) (Some (fold_left set_usage_field kvs u0)) (mc_Model m)
    | _ => Build_MessageContent (mc_Content m) (Some u0) (mc_Model m)
    end
  else if key_is k "model" then
    Build_MessageContent (mc_Content m) (mc_Usage m) (fst (dec_string v (mc_Model m)))
  else m.

(** [json.Unmarshal(entry.Message, &msgContent)], its error ignored. *)
Definition decode_message_content (v : jvalue) : MessageContent :=
  match v with
  | JObj kvs => fold_left set_mc_field kvs zero_mc
  | _ => zero_mc
  end.


Record ToolStats := { Count : Z; Success : Z; Errors : Z }.

Record Message := {
  msg_Seq : Z;
  msg_Timestamp : Z;
  msg_Role : string;
  msg_Content : string
}.

(** [parser.Session] of [internal/parser/jsonl.go]. [EndedAt] is a
    pointer: [None] is [nil]. *)
Record Session := {
  ID : string;
  ProjectName : string;
  ProjectPath : string;
  StartedAt : Z;
  EndedAt : option Z;
  TotalMessages : Z;
  TotalTokensIn : Z;
  TotalTokensOut : Z;
  Model : string;
  Tools : gmap string ToolStats;
  Tags : list string;
  Messages : list Message
}.

(** *** bufio.Scanner with ScanLines and a 10 MiB token limit *)

(** What reading an opened file yields: the bytes read, then either EOF
    ([None]) or a read error. *)
Record file_data := { fd_bytes : string; fd_read_err : option string }.

Definition nl : ascii := ascii_of_nat 10.
Definition cr : ascii := ascii_of_nat 13.

(** [scanner.Buffer(buf, 10*1024*1024)] *)
Definition maxTokenSize : Z := 10 * 1024 * 1024.

Definition ErrTooLong : string := "bufio.Scanner: token too long".

Definition dropCR (s : string) : string :=
  if HasSuffix s (String cr EmptyString) then substring 0 (String.length s - 1) s else s.

(** The lines [scanner.Scan] returns, and [scanner.Err()] afterwards: a
    line (without its newline) of [maxTokenSize] bytes or more stops the
    scan with [ErrTooLong]; after the last line the read error, if any.
    A final line without newline is a line; no empty line follows a final
    newline. *)
Definition too_long (t : string) : bool := (maxTokenSize <=? Z.of_nat (String.length t))%Z.

Fixpoint scan_from (toks : list string) (rerr : option string) : list string * option string :=
  match toks with
  | [] => ([], rerr)
  | t :: ts =>
      if too_long t then ([], Some ErrTooLong)
      else let '(r, e) := scan_from ts rerr in (dropCR t :: r, e)
  end.

(** The data split at each newline, without the empty piece after a
    final newline. *)
Definition scan_tokens (fd : file_data) : list string :=
  let parts := Split (fd_bytes fd) nl in
  if is_empty (List.last parts "") then List.removelast parts else parts.

Definition scan_lines (fd : file_data) : list string * option string :=
  scan_from (scan_tokens fd) (fd_read_err fd).

(** *** ParseJSONL *)

Record pstate := {
  ps_session : Session;
  ps_firstTs : Z;
  ps_lastTs : Z;
  ps_msgSeq : Z
}.

Definition set_totals (s : Session) (total tin tout : Z) (model : string)
  (tools : gmap string ToolStats) (msgs : list Message) : Session :=
  Build_Session (ID s) (ProjectName s) (ProjectPath s) (StartedAt s) (EndedAt s)
    total tin tout model tools (Tags s) msgs.

(** [session.Tools[name].Count++; .Success++], creating the entry. *)
Definition bump_tool (tools : gmap string ToolStats) (name : string) : gmap string ToolStats :=
  let t := match tools !! name with Some t => t | None => Build_ToolStats 0 0 0 end in
  <[name := Build_ToolStats (wrap64 (Count t + 1)) (wrap64 (Success t + 1)) (Errors t)]> tools.

(** The content-block loop of one turn: text parts and tool counters. *)
Definition scan_blocks (blocks : list ContentBlock) (tools : gmap string ToolStats)
  : list string * gmap string ToolStats :=
  fold_left (fun (acc : list string * gmap string ToolStats) b =>
               let '(parts, tools) := acc in
               if String.eqb (cb_Type b) "text" then ((parts ++ [cb_Text b])%list, tools)
               else if String.eqb (cb_Type b) "tool_use" then
                 (if is_empty (cb_Name b) then (parts, tools) else (parts, bump_tool tools (cb_Name b)))
               else (parts, tools))
            blocks ([], tools).

(** The body of the [for scanner.Scan()] loop for one line. *)
Definition parse_line (lib : GoLib) (st : pstate) (line : string) : pstate :=
  if is_empty line then st
  else
    match unmarshal_entry line with
    | None => st   (* Skip invalid lines *)
    | Some entry =>
        let '(firstTs, lastTs) :=
          if negb (is_empty (re_Timestamp entry)) then
            match ParseRFC3339 lib (re_Timestamp entry) with
            | Some ts => ((if (ps_firstTs st =? 0)%Z then ts else ps_firstTs st), ts)
            | None => (ps_firstTs st, ps_lastTs st)
            end
          else (ps_firstTs st, ps_lastTs st) in
        if String.eqb (re_Type entry) "user" || String.eqb (re_Type entry) "assistant" then
          let s := ps_session st in
          let total := wrap64 (TotalMessages s + 1) in
          let mc := match re_Message entry with
                    | Some m => decode_message_content m
                    | None => zero_mc
                    end in
          let '(textParts, tools) := scan_blocks (mc_Content mc) (Tools s) in
          let '(tin, tout) :=
            match mc_Usage mc with
            | Some u => (wrap64 (TotalTokensIn s + u_InputTokens u),
                         wrap64 (TotalTokensOut s + u_OutputTokens u))
            | None => (TotalTokensIn s, TotalTokensOut s)
            end in
          let model := if negb (is_empty (mc_Model mc)) then mc_Model mc else Model s in
          let ts := match ParseRFC3339 lib (re_Timestamp entry) with Some t => t | None => 0%Z end in
          let msg := Build_Message (ps_msgSeq st) ts (re_Type entry) (Join textParts (String nl EmptyString)) in
          Build_pstate (set_totals s total tin tout model tools (Messages s ++ [msg])%list)
            firstTs lastTs (wrap64 (ps_msgSeq st + 1))
        else Build_pstate (ps_session st) firstTs lastTs (ps_msgSeq st)
    end.

(** [generateTags]. Go ranges over the maps [s.Tools] and [patterns] in
    an unspecified order; the model uses [map_to_list] and the order of
    the source text. *)
Definition tag_patterns : list (string * list string) :=
  [("debugging", ["error"; "bug"; "fix"; "debug"]);
   ("refactoring", ["refactor"; "cleanup"; "restructure"]);
   ("feature", ["implement"; "add feature"; "new feature"]);
   ("testing", ["test"; "spec"; "coverage"]);
   ("documentation", ["document"; "readme"; "comment"])].

Definition generateTags (lib : GoLib) (s : Session) : list string :=
  let tool_tags := map (fun kv => "tool:" ++ fst kv) (map_to_list (Tools s)) in
  let content := fold_left (fun acc (m : Message) => acc ++ ToLower lib (msg_Content m) ++ " ")
                           (firstn 5 (Messages s)) "" in
  (tool_tags ++ flat_map (fun '(tag, kws) => if existsb (Contains content) kws then [tag] else [])
                         tag_patterns)%list.

(** The project path and name from the parent directory's name. *)
Definition project_of (path : string) : string * string :=
  let parentDir := Base (Dir path) in
  if HasPrefix parentDir "-" then
    let pp := ReplaceAllChar parentDir "-" slash in
    (pp, List.last (Split pp slash) "")
  else ("", "").

(** [ParseJSONL(path)]; [opened] is what [os.Open(path)] gives: [None]
    for an error, else the file's data. The result is [(session, err)]. *)
Definition ParseJSONL (lib : GoLib) (path : string) (opened : option file_data)
  : option Session * option string :=
  match opened with
  | None => (None, Some ("open " ++ path))
  | Some fd =>
      let '(ppath, pname) := project_of path in
      let s0 := Build_Session (Base (TrimSuffix path ".jsonl")) pname ppath 0 None 0 0 0 ""
                  ∅ [] [] in
      let '(lines, err) := scan_lines fd in
      let st := fold_left (parse_line lib) lines (Build_pstate s0 0 0 0) in
      let s := ps_session st in
      let started := if (ps_firstTs st =? 0)%Z then StartedAt s else ps_firstTs st in
      let ended := if (ps_lastTs st =? 0)%Z then EndedAt s else Some (ps_lastTs st) in
      let s1 := Build_Session (ID s) (ProjectName s) (ProjectPath s) started ended
                  (TotalMessages s) (TotalTokensIn s) (TotalTokensOut s) (Model s)
                  (Tools s) (Tags s) (Messages s) in
      let s2 := Build_Session (ID s1) (ProjectName s1) (ProjectPath s1) (StartedAt s1) (EndedAt s1)
                  (TotalMessages s1) (TotalTokensIn s1) (TotalTokensOut s1) (Model s1)
                  (Tools s1) (generateTags lib s1) (Messages s1) in
      (Some s2, err)
  end.

(** *** ParsePlan *)

Record Plan := {
  plan_Name : string;
  plan_Title : string;
  plan_Content : string;
  plan_CreatedAt : Z
}.

(** The outcome of [os.Stat]. *)
Inductive stat_result := StatOk (modtime : Z) | StatNotExist | StatErr.

(** [ParsePlan(path)]; [read] is [os.ReadFile(path)], [st] is [os.Stat(path)]. *)
Definition ParsePlan (lib : GoLib) (path : string) (read : option string) (st : stat_result)
  : option Plan :=
  match read with
  | None => None
  | Some content =>
      match st with
      | StatOk mt =>
          let name := Base (TrimSuffix path ".md") in
          let title := match List.find (fun l => HasPrefix l "# ") (Split content nl) with
                       | Some l => TrimSpace lib (TrimPrefix l "# ")
                       | None => name
                       end in
          Some (Build_Plan name title content mt)
      | _ => None
      end
  end.

End Parser.


(* ------------------------------------------------------------------ *)
(** ** internal/filter *)

Module Filter.
Import GoStd Parser.

Record SharingConfig := {
  Level : string;                 (** none, metadata, full *)
  ExcludeProjects : list string;
  AnonymizePaths : bool
}.

(** [strings.ReplaceAll(pattern, "**", "*")] *)
Fixpoint collapse_stars (s : string) : string :=
  match s with
  | String "*" (String "*" r) => String "*" (collapse_stars r)
  | String c r => String c (collapse_stars r)
  | EmptyString => EmptyString
  end.

(** [matched, _ := filepath.Match(pattern, name)]: a bad pattern does not match. *)
Definition matched (pattern name : string) : bool :=
  match Match pattern name with Some true => true | _ => false end.

(** [isExcluded] *)
Definition isExcluded (cfg : SharingConfig) (projectPath : string) : bool :=
  existsb (fun pattern =>
             matched pattern projectPath
             || (Contains pattern "**"
                 && existsb (fun part => matched (collapse_stars pattern) part)
                            (Split projectPath slash)))
          (ExcludeProjects cfg).

(** The filtered copy built by [Apply] before the share level is applied:
    the listed fields copied, [ProjectName] anonymized or not, every other
    field at its zero value. *)
Definition filtered_copy (cfg : SharingConfig) (s : Session) : Session :=
  Build_Session (ID s)
    (if AnonymizePaths cfg then Base (ProjectPath s) else ProjectPath s)
    "" (StartedAt s) (EndedAt s) (TotalMessages s) (TotalTokensIn s) (TotalTokensOut s)
    (Model s) (Tools s) (Tags s) [].

Definition with_messages (s : Session) (msgs : list Message) : Session :=
  Build_Session (ID s) (ProjectName s) (ProjectPath s) (StartedAt s) (EndedAt s)
    (TotalMessages s) (TotalTokensIn s) (TotalTokensOut s) (Model s) (Tools s) (Tags s) msgs.

(** [Filter.Apply]; [None] is the nil result. *)
Definition Apply (cfg : SharingConfig) (s : Session) : option Session :=
  if isExcluded cfg (ProjectPath s) then None
  else
    let filtered := filtered_copy cfg s in
    if String.eqb (Level cfg) "none" then None
    else if String.eqb (Level cfg) "metadata" then Some (with_messages filtered [])
    else if String.eqb (Level cfg) "full" then Some (with_messages filtered (Messages s))
    else Some filtered.

(** [Apply] on a heap of [*Session] objects: [&parser.Session{...}]
    allocates a fresh object, the assignments to [filtered.ProjectName]
    and [filtered.Messages] write to it. The result is the heap after the
    call and the returned pointer ([None] = nil); the call itself is
    [None] when [s] is a nil pointer (a panic). *)
Abbreviation heap := (gmap positive Session).

Definition set_project_name (s : Session) (n : string) : Session :=
  Build_Session (ID s) n (ProjectPath s) (StartedAt s) (EndedAt s)
    (TotalMessages s) (TotalTokensIn s) (TotalTokensOut s) (Model s) (Tools s) (Tags s) (Messages s).

Definition Apply_heap (cfg : SharingConfig) (h : heap) (p : positive) : option (heap * option positive) :=
  match h !! p with
  | None => None
  | Some s =>
      if isExcluded cfg (ProjectPath s) then Some (h, None)
      else
        let q := fresh (dom h) in
        let h1 := <[q := Build_Session (ID s) "" "" (StartedAt s) (EndedAt s) (TotalMessages s)
                           (TotalTokensIn s) (TotalTokensOut s) (Model s) (Tools s) (Tags s) []]> h in
        let write f (h : heap) := match h !! q with Some o => <[q := f o]> h | None => h end in
        let h2 := write (fun o => set_project_name o
                           (if AnonymizePaths cfg then Base (ProjectPath s) else ProjectPath s)) h1 in
        if String.eqb (Level cfg) "none" then Some (h2, None)
        else if String.eqb (Level cfg) "metadata" then Some (write (fun o => with_messages o []) h2, Some q)
        else if String.eqb (Level cfg) "full" then Some (write (fun o => with_messages o (Messages s)) h2, Some q)
        else Some (h2, Some q)
  end.

End Filter.


(* ------------------------------------------------------------------ *)
(** ** filepath.WalkDir *)

Module Walk.
Import GoStd.

(** A directory entry as [os.ReadDir] lists it (children in the order
    it returns them). [read_err] marks a directory whose [ReadDir]
    fails; [children] are then the entries it returned before the error.
    [DFile] is any entry that is not a directory (symlinks included). *)
Inductive dentry :=
| DFile (name : string)
| DDir (name : string) (read_err : bool) (children : list dentry).

Definition dname (d : dentry) : string :=
  match d with DFile n => n | DDir n _ _ => n end.

Definition IsDir (d : dentry) : bool :=
  match d with DFile _ => false | DDir _ _ _ => true end.

Inductive walk_err := SkipDir | SkipAll | WErr (msg : string).

Definition is_skipdir (e : walk_err) : bool := match e with SkipDir => true | _ => false end.

(** A [fs.WalkDirFunc] threading an accumulator: it gets the path, the
    entry (nil when the root cannot be [Lstat]ed) and the error. *)
Definition walk_fn (A : Type) := string -> option dentry -> option walk_err -> A -> A * option walk_err.

(** [walkDir] *)
Fixpoint walkDir {A} (fn : walk_fn A) (path : string) (d : dentry) (acc : A) : A * option walk_err :=
  let '(acc, e) := fn path (Some d) None acc in
  match e with
  | Some err => (acc, if is_skipdir err && IsDir d then None else Some err)
  | None =>
      match d with
      | DFile _ => (acc, None)
      | DDir _ rerr children =>
          let iter :=
            fix go (l : list dentry) (acc : A) : A * option walk_err :=
              match l with
              | [] => (acc, None)
              | c :: cs =>
                  let '(acc, e) := walkDir fn (PathJoin path (dname c)) c acc in
                  match e with
                  | None => go cs acc
                  | Some SkipDir => (acc, None)
                  | Some err => (acc, Some err)
                  end
              end in
          if rerr then
            (* second call, to report the ReadDir error *)
            let '(acc, e2) := fn path (Some d) (Some (WErr "readdir")) acc in
            match e2 with
            | Some err => (acc, if is_skipdir err then None else Some err)
            | None => iter children acc
            end
          else iter children acc
      end
  end.

(** [filepath.WalkDir(root, fn)]; [lstat] is [os.Lstat(root)] as the
    entry tree below the root, [None] when it fails. *)
Definition WalkDir {A} (fn : walk_fn A) (root : string) (lstat : option dentry) (acc : A)
  : A * option walk_err :=
  let '(acc, e) := match lstat with
                   | None => fn root None (Some (WErr "lstat")) acc
                   | Some d => walkDir fn root d acc
                   end in
  (acc, match e with Some SkipDir | Some SkipAll => None | _ => e end).

(** The callback of [findSessions] / [findPlans] for a suffix. *)
Definition collect (suffix : string) : walk_fn (list string) :=
  fun path d err files =>
    match err with
    | Some _ => (files, None)   (* Skip directories we can't access *)
    | None =>
        match d with
        | Some d => if negb (IsDir d) && HasSuffix path suffix then ((files ++ [path])%list, None)
                    else (files, None)
        | None => (files, None)
        end
    end.

Definition findSessions (dir : string) (lstat : option dentry) : list string * option walk_err :=
  WalkDir (collect ".jsonl") dir lstat [].

Definition findPlans (dir : string) (lstat : option dentry) : list string * option walk_err :=
  WalkDir (collect ".md") dir lstat [].

End Walk.

(* ------------------------------------------------------------------ *)
(** ** internal/watcher *)

Module Watcher.
Import GoStd Parser Walk.

Record SyncState := {
  SyncedSessions : gmap string Z;
  SyncedPlans : gmap string Z;
  LastSync : Z
}.

Record SessionResponse := { sr_SessionID : string; sr_Status : string; sr_Warnings : list string }.
Record PlanResponse := { pr_Name : string; pr_Status : string; pr_Warnings : list string }.

(** The parts of [config.Config] a pass reads. *)
Record Config := {
  Sharing : Filter.SharingConfig;
  RetryAttempts : Z
}.

(** The world a pass runs against: the log root, the file system
    ([os.Lstat] of a walk root as its tree, [os.Stat], [os.Open],
    [os.ReadFile]), the collector (answer to the [n]-th upload call:
    [inl err] or [inr responses]) and whether [saveState] succeeds. *)
Record World := {
  w_logsPath : string;
  w_tree : string -> option dentry;
  w_stat : string -> stat_result;
  w_open : string -> option file_data;
  w_readfile : string -> option string;
  w_upload : nat -> list Session -> string + list SessionResponse;
  w_upload_plans : nat -> list Plan -> string + list PlanResponse;
  w_save_ok : bool
}.

(** Observable events of a pass. *)
Inductive event :=
| EvParse (path : string)                 (** [parser.ParseJSONL(path)] *)
| EvParsePlan (path : string)             (** [parser.ParsePlan(path)] *)
| EvUpload (batch : list Session)         (** [client.UploadBatch(batch)] *)
| EvUploadPlans (batch : list Plan)       (** [client.UploadPlanBatch(batch)] *)
| EvSleep (seconds : Z).                  (** [time.Sleep] *)

(** The state a pass threads: the in-memory [w.state], the clock
    ([time.Now()], in nanoseconds), the number of upload calls so far,
    the events, and the last state written by [saveState]. *)
Record Env := {
  e_state : SyncState;
  e_clock : Z;
  e_calls : nat;
  e_trace : list event;
  e_saved : option SyncState
}.

Inductive outcome (A : Type) := Ok (a : A) | Err (msg : string) | Panic (msg : string).
Arguments Ok {A}. Arguments Err {A}. Arguments Panic {A}.

(** The pass monad: state [Env], Go errors and panics. *)
Definition M (A : Type) := Env -> Env * outcome A.

Definition ret {A} (a : A) : M A := fun e => (e, Ok a).

Definition bind {A B} (m : M A) (k : A -> M B) : M B :=
  fun e => match m e with
           | (e', Ok a) => k a e'
           | (e', Err msg) => (e', Err msg)
           | (e', Panic msg) => (e', Panic msg)
           end.

Declare Scope pass_scope.
Notation "x <- m ;; k" := (bind m (fun x => k)) (at level 100, m at next level, right associativity) : pass_scope.
Notation "m ;; k" := (bind m (fun _ => k)) (at level 100, right associativity) : pass_scope.
Open Scope pass_scope.

Definition fail {A} (msg : string) : M A := fun e => (e, Err msg).
Definition panic {A} (msg : string) : M A := fun e => (e, Panic msg).

(** A Go error returned by [m] is logged and dropped. *)
Definition log_err (m : M unit) : M unit :=
  fun e => match m e with
           | (e', Err _) => (e', Ok tt)
           | r => r
           end.

Definition get_state : M SyncState := fun e => (e, Ok (e_state e)).

Definition put_state (st : SyncState) : M unit :=
  fun e => (Build_Env st (e_clock e) (e_calls e) (e_trace e) (e_saved e), Ok tt).

Definition emit (ev : event) : M unit :=
  fun e => (Build_Env (e_state e) (e_clock e) (e_calls e) (e_trace e ++ [ev])%list (e_saved e), Ok tt).

(** [time.Now()] *)
Definition now : M Z := fun e => (e, Ok (e_clock e)).

(** [time.Sleep(time.Duration(secs) * time.Second)] *)
Definition sleep (secs : Z) : M unit :=
  fun e => (Build_Env (e_state e) (e_clock e + secs * 1000000000)%Z (e_calls e)
              (e_trace e ++ [EvSleep secs])%list (e_saved e), Ok tt).

(** One call to the collector: recorded, then answered by the world. *)
Definition call {T R} (w_answer : nat -> list T -> string + list R) (ev : list T -> event)
  (batch : list T) : M (string + list R) :=
  fun e => (Build_Env (e_state e) (e_clock e) (S (e_calls e)) (e_trace e ++ [ev batch])%list (e_saved e),
            Ok (w_answer (e_calls e) batch)).

(** [w.state.SyncedSessions[id] = t] and [w.state.SyncedPlans[name] = t] *)
Definition mark_session (id : string) (t : Z) : M unit :=
  st <- get_state ;;
  put_state (Build_SyncState (<[id := t]> (SyncedSessions st)) (SyncedPlans st) (LastSync st)).

Definition mark_plan (name : string) (t : Z) : M unit :=
  st <- get_state ;;
  put_state (Build_SyncState (SyncedSessions st) (<[name := t]> (SyncedPlans st)) (LastSync st)).

(** [toUpload[i:end]] *)
Definition go_slice {T} (l : list T) (i j : nat) : list T := firstn (j - i) (skipn i l).

Definition batchSize : nat := 10.

Section Delivery.
Context {T R : Type}.
Variable key : T -> string.                        (** [batch[j].ID] / [batch[j].Name] *)
Variable mark : string -> Z -> M unit.
Variable upload : list T -> M (string + list R).

(** [for j, resp := range responses { mark(batch[j]) }]; an index past
    the batch panics. *)
Fixpoint mark_acks (batch : list T) (responses : list R) : M unit :=
  match responses with
  | [] => ret tt
  | _ :: rs =>
      match batch with
      | [] => panic "index out of range"
      | b :: bs => t <- now ;; mark (key b) t ;; mark_acks bs rs
      end
  end.

(** [for attempt := 1; attempt <= retryAttempts; attempt++ { ... }];
    returns [uploadErr]. *)
Fixpoint attempts (fuel : nat) (retryAttempts attempt : Z) (batch : list T) (uploadErr : option string)
  : M (option string) :=
  match fuel with
  | O => ret uploadErr
  | S f =>
      if (attempt <=? retryAttempts)%Z then
        r <- upload batch ;;
        match r with
        | inr responses => mark_acks batch responses ;; ret None
        | inl err => sleep (attempt * 2) ;; attempts f retryAttempts (attempt + 1) batch (Some err)
        end
      else ret uploadErr
  end.

Definition deliver_batch (retryAttempts : Z) (batch : list T) : M (option string) :=
  attempts (S (Z.to_nat retryAttempts)) retryAttempts 1 batch None.

(** [for i := 0; i < len(toUpload); i += batchSize { ... }] *)
Fixpoint batches (fuel : nat) (retryAttempts : Z) (i : nat) (toUpload : list T) : M unit :=
  match fuel with
  | O => ret tt
  | S f =>
      if Nat.ltb i (length toUpload) then
        let end_ := Nat.min (i + batchSize) (length toUpload) in
        let batch := go_slice toUpload i end_ in
        _ <- deliver_batch retryAttempts batch ;;
        batches f retryAttempts (i + batchSize) toUpload
      else ret tt
  end.

Definition upload_all (retryAttempts : Z) (toUpload : list T) : M unit :=
  batches (S (length toUpload)) retryAttempts 0 toUpload.

End Delivery.


(** [sessionID := filepath.Base(strings.TrimSuffix(f, ".jsonl"))] *)
Definition sessionID (f : string) : string := Base (TrimSuffix f ".jsonl").

(** [name := filepath.Base(strings.TrimSuffix(f, ".md"))] *)
Definition planName (f : string) : string := Base (TrimSuffix f ".md").

(** The candidate loop of [sync]: files whose session ID is not synced. *)
Definition new_session_files (synced : gmap string Z) (files : list string) : list string :=
  List.filter (fun f => match synced !! sessionID f with Some _ => false | None => true end) files.

(** The candidate loop of [syncPlans]: files that can be [os.Stat]ed and
    are unsynced or modified after the recorded time. *)
Definition new_plan_files (synced : gmap string Z) (stat : string -> stat_result) (files : list string)
  : list string :=
  List.filter (fun f =>
                 match stat f with
                 | StatOk mt =>
                     match synced !! planName f with
                     | None => true
                     | Some lastSynced => (lastSynced <? mt)%Z   (* ModTime().After(lastSynced) *)
                     end
                 | _ => false
                 end) files.

(** The parse-and-filter loop of [sync]: sessions to upload in order;
    an excluded session is marked synced right away. *)
Fixpoint parse_filter (lib : GoLib) (w : World) (sharing : Filter.SharingConfig)
  (l : list string) (toUpload : list Session) : M (list Session) :=
  match l with
  | [] => ret toUpload
  | f :: fs =>
      emit (EvParse f) ;;
      match ParseJSONL lib f (w_open w f) with
      | (Some session, None) =>
          match Filter.Apply sharing session with
          | None =>
              t <- now ;;
              mark_session (ID session) t ;;
              parse_filter lib w sharing fs toUpload
          | Some filtered => parse_filter lib w sharing fs (toUpload ++ [filtered])%list
          end
      | _ => parse_filter lib w sharing fs toUpload
      end
  end.

Definition upload_sessions (w : World) (cfg : Config) (toUpload : list Session) : M unit :=
  upload_all ID mark_session (call (w_upload w) EvUpload) (RetryAttempts cfg) toUpload.

Definition upload_plans (w : World) (cfg : Config) (toUpload : list Plan) : M unit :=
  upload_all plan_Name mark_plan (call (w_upload_plans w) EvUploadPlans) (RetryAttempts cfg) toUpload.

(** The parse loop of [syncPlans]. *)
Fixpoint parse_plans (lib : GoLib) (w : World) (l : list string) (toUpload : list Plan) : M (list Plan) :=
  match l with
  | [] => ret toUpload
  | f :: fs =>
      emit (EvParsePlan f) ;;
      match ParsePlan lib f (w_readfile w f) (w_stat w f) with
      | Some p => parse_plans lib w fs (toUpload ++ [p])%list
      | None => parse_plans lib w fs toUpload
      end
  end.

(** [syncPlans] *)
Definition syncPlans (lib : GoLib) (w : World) (cfg : Config) : M unit :=
  let plansDir := PathJoin (w_logsPath w) "plans" in
  match w_stat w plansDir with
  | StatNotExist => ret tt   (* No plans directory, nothing to sync *)
  | _ =>
      let '(files, err) := findPlans plansDir (w_tree w plansDir) in
      match err with
      | Some _ => fail "walk plans"
      | None =>
          st <- get_state ;;
          match new_plan_files (SyncedPlans st) (w_stat w) files with
          | [] => ret tt
          | newFiles =>
              toUpload <- parse_plans lib w newFiles [] ;;
              match toUpload with
              | [] => ret tt
              | _ => upload_plans w cfg toUpload
              end
          end
      end
  end.

(** [saveState] *)
Definition saveState (w : World) : M unit :=
  fun e => if w_save_ok w
           then (Build_Env (e_state e) (e_clock e) (e_calls e) (e_trace e) (Some (e_state e)), Ok tt)
           else (e, Err "save state").

(** The session part of [sync], from the candidate loop to the uploads. *)
Definition sync_sessions (lib : GoLib) (w : World) (cfg : Config) (files : list string) : M unit :=
  st <- get_state ;;
  match new_session_files (SyncedSessions st) files with
  | [] => ret tt   (* No new sessions to sync *)
  | newFiles =>
      toUpload <- parse_filter lib w (Sharing cfg) newFiles [] ;;
      match toUpload with
      | [] => ret tt
      | _ => upload_sessions w cfg toUpload
      end
  end.

(** [sync]: one pass. *)
Definition sync (lib : GoLib) (w : World) (cfg : Config) : M unit :=
  let projectsDir := PathJoin (w_logsPath w) "projects" in
  let '(files, err) := findSessions projectsDir (w_tree w projectsDir) in
  match err with
  | Some _ => fail "walk projects"
  | None =>
      sync_sessions lib w cfg files ;;
      log_err (syncPlans lib w cfg) ;;
      t <- now ;;
      st <- get_state ;;
      put_state (Build_SyncState (SyncedSessions st) (SyncedPlans st) t) ;;
      saveState w
  end.

(** The events of a run from [e]: those appended to [e_trace e]. *)
Definition events_of (e : Env) (r : Env * outcome unit) : list event :=
  skipn (length (e_trace e)) (e_trace (fst r)).

(** [&State{SyncedSessions: make(...), SyncedPlans: make(...)}] *)
Definition empty_state : SyncState := Build_SyncState ∅ ∅ 0.

(** The state file as [loadState] finds it: missing, unreadable (the
    error of [os.ReadFile]), or read, with what [json.Unmarshal] leaves in
    a fresh [State] and the error it returns. *)
Inductive state_file :=
| StateMissing
| StateReadErr (msg : string)
| StateData (decoded : SyncState) (err : option string).

(** [loadState]: sets [w.state] and returns its error. *)
Definition loadState (f : state_file) : M (option string) :=
  match f with
  | StateMissing => put_state empty_state ;; ret None
  | StateReadErr msg => ret (Some msg)
  | StateData st err => put_state st ;; ret err
  end.

(** [if err := w.loadState(); err != nil { w.state = &State{...} }] *)
Definition load_or_empty (f : state_file) : M unit :=
  err <- loadState f ;;
  match err with
  | Some _ => put_state empty_state
  | None => ret tt
  end.

(** [SyncOnce] *)
Definition SyncOnce (lib : GoLib) (w : World) (cfg : Config) (f : state_file) : M unit :=
  load_or_empty f ;;
  sync lib w cfg.



(** [Stats] *)
Record Stats := {
  TotalSynced : nat;
  TotalPlansSynced : nat;
  StatsLastSync : Z
}.

(** [GetStats]: the counts of the state file as [loadState] reads it
    into the environment [e]; [Stats{}] when it returns an error. *)
Definition GetStats (f : state_file) (e : Env) : Stats :=
  match loadState f e with
  | (e', Ok None) =>
      Build_Stats (size (SyncedSessions (e_state e'))) (size (SyncedPlans (e_state e')))
        (LastSync (e_state e'))
  | _ => Build_Stats 0 0 0
  end.

End Watcher.


(* ------------------------------------------------------------------ *)
(** ** internal/config *)

Module config.
Import GoStd.

Record ServerConfig := { URL : string; APIKey : string }.
Record SyncConfig := { Interval : Z; RetryAttempts : Z }.
Record LoggingConfig := { Level : string; File : string }.

(** [config.Config]; its [SharingConfig] is the one [Filter] reads. *)
Record Config := {
  Server : ServerConfig;
  Sharing : Filter.SharingConfig;
  Sync : SyncConfig;
  Logging : LoggingConfig
}.

(** [DefaultConfig] *)
Definition DefaultConfig : Config :=
  Build_Config (Build_ServerConfig "https://insights.dkd.internal" "")
    (Filter.Build_SharingConfig "metadata" [] true)
    (Build_SyncConfig 300 3)
    (Build_LoggingConfig "info" "").

Definition ErrMissingServerURL : string := "server.url is required".
Definition ErrMissingAPIKey : string := "server.api_key is required".
Definition ErrInvalidShareLevel : string := "sharing.level must be none, metadata, or full".

(** [Validate]; [None] is the nil error. *)
Definition Validate (c : Config) : option string :=
  if String.eqb (URL (Server c)) "" then Some ErrMissingServerURL
  else if String.eqb (APIKey (Server c)) "" then Some ErrMissingAPIKey
  else if negb (String.eqb (Filter.Level (Sharing c)) "none")
          && negb (String.eqb (Filter.Level (Sharing c)) "metadata")
          && negb (String.eqb (Filter.Level (Sharing c)) "full")
  then Some ErrInvalidShareLevel
  else None.

(** The settings a pass of the watcher reads ([w.cfg.Sharing],
    [w.cfg.Sync.RetryAttempts]). *)
Definition pass_config (c : Config) : Watcher.Config :=
  Watcher.Build_Config (Sharing c) (RetryAttempts (Sync c)).

End config.


(* ------------------------------------------------------------------ *)
(** ** cmd/agent: setupLogger *)

Module Agent.
Import GoStd.

(** [strings.Replace(s, old, new, 1)] with a one-byte [old]. *)
Fixpoint replace_first (s : string) (old : ascii) (new : string) : string :=
  match s with
  | EmptyString => EmptyString
  | String a s' => if Ascii.eqb a old then new ++ s' else String a (replace_first s' old new)
  end.

(** [strings.TrimSuffix(logPath, "/"+strings.Split(logPath, "/")[len(...)-1])]:
    the directory [setupLogger] passes to [os.MkdirAll]. *)
Definition log_dir (logPath : string) : string :=
  TrimSuffix logPath (String slash (List.last (Split logPath slash) "")).

Inductive log_output := Stdout | LogFile (path : string).

(** [setupLogger]: the output it logs to and, when [cfg.Logging.File] is
    set, the directory it creates and the path it opens. [home] is
    [os.UserHomeDir()]; [open_ok dir path] whether [os.OpenFile(path, ...)]
    succeeds after [os.MkdirAll(dir, 0755)]. *)
Definition setupLogger (home : string) (open_ok : string -> string -> bool) (file : string)
  : log_output * option (string * string) :=
  if negb (String.eqb file "") then
    let logPath := if HasPrefix file "~" then replace_first file "~" home else file in
    let dir := log_dir logPath in
    ((if open_ok dir logPath then LogFile logPath else Stdout), Some (dir, logPath))
  else (Stdout, None).

(** The configuration [cmdInit] builds from its answers, each a line as
    [reader.ReadString('\n')] returns it: server URL, API key, share
    level, anonymize paths, sync interval. [scan] is
    [fmt.Sscanf(_, "%d", &i)]: the integer read, or [None] for an error. *)
Definition cmdInit_config (lib : GoLib) (scan : string -> option Z)
  (url apiKey level anon interval : string) : config.Config :=
  let d := config.DefaultConfig in
  let u := if negb (String.eqb (TrimSpace lib url) "") then TrimSpace lib url
           else config.URL (config.Server d) in
  let k := TrimSpace lib apiKey in
  let lv := if negb (String.eqb (TrimSpace lib level) "") then TrimSpace lib level
            else Filter.Level (config.Sharing d) in
  let an := if String.eqb (TrimSpace lib (ToLower lib anon)) "n" then false
            else Filter.AnonymizePaths (config.Sharing d) in
  let iv := if negb (String.eqb (TrimSpace lib interval) "") then
              match scan (TrimSpace lib interval) with
              | Some i => if (0 <? i)%Z then i else config.Interval (config.Sync d)
              | None => config.Interval (config.Sync d)
              end
            else config.Interval (config.Sync d) in
  config.Build_Config (config.Build_ServerConfig u k)
    (Filter.Build_SharingConfig lv (Filter.ExcludeProjects (config.Sharing d)) an)
    (config.Build_SyncConfig iv (config.RetryAttempts (config.Sync d)))
    (config.Logging d).

(** What [cmdInit] ends with after its answers: the validation error it
    exits on, or the configuration it saves. *)
Definition cmdInit_result (lib : GoLib) (scan : string -> option Z)
  (url apiKey level anon interval : string) : string + config.Config :=
  let cfg := cmdInit_config lib scan url apiKey level anon interval in
  match config.Validate cfg with
  | Some err => inl err
  | None => inr cfg
  end.

End Agent.

(* ------------------------------------------------------------------ *)
(** ** Notions used by the properties *)

Module Props.
Import GoStd Parser.

(** The fields [Apply] copies from its input. *)
Definition same_summary (x s : Session) : Prop :=
  ID x = ID s /\ StartedAt x = StartedAt s /\ EndedAt x = EndedAt s /\
  TotalMessages x = TotalMessages s /\ TotalTokensIn x = TotalTokensIn s /\
  TotalTokensOut x = TotalTokensOut s /\ Model x = Model s /\
  Tools x = Tools s /\ Tags x = Tags s.

(** An entry of type "user" or "assistant": a conversational turn. *)
Definition is_turn (e : RawEntry) : bool :=
  String.eqb (re_Type e) "user" || String.eqb (re_Type e) "assistant".

(** A line [ParseJSONL] counts as a message. *)
Definition counted_line (l : string) : bool :=
  negb (is_empty l) && match unmarshal_entry l with Some e => is_turn e | None => false end.

(** Induction on entry trees, with the hypothesis for every child. *)
Fixpoint dentry_ind' (P : Walk.dentry -> Prop)
  (Hf : forall n, P (Walk.DFile n))
  (Hd : forall n r cs, Forall P cs -> P (Walk.DDir n r cs)) (d : Walk.dentry) : P d :=
  match d with
  | Walk.DFile n => Hf n
  | Walk.DDir n r cs =>
      Hd n r cs ((fix go (l : list Walk.dentry) : Forall P l :=
                    match l with
                    | [] => @List.Forall_nil _ P
                    | c :: cs' => @List.Forall_cons _ P c cs' (dentry_ind' P Hf Hd c) (go cs')
                    end) cs)
  end.

(** The paths below [path] (itself included) of the entries that are not
    directories and whose path ends in [suffix], in walk order. *)
Fixpoint tree_files (suffix path : string) (d : Walk.dentry) : list string :=
  match d with
  | Walk.DFile _ => if HasSuffix path suffix then [path] else []
  | Walk.DDir _ _ cs =>
      (fix go (l : list Walk.dentry) : list string :=
         match l with
         | [] => []
         | c :: cs' => (tree_files suffix (PathJoin path (Walk.dname c)) c ++ go cs')%list
         end) cs
  end.

(** A pass step that returns no Go error: it succeeds or panics. *)
Definition no_err {A} (m : Watcher.M A) : Prop :=
  forall e msg, snd (m e) <> Watcher.Err msg.

(** Every event a step appends satisfies [P]. *)
Definition emits {A} (P : Watcher.event -> Prop) (m : Watcher.M A) : Prop :=
  forall e, exists evs, Watcher.e_trace (fst (m e)) = (Watcher.e_trace e ++ evs)%list /\ Forall P evs.

(** Every value a step returns satisfies [Q]. *)
Definition returns {A} (Q : A -> Prop) (m : Watcher.M A) : Prop :=
  forall e a, snd (m e) = Watcher.Ok a -> Q a.

(** A step keeps the property [I] of the sync state, however it ends. *)
Definition keeps {A} (I : Watcher.SyncState -> Prop) (m : Watcher.M A) : Prop :=
  forall e, I (Watcher.e_state e) -> I (Watcher.e_state (fst (m e))).

(** Consecutive pieces of [n] elements, the last one holding the rest. *)
Fixpoint chunks_fuel {T} (fuel n : nat) (l : list T) : list (list T) :=
  match fuel with
  | O => []
  | S f => match l with
           | [] => []
           | _ :: _ => firstn n l :: chunks_fuel f n (skipn n l)
           end
  end.

Definition chunks {T} (n : nat) (l : list T) : list (list T) := chunks_fuel (length l) n l.

(** Delivery of the given batches one after the other. *)
Fixpoint deliver_each {T R} (key : T -> string) (mark : string -> Z -> Watcher.M unit)
  (upload : list T -> Watcher.M (string + list R)) (ra : Z) (cs : list (list T)) : Watcher.M unit :=
  match cs with
  | [] => Watcher.ret tt
  | c :: cs' => Watcher.bind (Watcher.deliver_batch key mark upload ra c)
                  (fun _ => deliver_each key mark upload ra cs')
  end.

(** The events of [n] failed delivery attempts of batch [b], the first
    one numbered [a]: each call is followed by its backoff. *)
Fixpoint fail_events {T} (ev : list T -> Watcher.event) (b : list T) (a : Z) (n : nat)
  : list Watcher.event :=
  match n with
  | O => []
  | S n' => ev b :: Watcher.EvSleep (a * 2) :: fail_events ev b (a + 1) n'
  end.

(** What an event of a pass says about sessions, given the candidate
    files [newFiles] of the pass: a parse is of a candidate; a delivered
    batch holds share-level copies of sessions parsed without error from
    candidates; any other event is about plans or a backoff. *)
Definition pass_event (lib : GoLib) (w : Watcher.World) (sharing : Filter.SharingConfig)
  (newFiles : list string) (x : Watcher.event) : Prop :=
  match x with
  | Watcher.EvParse g => In g newFiles
  | Watcher.EvUpload b =>
      forall s', In s' b -> exists g s, In g newFiles /\
        Parser.ParseJSONL lib g (Watcher.w_open w g) = (Some s, None) /\ Filter.Apply sharing s = Some s'
  | _ => True
  end.

(** The batches sent to the collector, in order. *)
Definition uploads (evs : list Watcher.event) : list (list Parser.Session) :=
  flat_map (fun x => match x with Watcher.EvUpload b => [b] | _ => [] end) evs.

(** The session files parsed, in order. *)
Definition parses (evs : list Watcher.event) : list string :=
  flat_map (fun x => match x with Watcher.EvParse g => [g] | _ => [] end) evs.

(** An event that does not parse a session file. *)
Definition not_parse (x : Watcher.event) : Prop :=
  match x with Watcher.EvParse _ => False | _ => True end.



(** The messages of a parse state: counted in [TotalMessages] and
    [msgSeq], numbered in order, all turns. *)
Definition msgs_ok (st : pstate) : Prop :=
  let ms := Messages (ps_session st) in
  TotalMessages (ps_session st) = wrap64 (Z.of_nat (length ms)) /\
  ps_msgSeq st = wrap64 (Z.of_nat (length ms)) /\
  forall i m, nth_error ms i = Some m ->
    msg_Seq m = wrap64 (Z.of_nat i) /\ (msg_Role m = "user" \/ msg_Role m = "assistant").

(** The tool counters of a session: no error counted, one success per use. *)
Definition tools_ok (tools : gmap string ToolStats) : Prop :=
  forall k t, tools !! k = Some t -> Errors t = 0%Z /\ Success t = Count t.

End Props.

(* ------------------------------------------------------------------ *)
(** ** Sample inputs *)

Module Samples.
Import Parser.

(** A session of two text turns in project /home/bob/proj. *)
Definition session : Session :=
  Build_Session "abc" "proj" "/home/bob/proj" 5 (Some 9%Z) 2 10 20 "m"
    (<["Bash" := Build_ToolStats 1 1 0]> ∅) ["tool:Bash"]
    [Build_Message 0 5 "user" "fix the bug"; Build_Message 1 9 "assistant" "done"].

(** [n] copies of the byte [c]. *)
Fixpoint rep (n : nat) (c : ascii) : string :=
  match n with O => EmptyString | S n' => String c (rep n' c) end.

Definition sharing (level : string) : Filter.SharingConfig :=
  Filter.Build_SharingConfig level ["**secret"] true.

(** A log root /root/.claude whose projects directory holds one project
    directory with the given session files (name, content); no plans
    directory; the collector answers with [upload]. *)
Definition projects_tree (files : list (string * string)) : Walk.dentry :=
  Walk.DDir "projects" false
    [Walk.DDir "-home-bob-proj" false (map (fun f => Walk.DFile (fst f)) files)].

Definition world (files : list (string * string))
  (upload : nat -> list Session -> string + list Watcher.SessionResponse) (save_ok : bool)
  : Watcher.World :=
  {| Watcher.w_logsPath := "/root/.claude";
     Watcher.w_tree := fun p => if String.eqb p "/root/.claude/projects"
                               then Some (projects_tree files) else None;
     Watcher.w_stat := fun _ => StatNotExist;
     Watcher.w_open := fun p =>
       match find (fun f => String.eqb p ("/root/.claude/projects/-home-bob-proj/" ++ fst f)) files with
       | Some f => Some (Build_file_data (snd f) None)
       | None => None
       end;
     Watcher.w_readfile := fun _ => None;
     Watcher.w_upload := upload;
     Watcher.w_upload_plans := fun _ _ => inr [];
     Watcher.w_save_ok := save_ok |}.

(** A world where the projects directory cannot be [Lstat]ed. *)
Definition world_no_projects (save_ok : bool) : Watcher.World :=
  {| Watcher.w_logsPath := "/root/.claude";
     Watcher.w_tree := fun _ => None;
     Watcher.w_stat := fun _ => StatNotExist;
     Watcher.w_open := fun _ => None;
     Watcher.w_readfile := fun _ => None;
     Watcher.w_upload := fun _ _ => inr [];
     Watcher.w_upload_plans := fun _ _ => inr [];
     Watcher.w_save_ok := save_ok |}.

(** A collector that acknowledges every session of a batch. *)
Definition ack_all (n : nat) (b : list Session) : string + list Watcher.SessionResponse :=
  inr (map (fun s => Watcher.Build_SessionResponse (ID s) "created" []) b).

(** A collector that is never reachable. *)
Definition always_fail (n : nat) (b : list Session) : string + list Watcher.SessionResponse :=
  inl "connection refused".

Definition config (level : string) (retries : Z) : Watcher.Config :=
  Watcher.Build_Config (sharing level) retries.

Definition env0 (synced : gmap string Z) : Watcher.Env :=
  Watcher.Build_Env (Watcher.Build_SyncState synced ∅ 0) 1000 0 [] None.

(** One user turn. *)
Definition turn : string :=
  GoStd.q "{'type':'user','message':{'content':[{'type':'text','text':'hi'}]}}" ++ String nl EmptyString.

(** The decimal digits of [n]. *)
Fixpoint decimal (fuel n : nat) : string :=
  match fuel with
  | O => ""
  | S f => ((if Nat.ltb n 10 then "" else decimal f (n / 10))
            ++ String (ascii_of_nat (48 + n mod 10)) "")%string
  end.

(** [n] session files s0.jsonl, s1.jsonl, ... with one turn each. *)
Fixpoint session_files (n : nat) : list (string * string) :=
  match n with
  | O => []
  | S k => (session_files k ++ [("s" ++ decimal (S k) k ++ ".jsonl", turn)%string])%list
  end.

(** A log root with no projects directory and a plans directory holding
    plan.md, modified at [mtime]. *)
Definition world_plans (mtime : Z) : Watcher.World :=
  {| Watcher.w_logsPath := "/root/.claude";
     Watcher.w_tree := fun p => if String.eqb p "/root/.claude/plans"
                               then Some (Walk.DDir "plans" false [Walk.DFile "plan.md"]) else None;
     Watcher.w_stat := fun p =>
       if String.eqb p "/root/.claude/plans" then StatOk 0
       else if String.eqb p "/root/.claude/plans/plan.md" then StatOk mtime
       else StatNotExist;
     Watcher.w_open := fun _ => None;
     Watcher.w_readfile := fun p => if String.eqb p "/root/.claude/plans/plan.md"
                                   then Some ("# Plan" ++ String nl "step one") else None;
     Watcher.w_upload := fun _ _ => inr [];
     Watcher.w_upload_plans := fun _ b => inr (map (fun p => Watcher.Build_PlanResponse (plan_Name p) "created" []) b);
     Watcher.w_save_ok := true |}.

(** The state after plan "plan" was delivered at [t]. *)
Definition env_plan (t : Z) : Watcher.Env :=
  Watcher.Build_Env (Watcher.Build_SyncState ∅ (<["plan" := t]> ∅) 0) 1000 0 [] None.

(** Full sharing with the given exclusion patterns, three attempts. *)
Definition exclude_config (patterns : list string) : Watcher.Config :=
  Watcher.Build_Config (Filter.Build_SharingConfig "full" patterns true) 3.

End Samples.

Example base_ex : GoStd.Base (GoStd.TrimSuffix "/a/-home-x/abc.jsonl" ".jsonl") = "abc".
Proof. reflexivity. Qed.
Example dir_ex : GoStd.Base (GoStd.Dir "/a/-home-x/abc.jsonl") = "-home-x".
Proof. reflexivity. Qed.
Example clean_ex : GoStd.Clean "a/../../b/./c//" = "../b/c".
Proof. reflexivity. Qed.
Example match_ex1 : GoStd.Match "/home/*/secret" "/home/bob/secret" = Some true.
Proof. reflexivity. Qed.
Example match_ex2 : GoStd.Match "*.go" "a/b.go" = Some false.
Proof. reflexivity. Qed.
Example match_ex3 : GoStd.Match "[a-c]x?" "bxz" = Some true.
Proof. reflexivity. Qed.
Example match_ex4 : GoStd.Match "[" "a" = None.
Proof. reflexivity. Qed.
Example match_ex5 : GoStd.Match "a*b*c" "axxbyyc" = Some true.
Proof. reflexivity. Qed.
Example match_ex6 : GoStd.Match "[^a]" "a" = Some false.
Proof. reflexivity. Qed.
Example json_ex1 : Json.parse_text (GoStd.q "{'type':'user', 'n': [1, -2.5e3, true, null]}")
  = Some (Json.JObj [("type", Json.JStr "user"); ("n", Json.JArr [Json.JNum "1"; Json.JNum "-2.5e3"; Json.JBool true; Json.JNull])]).
Proof. reflexivity. Qed.
Example json_ex2 : Json.valid (GoStd.q "{'type':'user',}") = false.
Proof. reflexivity. Qed.
Example json_ex3 : Json.parse_text (GoStd.q "'aé\n'") = Some (Json.JStr ("a" ++ String (ascii_of_nat 195) (String (ascii_of_nat 169) (String (ascii_of_nat 10) "")))).
Proof. reflexivity. Qed.
Example json_ex4 : Json.valid "01" = false.
Proof. reflexivity. Qed.
Example match_ex7 : GoStd.Match "a\*" "a*" = Some true.
Proof. reflexivity. Qed.
Example rfc_ex1 : AsciiLib.ParseRFC3339 "0001-01-01T00:00:00Z" = Some 0%Z.
Proof. reflexivity. Qed.
Example rfc_ex2 : AsciiLib.ParseRFC3339 "1970-01-01T01:00:00+01:00" = AsciiLib.ParseRFC3339 "1970-01-01T00:00:00Z".
Proof. reflexivity. Qed.
Example rfc_ex3 : AsciiLib.ParseRFC3339 "2024-02-30T00:00:00Z" = None.
Proof. reflexivity. Qed.

(* ================================================================== *)
(** * Properties *)

Import GoStd Parser.

(** ** Filter.Apply *)

Lemma Apply_not_excluded cfg s :
  Filter.isExcluded cfg (ProjectPath s) = false ->
  Filter.Apply cfg s =
    if String.eqb (Filter.Level cfg) "none" then None
    else if String.eqb (Filter.Level cfg) "metadata"
         then Some (Filter.with_messages (Filter.filtered_copy cfg s) [])
    else if String.eqb (Filter.Level cfg) "full"
         then Some (Filter.with_messages (Filter.filtered_copy cfg s) (Messages s))
    else Some (Filter.filtered_copy cfg s).
Proof. intros H. unfold Filter.Apply. rewrite H. reflexivity. Qed.

Lemma fresh_not_in (h : gmap positive Session) p :
  is_Some (h !! p) -> p <> fresh (dom h).
Proof.
  intros Hp ->. apply (is_fresh (dom h)). apply elem_of_dom. exact Hp.
Qed.

Lemma Apply_heap_spec cfg (h : gmap positive Session) p s :
  h !! p = Some s ->
  exists h' r, Filter.Apply_heap cfg h p = Some (h', r) /\
    (forall p', is_Some (h !! p') -> h' !! p' = h !! p') /\
    match r with None => Filter.Apply cfg s = None | Some q => h' !! q = Filter.Apply cfg s end.
Proof.
  intros Hp. unfold Filter.Apply_heap, Filter.Apply. rewrite Hp.
  destruct (Filter.isExcluded cfg (ProjectPath s)).
  { exists h, None. repeat split; auto. }
  set (q := fresh (dom h)).
  assert (Hne : forall p', is_Some (h !! p') -> p' <> q) by (intros; apply fresh_not_in; auto).
  destruct (String.eqb (Filter.Level cfg) "none");
  [|destruct (String.eqb (Filter.Level cfg) "metadata");
    [|destruct (String.eqb (Filter.Level cfg) "full")]];
  repeat rewrite lookup_insert_eq;
  eexists _, _; (split; [reflexivity|]); split;
  try (intros p' Hp'; pose proof (Hne p' Hp');
       repeat rewrite lookup_insert_ne by congruence; reflexivity);
  repeat rewrite lookup_insert_eq; reflexivity.
Qed.

(** C3: for a session that no exclusion pattern matches, [Apply] under
    share level "metadata" returns a copy with the input's ID, start and
    end times, message and token counts, model, tool statistics and tags
    and an empty message list; under "none" it returns nil; under "full"
    a copy with the same fields and the input's messages unchanged. In
    every case, run on a heap of session objects, it leaves every object
    that existed before the call unchanged (the input included), and the
    object it returns is the pure result above. *)
Theorem Apply_share_levels (cfg : Filter.SharingConfig) (s : Session) :
  (Filter.isExcluded cfg (ProjectPath s) = false ->
     (Filter.Level cfg = "metadata" ->
        exists x, Filter.Apply cfg s = Some x /\ Props.same_summary x s /\ Messages x = []) /\
     (Filter.Level cfg = "none" -> Filter.Apply cfg s = None) /\
     (Filter.Level cfg = "full" ->
        exists x, Filter.Apply cfg s = Some x /\ Props.same_summary x s /\ Messages x = Messages s)) /\
  (forall (h : Filter.heap) p, h !! p = Some s ->
     exists h' r, Filter.Apply_heap cfg h p = Some (h', r) /\
       (forall p', is_Some (h !! p') -> h' !! p' = h !! p') /\
       match r with None => Filter.Apply cfg s = None | Some q => h' !! q = Filter.Apply cfg s end).
Proof.
  split.
  - intros Hx. rewrite (Apply_not_excluded cfg s Hx).
    repeat split; intros Hl; rewrite Hl; cbn;
      eexists; (split; [reflexivity|]); repeat split.
  - intros h p Hp. apply Apply_heap_spec. exact Hp.
Qed.

Lemma Apply_share_levels_witness :
  Filter.isExcluded (Samples.sharing "metadata") (ProjectPath Samples.session) = false /\
  exists x, Filter.Apply (Samples.sharing "metadata") Samples.session = Some x /\
    Props.same_summary x Samples.session /\ Messages x = [].
Proof.
  split; [reflexivity|].
  exact (proj1 (proj1 (Apply_share_levels (Samples.sharing "metadata") Samples.session) eq_refl) eq_refl).
Defined.

(** C10: for a session that no exclusion pattern matches and a share
    level other than "none", "metadata" and "full", [Apply] returns a
    copy (not nil) with an empty message list, the same result as under
    "metadata". *)
Theorem Apply_unknown_level (cfg : Filter.SharingConfig) (s : Session) :
  Filter.isExcluded cfg (ProjectPath s) = false ->
  Filter.Level cfg <> "none" -> Filter.Level cfg <> "metadata" -> Filter.Level cfg <> "full" ->
  exists x, Filter.Apply cfg s = Some x /\ Messages x = [] /\
    Filter.Apply cfg s =
      Filter.Apply (Filter.Build_SharingConfig "metadata" (Filter.ExcludeProjects cfg)
                      (Filter.AnonymizePaths cfg)) s.
Proof.
  intros Hx Hn Hm Hf.
  exists (Filter.filtered_copy cfg s).
  rewrite (Apply_not_excluded cfg s Hx).
  rewrite (Apply_not_excluded (Filter.Build_SharingConfig "metadata" (Filter.ExcludeProjects cfg)
                                 (Filter.AnonymizePaths cfg)) s Hx). cbn.
  apply String.eqb_neq in Hn, Hm, Hf. rewrite Hn, Hm, Hf.
  repeat split.
Qed.

Lemma Apply_unknown_level_witness :
  Filter.isExcluded (Samples.sharing "partial") (ProjectPath Samples.session) = false /\
  exists x, Filter.Apply (Samples.sharing "partial") Samples.session = Some x /\ Messages x = [] /\
    Filter.Apply (Samples.sharing "partial") Samples.session =
      Filter.Apply (Filter.Build_SharingConfig "metadata"
                      (Filter.ExcludeProjects (Samples.sharing "partial"))
                      (Filter.AnonymizePaths (Samples.sharing "partial"))) Samples.session.
Proof.
  split; [reflexivity|].
  apply Apply_unknown_level; [reflexivity | discriminate | discriminate | discriminate].
Defined.

(** ** ParseJSONL *)

Lemma scan_from_err toks rerr :
  snd (scan_from toks rerr) = if existsb too_long toks then Some ErrTooLong else rerr.
Proof.
  induction toks as [|t ts IH]; cbn; [reflexivity|].
  destruct (too_long t); cbn; [reflexivity|].
  destruct (scan_from ts rerr) as [r e]; exact IH.
Qed.

Lemma scan_from_lines toks rerr :
  fst (scan_from toks rerr) = map dropCR (take_while (fun t => negb (too_long t)) toks).
Proof.
  induction toks as [|t ts IH]; cbn; [reflexivity|].
  destruct (too_long t); cbn; [reflexivity|].
  destruct (scan_from ts rerr) as [r e]; cbn in *. rewrite IH. reflexivity.
Qed.

(** C9: [ParseJSONL] on a file that cannot be opened returns no session
    and an error. On a file that opens it returns a session together with
    [scanner.Err()]: [ErrTooLong] when a line is 10 MiB or longer, else
    the error that ended reading the file, if any. *)
Theorem ParseJSONL_error_cases (lib : GoLib) (path : string) :
  ParseJSONL lib path None = (None, Some ("open " ++ path)) /\
  forall fd, exists s, ParseJSONL lib path (Some fd) =
    (Some s, if existsb too_long (scan_tokens fd) then Some ErrTooLong else fd_read_err fd).
Proof.
  split; [reflexivity|]. intros fd.
  rewrite <- scan_from_err. fold (scan_lines fd).
  unfold ParseJSONL. destruct (project_of path) as [pp pn].
  destruct (scan_lines fd) as [ls err]. eexists. reflexivity.
Qed.

Lemma Split_rep n c sep :
  Ascii.eqb c sep = false -> Split (Samples.rep n c) sep = [Samples.rep n c].
Proof.
  intros Hc. induction n as [|n IH]; cbn; [reflexivity|].
  rewrite Hc, IH. reflexivity.
Qed.

Lemma length_rep n c : String.length (Samples.rep n c) = n.
Proof. induction n; cbn; congruence. Qed.

(** One line of [n] bytes, [n] at least [maxTokenSize], and no newline. *)
Lemma scan_lines_long n c :
  Ascii.eqb c nl = false -> (maxTokenSize <= Z.of_nat n)%Z ->
  scan_lines (Build_file_data (Samples.rep n c) None) = ([], Some ErrTooLong).
Proof.
  intros Hc Hn. unfold scan_lines, scan_tokens. cbn [fd_bytes fd_read_err].
  rewrite Split_rep by exact Hc.
  destruct n as [|n']; [unfold maxTokenSize in Hn; lia|].
  cbn [List.last is_empty Samples.rep scan_from].
  unfold too_long. cbn [String.length]. rewrite length_rep.
  replace (maxTokenSize <=? Z.of_nat (S n'))%Z with true by (symmetry; apply Z.leb_le; exact Hn).
  reflexivity.
Qed.

(** A file of one line of 10 MiB: it opens, and [ParseJSONL] still
    returns the error [ErrTooLong] with its session. *)
Lemma ParseJSONL_long_line :
  exists s, ParseJSONL ascii_lib "/root/.claude/projects/-home-bob-proj/abc.jsonl"
    (Some (Build_file_data (Samples.rep (Z.to_nat maxTokenSize) "a") None)) = (Some s, Some ErrTooLong).
Proof.
  unfold ParseJSONL.
  rewrite scan_lines_long; [| reflexivity | rewrite Z2Nat.id; [lia | unfold maxTokenSize; lia]].
  eexists. reflexivity.
Qed.

Lemma wrap64_mod a : (wrap64 a mod 2 ^ 64 = a mod 2 ^ 64)%Z.
Proof.
  unfold wrap64. destruct (2 ^ 63 <=? a mod 2 ^ 64)%Z; [|apply Z.mod_mod; lia].
  rewrite <- Zminus_mod_idemp_r, Z_mod_same_full, Z.sub_0_r. apply Z.mod_mod; lia.
Qed.

Lemma wrap64_add_l a b : wrap64 (wrap64 a + b) = wrap64 (a + b).
Proof.
  unfold wrap64 at 1 3.
  rewrite (Zplus_mod (wrap64 a)), wrap64_mod, <- Zplus_mod. reflexivity.
Qed.

Lemma wrap64_idem a : wrap64 (wrap64 a) = wrap64 a.
Proof. pose proof (wrap64_add_l a 0) as H. rewrite !Z.add_0_r in H. exact H. Qed.

Lemma parse_line_total lib st l :
  TotalMessages (ps_session (parse_line lib st l)) =
    if Props.counted_line l then wrap64 (TotalMessages (ps_session st) + 1)
    else TotalMessages (ps_session st).
Proof.
  unfold parse_line, Props.counted_line.
  destruct (is_empty l); cbn [negb andb]; [reflexivity|].
  destruct (unmarshal_entry l) as [e|]; [|reflexivity].
  unfold Props.is_turn.
  repeat match goal with |- context [match ?p with pair _ _ => _ end] => destruct p end.
  destruct (String.eqb (re_Type e) "user" || String.eqb (re_Type e) "assistant"); reflexivity.
Qed.

Lemma fold_parse_line_total lib ls st :
  wrap64 (TotalMessages (ps_session st)) = TotalMessages (ps_session st) ->
  TotalMessages (ps_session (fold_left (parse_line lib) ls st)) =
    wrap64 (TotalMessages (ps_session st) + Z.of_nat (length (List.filter Props.counted_line ls))).
Proof.
  revert st. induction ls as [|l ls IH]; intros st Hw; cbn.
  - rewrite Z.add_0_r. symmetry. exact Hw.
  - rewrite IH by (rewrite parse_line_total; destruct (Props.counted_line l);
                   [apply wrap64_idem | exact Hw]).
    rewrite parse_line_total. destruct (Props.counted_line l); cbn [length].
    + rewrite wrap64_add_l. f_equal. lia.
    + reflexivity.
Qed.

Lemma unmarshal_entry_valid l e : unmarshal_entry l = Some e -> Json.valid l = true.
Proof.
  unfold unmarshal_entry, Json.valid. destruct (Json.parse_text l); congruence.
Qed.

(** C5: on a file that opens, [ParseJSONL] counts as messages exactly
    the scanned lines that [json.Unmarshal] decodes into an entry of type
    "user" or "assistant", with [int] wrap-around; a line that is not
    valid JSON is never counted; the scanned lines are the file's lines
    up to (not including) the first one of 10 MiB or more. *)
Theorem ParseJSONL_message_count (lib : GoLib) (path : string) (fd : file_data) :
  exists s, fst (ParseJSONL lib path (Some fd)) = Some s /\
    TotalMessages s =
      wrap64 (Z.of_nat (length (List.filter Props.counted_line (fst (scan_lines fd))))) /\
    fst (scan_lines fd) = map dropCR (take_while (fun t => negb (too_long t)) (scan_tokens fd)) /\
    (forall l, Json.valid l = false -> Props.counted_line l = false).
Proof.
  unfold ParseJSONL. destruct (project_of path) as [pp pn].
  pose proof (scan_from_lines (scan_tokens fd) (fd_read_err fd)) as Hl.
  fold (scan_lines fd) in Hl.
  destruct (scan_lines fd) as [ls err]. cbn [fst] in *.
  eexists. split; [reflexivity|]. split; [|split; [exact Hl|]].
  - cbn [TotalMessages]. rewrite fold_parse_line_total by reflexivity. reflexivity.
  - intros l Hv. unfold Props.counted_line.
    destruct (unmarshal_entry l) as [e|] eqn:E; [|apply andb_false_r].
    apply unmarshal_entry_valid in E. congruence.
Qed.

(** Two lines that are valid JSON objects of type "user"; [json.Unmarshal]
    rejects the first (a number for the string field [Timestamp]), so the
    session counts one message, with no error. *)
Lemma ParseJSONL_type_error_line :
  Json.parse_text (q "{'type':'user','timestamp':5}")
    = Some (Json.JObj [("type", Json.JStr "user"); ("timestamp", Json.JNum "5")]) /\
  Json.parse_text (q "{'type':'user'}") = Some (Json.JObj [("type", Json.JStr "user")]) /\
  let r := ParseJSONL ascii_lib "/root/.claude/projects/-home-bob-proj/abc.jsonl"
             (Some (Build_file_data (q "{'type':'user','timestamp':5}" ++ String nl
                                       (q "{'type':'user'}" ++ String nl EmptyString)) None)) in
  option_map TotalMessages (fst r) = Some 1%Z /\ snd r = None.
Proof. vm_compute. repeat split. Qed.

(** ** Discovery: findSessions and findPlans *)

Lemma walkDir_collect suffix d :
  forall path acc,
    Walk.walkDir (Walk.collect suffix) path d acc = ((acc ++ Props.tree_files suffix path d)%list, None).
Proof.
  induction d as [n | n r cs Hcs] using Props.dentry_ind'; intros path acc.
  - cbn. destruct (HasSuffix path suffix); cbn; [reflexivity|]. rewrite app_nil_r. reflexivity.
  - destruct r; cbn -[PathJoin]; revert acc;
      (induction Hcs as [|c cs0 Hc Hcs0 IH]; intros acc;
       [rewrite app_nil_r; reflexivity|]);
      rewrite Hc; cbn -[PathJoin Props.tree_files]; rewrite IH, app_assoc; reflexivity.
Qed.

Lemma WalkDir_collect suffix root t :
  Walk.WalkDir (Walk.collect suffix) root t [] =
    (match t with None => [] | Some d => Props.tree_files suffix root d end, None).
Proof.
  destruct t as [d|]; [|reflexivity].
  unfold Walk.WalkDir. rewrite walkDir_collect. reflexivity.
Qed.

Lemma findSessions_spec dir t :
  Walk.findSessions dir t =
    (match t with None => [] | Some d => Props.tree_files ".jsonl" dir d end, None).
Proof. apply WalkDir_collect. Qed.

Lemma findPlans_spec dir t :
  Walk.findPlans dir t =
    (match t with None => [] | Some d => Props.tree_files ".md" dir d end, None).
Proof. apply WalkDir_collect. Qed.

(** ** Steps of a pass that return no Go error *)

Section NoErr.
Import Watcher.

Lemma no_err_ret {A} (a : A) : Props.no_err (ret a).
Proof. intros e msg. discriminate. Qed.

Lemma no_err_bind {A B} (m : M A) (k : A -> M B) :
  Props.no_err m -> (forall a, Props.no_err (k a)) -> Props.no_err (bind m k).
Proof.
  intros Hm Hk e msg. unfold bind.
  destruct (m e) as [e' [a|m'|m']] eqn:E; cbn.
  - apply Hk.
  - specialize (Hm e m'). rewrite E in Hm. cbn in Hm. congruence.
  - discriminate.
Qed.

Lemma no_err_panic {A} msg : Props.no_err (A := A) (panic msg).
Proof. intros e m. discriminate. Qed.

Lemma no_err_emit ev : Props.no_err (emit ev).
Proof. intros e m. discriminate. Qed.

Lemma no_err_get_state : Props.no_err get_state.
Proof. intros e m. discriminate. Qed.

Lemma no_err_put_state st : Props.no_err (put_state st).
Proof. intros e m. discriminate. Qed.

Lemma no_err_now : Props.no_err now.
Proof. intros e m. discriminate. Qed.

Lemma no_err_sleep n : Props.no_err (sleep n).
Proof. intros e m. discriminate. Qed.

Lemma no_err_call {T R} (ans : nat -> list T -> string + list R) ev b : Props.no_err (call ans ev b).
Proof. intros e m. discriminate. Qed.

Lemma no_err_log_err m : Props.no_err (log_err m).
Proof.
  intros e msg. unfold log_err. destruct (m e) as [e' [[]|m'|m']]; discriminate.
Qed.

Lemma no_err_mark_session id t : Props.no_err (mark_session id t).
Proof. intros e m. discriminate. Qed.

Lemma no_err_mark_plan n t : Props.no_err (mark_plan n t).
Proof. intros e m. discriminate. Qed.

Lemma no_err_saveState w : w_save_ok w = true -> Props.no_err (saveState w).
Proof. intros Hw e m. unfold saveState. rewrite Hw. discriminate. Qed.

End NoErr.

Create HintDb no_err.
#[local] Hint Resolve no_err_ret no_err_panic no_err_emit no_err_get_state no_err_put_state
  no_err_now no_err_sleep no_err_call no_err_log_err no_err_mark_session no_err_mark_plan : no_err.

Ltac no_err_step :=
  match goal with
  | |- Props.no_err (Watcher.bind _ _) => apply no_err_bind; intros
  | |- Props.no_err (match ?x with _ => _ end) => destruct x
  | |- Props.no_err (let '(_, _) := ?x in _) => destruct x
  | |- _ => solve [eauto with no_err]
  end.

Section NoErrLoops.
Context {T R : Type}.
Variable key : T -> string.
Variable mark : string -> Z -> Watcher.M unit.
Variable upload : list T -> Watcher.M (string + list R).
Hypothesis mark_ok : forall k t, Props.no_err (mark k t).
Hypothesis upload_ok : forall b, Props.no_err (upload b).

Lemma no_err_mark_acks batch (responses : list R) :
  Props.no_err (Watcher.mark_acks key mark batch responses).
Proof.
  revert responses. induction batch as [|b bs IH]; intros [|r rs]; cbn;
    repeat no_err_step; auto.
Qed.

Lemma no_err_attempts fuel ra a batch err :
  Props.no_err (Watcher.attempts key mark upload fuel ra a batch err).
Proof.
  revert a err. induction fuel as [|f IH]; intros a err; cbn; [auto with no_err|].
  repeat no_err_step; auto using no_err_mark_acks.
Qed.

Lemma no_err_batches fuel ra i l :
  Props.no_err (Watcher.batches key mark upload fuel ra i l).
Proof.
  revert i. induction fuel as [|f IH]; intros i; cbn; [auto with no_err|].
  repeat no_err_step; auto using no_err_attempts, no_err_mark_acks.
Qed.

End NoErrLoops.

Lemma no_err_parse_filter lib w sharing l acc :
  Props.no_err (Watcher.parse_filter lib w sharing l acc).
Proof.
  revert acc. induction l as [|f fs IH]; intros acc; cbn; [auto with no_err|].
  repeat no_err_step; auto.
Qed.

Lemma no_err_upload_sessions w cfg l : Props.no_err (Watcher.upload_sessions w cfg l).
Proof. apply no_err_batches; auto with no_err. Qed.

(** A pass whose state is saved returns no Go error. *)
Lemma no_err_sync lib w cfg :
  Watcher.w_save_ok w = true -> Props.no_err (Watcher.sync lib w cfg).
Proof.
  intros Hw. unfold Watcher.sync.
  rewrite findSessions_spec.
  unfold Watcher.sync_sessions.
  repeat no_err_step; auto using no_err_parse_filter, no_err_upload_sessions, no_err_saveState.
Qed.

(** ** Failure of a pass *)

(** C8: [findSessions] never returns an error. When the projects
    directory cannot be [Lstat]ed it yields no files; otherwise it yields
    every path below it that is not a directory and ends in ".jsonl", a
    directory whose [ReadDir] fails (the root included) contributing the
    entries listed before the failure. A pass therefore never aborts on
    enumeration: the only error it returns is the failure to save the
    state. *)
Theorem findSessions_never_fails :
  (forall dir t, snd (Walk.findSessions dir t) = None) /\
  (forall dir, fst (Walk.findSessions dir None) = []) /\
  (forall dir d, fst (Walk.findSessions dir (Some d)) = Props.tree_files ".jsonl" dir d) /\
  (forall lib w cfg e msg,
     snd (Watcher.sync lib w cfg e) = Watcher.Err msg -> Watcher.w_save_ok w = false).
Proof.
  split; [|split; [|split]].
  - intros dir t. rewrite findSessions_spec. reflexivity.
  - intros dir. rewrite findSessions_spec. reflexivity.
  - intros dir d. rewrite findSessions_spec. reflexivity.
  - intros lib w cfg e msg H. destruct (Watcher.w_save_ok w) eqn:Hw; [|reflexivity].
    exfalso. exact (no_err_sync lib w cfg Hw e msg H).
Qed.

Lemma findSessions_never_fails_witness :
  snd (Watcher.sync ascii_lib (Samples.world_no_projects false) (Samples.config "metadata" 3)
         (Samples.env0 ∅)) = Watcher.Err "save state" /\
  Watcher.w_save_ok (Samples.world_no_projects false) = false.
Proof.
  split; [vm_compute; reflexivity|].
  apply (proj2 (proj2 (proj2 findSessions_never_fails)) ascii_lib (Samples.world_no_projects false)
           (Samples.config "metadata" 3) (Samples.env0 ∅) "save state").
  vm_compute. reflexivity.
Defined.

(** The projects directory cannot be [Lstat]ed (it is missing or
    unreadable): the pass does not abort, it completes and saves the
    state, and [SyncOnce] gets no error. *)
Lemma sync_without_projects_dir :
  Watcher.w_tree (Samples.world_no_projects true) "/root/.claude/projects" = None /\
  let r := Watcher.sync ascii_lib (Samples.world_no_projects true) (Samples.config "metadata" 3)
             (Samples.env0 ∅) in
  snd r = Watcher.Ok tt /\ Watcher.e_saved (fst r) <> None.
Proof. vm_compute. split; [reflexivity|]. split; [reflexivity|discriminate]. Qed.

(** ** Events, results and state of the steps of a pass *)

Section Frame.
Import Watcher.

Lemma emits_ret {A} P (a : A) : Props.emits P (ret a).
Proof. intros e. exists []. split; [symmetry; apply app_nil_r | constructor]. Qed.

Lemma emits_bind {A B} P (Q : A -> Prop) (m : M A) (k : A -> M B) :
  Props.emits P m -> Props.returns Q m -> (forall a, Q a -> Props.emits P (k a)) ->
  Props.emits P (bind m k).
Proof.
  intros Hm Hq Hk e. unfold bind.
  destruct (Hm e) as (evs & Ht & Hf).
  destruct (m e) as [e' [a|msg|msg]] eqn:E; cbn in *.
  - destruct (Hk a (Hq e a ltac:(rewrite E; reflexivity)) e') as (evs2 & Ht2 & Hf2).
    exists (evs ++ evs2)%list. rewrite Ht2, Ht, app_assoc. split; [reflexivity|].
    apply Forall_app; auto.
  - exists evs. auto.
  - exists evs. auto.
Qed.

Lemma emits_weaken {A} (P P' : event -> Prop) (m : M A) :
  (forall ev, P ev -> P' ev) -> Props.emits P m -> Props.emits P' m.
Proof.
  intros HP Hm e. destruct (Hm e) as (evs & Ht & Hf). exists evs. split; [exact Ht|].
  eapply Forall_impl; eauto.
Qed.

Lemma returns_any {A} (m : M A) : Props.returns (fun _ => True) m.
Proof. intros e a _. exact I. Qed.

Lemma returns_ret {A} (Q : A -> Prop) a : Q a -> Props.returns Q (ret a).
Proof. intros Hq e a' H. cbn in H. congruence. Qed.

Lemma returns_bind {A B} (Q : A -> Prop) (R : B -> Prop) (m : M A) (k : A -> M B) :
  Props.returns Q m -> (forall a, Q a -> Props.returns R (k a)) -> Props.returns R (bind m k).
Proof.
  intros Hm Hk e b. unfold bind.
  destruct (m e) as [e' [a|msg|msg]] eqn:E; try discriminate.
  apply Hk. apply (Hm e). rewrite E. reflexivity.
Qed.

Lemma keeps_ret {A} I (a : A) : Props.keeps I (ret a).
Proof. intros e H. exact H. Qed.

Lemma keeps_bind {A B} I (Q : A -> Prop) (m : M A) (k : A -> M B) :
  Props.keeps I m -> Props.returns Q m -> (forall a, Q a -> Props.keeps I (k a)) ->
  Props.keeps I (bind m k).
Proof.
  intros Hm Hq Hk e He. unfold bind. pose proof (Hm e He) as H1.
  destruct (m e) as [e' [a|msg|msg]] eqn:E; cbn in *; auto.
  apply (Hk a); auto. apply (Hq e). rewrite E. reflexivity.
Qed.

Lemma events_of_emits (e : Env) (r : Env * outcome unit) evs :
  e_trace (fst r) = (e_trace e ++ evs)%list -> events_of e r = evs.
Proof. intros H. unfold events_of. rewrite H, skipn_app, skipn_all, Nat.sub_diag. reflexivity. Qed.

End Frame.

Section FramePrims.
Import Watcher.

Lemma emits_emit P ev : P ev -> Props.emits P (emit ev).
Proof. intros H e. exists [ev]. auto. Qed.

Lemma emits_nil {A} P (m : M A) :
  (forall e, e_trace (fst (m e)) = e_trace e) -> Props.emits P m.
Proof. intros H e. exists []. rewrite app_nil_r. auto. Qed.

Lemma emits_get_state P : Props.emits P get_state.
Proof. apply emits_nil. reflexivity. Qed.

Lemma emits_put_state P st : Props.emits P (put_state st).
Proof. apply emits_nil. reflexivity. Qed.

Lemma emits_now P : Props.emits P now.
Proof. apply emits_nil. reflexivity. Qed.

Lemma emits_mark_session P id t : Props.emits P (mark_session id t).
Proof. apply emits_nil. reflexivity. Qed.

Lemma emits_mark_plan P n t : Props.emits P (mark_plan n t).
Proof. apply emits_nil. reflexivity. Qed.

Lemma emits_sleep P n : P (EvSleep n) -> Props.emits P (sleep n).
Proof. intros H e. exists [EvSleep n]. auto. Qed.

Lemma emits_call {T R} P (ans : nat -> list T -> string + list R) ev b :
  P (ev b) -> Props.emits P (call ans ev b).
Proof. intros H e. exists [ev b]. auto. Qed.

Lemma emits_panic {A} P msg : Props.emits (A := A) P (panic msg).
Proof. apply emits_nil. reflexivity. Qed.

Lemma emits_fail {A} P msg : Props.emits (A := A) P (fail msg).
Proof. apply emits_nil. reflexivity. Qed.

Lemma emits_log_err P m : Props.emits P m -> Props.emits P (log_err m).
Proof.
  intros H e. destruct (H e) as (evs & Ht & Hf). exists evs. unfold log_err.
  destruct (m e) as [e' [[]|msg|msg]]; auto.
Qed.

Lemma emits_saveState P w : Props.emits P (saveState w).
Proof. apply emits_nil. intros e. unfold saveState. destruct (w_save_ok w); reflexivity. Qed.

Lemma keeps_unchanged {A} I (m : M A) :
  (forall e, e_state (fst (m e)) = e_state e) -> Props.keeps I m.
Proof. intros H e He. rewrite H. exact He. Qed.

Lemma keeps_emit I ev : Props.keeps I (emit ev).
Proof. apply keeps_unchanged. reflexivity. Qed.

Lemma keeps_get_state I : Props.keeps I get_state.
Proof. apply keeps_unchanged. reflexivity. Qed.

Lemma keeps_now I : Props.keeps I now.
Proof. apply keeps_unchanged. reflexivity. Qed.

Lemma keeps_sleep I n : Props.keeps I (sleep n).
Proof. apply keeps_unchanged. reflexivity. Qed.

Lemma keeps_call {T R} I (ans : nat -> list T -> string + list R) ev b : Props.keeps I (call ans ev b).
Proof. apply keeps_unchanged. reflexivity. Qed.

Lemma keeps_panic {A} I msg : Props.keeps (A := A) I (panic msg).
Proof. apply keeps_unchanged. reflexivity. Qed.

Lemma keeps_fail {A} I msg : Props.keeps (A := A) I (fail msg).
Proof. apply keeps_unchanged. reflexivity. Qed.

Lemma keeps_saveState I w : Props.keeps I (saveState w).
Proof. apply keeps_unchanged. intros e. unfold saveState. destruct (w_save_ok w); reflexivity. Qed.

Lemma keeps_log_err I m : Props.keeps I m -> Props.keeps I (log_err m).
Proof.
  intros H e He. specialize (H e He). unfold log_err.
  destruct (m e) as [e' [[]|msg|msg]]; auto.
Qed.

Lemma keeps_put_state I st : I st -> Props.keeps I (put_state st).
Proof. intros H e _. exact H. Qed.

Lemma keeps_mark_session I id t :
  (forall st, I st -> I (Build_SyncState (<[id := t]> (SyncedSessions st)) (SyncedPlans st) (LastSync st))) ->
  Props.keeps I (mark_session id t).
Proof. intros H e He. apply H. exact He. Qed.

Lemma keeps_mark_plan I n t :
  (forall st, I st -> I (Build_SyncState (SyncedSessions st) (<[n := t]> (SyncedPlans st)) (LastSync st))) ->
  Props.keeps I (mark_plan n t).
Proof. intros H e He. apply H. exact He. Qed.

Lemma returns_get_state_any : Props.returns (fun _ => True) get_state.
Proof. apply returns_any. Qed.

End FramePrims.

Create HintDb frame.
#[local] Hint Resolve emits_ret emits_get_state emits_put_state emits_now emits_mark_session
  emits_mark_plan emits_panic emits_fail emits_saveState emits_log_err
  keeps_ret keeps_emit keeps_get_state keeps_now keeps_sleep keeps_call keeps_panic keeps_fail
  keeps_saveState keeps_log_err returns_any : frame.

Lemma In_firstn' {A} (x : A) n l : In x (firstn n l) -> In x l.
Proof. intros H. rewrite <- (firstn_skipn n l). apply in_or_app. auto. Qed.

Lemma In_skipn' {A} (x : A) n l : In x (skipn n l) -> In x l.
Proof. intros H. rewrite <- (firstn_skipn n l). apply in_or_app. auto. Qed.

Lemma incl_go_slice {A} (l : list A) i j : incl (Watcher.go_slice l i j) l.
Proof. intros x H. unfold Watcher.go_slice in H. eapply In_skipn', In_firstn', H. Qed.

Section FrameLoops.
Import Watcher.
Context {T R : Type}.
Variable key : T -> string.
Variable mark : string -> Z -> M unit.
Variable ans : nat -> list T -> string + list R.
Variable ev : list T -> event.
Hypothesis mark_silent : forall P k t, Props.emits P (mark k t).

Lemma emits_mark_acks P b (rs : list R) : Props.emits P (mark_acks key mark b rs).
Proof.
  revert rs. induction b as [|x xs IH]; intros [|r rs]; cbn; auto with frame.
  apply (emits_bind _ (fun _ => True)); auto with frame. intros t _.
  apply (emits_bind _ (fun _ => True)); auto with frame.
Qed.

(** Delivery of one batch calls the collector with that batch and sleeps. *)
Definition batch_event (b : list T) (x : event) : Prop := x = ev b \/ exists n, x = EvSleep n.

Lemma emits_attempts fuel ra a b err :
  Props.emits (batch_event b) (attempts key mark (call ans ev) fuel ra a b err).
Proof.
  revert a err. induction fuel as [|f IH]; intros a err; cbn; [auto with frame|].
  destruct (a <=? ra)%Z; [|auto with frame].
  apply (emits_bind _ (fun _ => True)); [apply emits_call; left; reflexivity | auto with frame|].
  intros [msg|rs] _.
  - apply (emits_bind _ (fun _ => True)); auto with frame.
    apply emits_sleep. right. eauto.
  - apply (emits_bind _ (fun _ => True)); auto using emits_mark_acks with frame.
Qed.

Lemma emits_batches fuel ra i l :
  Props.emits (fun x => (exists b, x = ev b /\ incl b l) \/ exists n, x = EvSleep n)
    (batches key mark (call ans ev) fuel ra i l).
Proof.
  revert i. induction fuel as [|f IH]; intros i; cbn [batches]; [auto with frame|].
  destruct (Nat.ltb i (length l)); [|auto with frame].
  apply (emits_bind _ (fun _ => True)); auto with frame.
  eapply emits_weaken; [|apply emits_attempts].
  intros x [->|Hs]; [left; eexists; split; [reflexivity|apply incl_go_slice] | right; exact Hs].
Qed.

End FrameLoops.

(** ** Plans *)

Lemma bind_get_state {B} (k : Watcher.SyncState -> Watcher.M B) e :
  Watcher.bind Watcher.get_state k e = k (Watcher.e_state e) e.
Proof. reflexivity. Qed.

Lemma parse_plans_run lib w l acc e :
  Watcher.e_trace (fst (Watcher.parse_plans lib w l acc e))
    = (Watcher.e_trace e ++ map Watcher.EvParsePlan l)%list /\
  Watcher.e_state (fst (Watcher.parse_plans lib w l acc e)) = Watcher.e_state e /\
  exists ps, snd (Watcher.parse_plans lib w l acc e) = Watcher.Ok ps.
Proof.
  revert acc e. induction l as [|f fs IH]; intros acc e; cbn.
  - rewrite app_nil_r. eauto.
  - destruct (ParsePlan lib f (Watcher.w_readfile w f) (Watcher.w_stat w f));
      (edestruct IH as (Ht & Hs & Hr); rewrite Ht, Hs; cbn [Watcher.e_trace Watcher.e_state];
       split; [rewrite <- app_assoc; reflexivity|]; eauto).
Qed.

Lemma In_new_plan_files synced stat files f mt :
  stat f = StatOk mt ->
  In f (Watcher.new_plan_files synced stat files) <->
    In f files /\ (synced !! Watcher.planName f = None \/
                   exists last, synced !! Watcher.planName f = Some last /\ (last < mt)%Z).
Proof.
  intros Hs. unfold Watcher.new_plan_files. rewrite filter_In, Hs.
  destruct (synced !! Watcher.planName f) as [last|].
  - rewrite Z.ltb_lt. split.
    + intros [Hi Hl]. split; [exact Hi|]. right. eauto.
    + intros [Hi [Hn|(l' & Hl' & Hlt)]]; [discriminate|]. injection Hl' as <-. auto.
  - split; [intros [Hi _]; auto | intros [Hi _]; auto].
Qed.

Lemma sync_sessions_plans lib w cfg files e :
  Watcher.SyncedPlans (Watcher.e_state (fst (Watcher.sync_sessions lib w cfg files e)))
    = Watcher.SyncedPlans (Watcher.e_state e).
Proof.
  set (P0 := Watcher.SyncedPlans (Watcher.e_state e)).
  assert (H : Props.keeps (fun st => Watcher.SyncedPlans st = P0) (Watcher.sync_sessions lib w cfg files)).
  2: { apply H. reflexivity. }
  unfold Watcher.sync_sessions.
  apply (keeps_bind _ (fun _ => True)); auto with frame. intros st _.
  destruct (Watcher.new_session_files (Watcher.SyncedSessions st) files) as [|f fs]; auto with frame.
  apply (keeps_bind _ (fun _ => True)); auto with frame.
  - generalize (f :: fs) as l. intros l. generalize (@nil Session) as acc.
    induction l as [|x xs IH]; intros acc; cbn; auto with frame.
    apply (keeps_bind _ (fun _ => True)); auto with frame. intros [] _.
    destruct (ParseJSONL lib x (Watcher.w_open w x)) as [[s|] [err|]]; auto.
    destruct (Filter.Apply (Watcher.Sharing cfg) s); auto.
    apply (keeps_bind _ (fun _ => True)); auto with frame. intros t _.
    apply (keeps_bind _ (fun _ => True)); auto with frame.
    apply keeps_mark_session. intros st0 H0. exact H0.
  - intros l _. destruct l as [|x xs]; auto with frame.
    unfold Watcher.upload_sessions, Watcher.upload_all.
    generalize (S (length (x :: xs))) as fuel, 0%nat as i. intros fuel.
    induction fuel as [|n IH]; intros i; cbn [Watcher.batches]; auto with frame.
    destruct (Nat.ltb i (length (x :: xs))); auto with frame.
    apply (keeps_bind _ (fun _ => True)); auto with frame.
    unfold Watcher.deliver_batch.
    generalize (S (Z.to_nat (Watcher.RetryAttempts cfg))) as fuel', 1%Z as a, (@None string) as err.
    intros fuel'. induction fuel' as [|n' IH']; intros a err; cbn [Watcher.attempts]; auto with frame.
    destruct (a <=? Watcher.RetryAttempts cfg)%Z; auto with frame.
    apply (keeps_bind _ (fun _ => True)); auto with frame. intros [msg|rs] _.
    + apply (keeps_bind _ (fun _ => True)); auto with frame.
    + apply (keeps_bind _ (fun _ => True)); auto with frame.
      generalize (Watcher.go_slice (x :: xs) i ((i + Watcher.batchSize) `min` length (x :: xs))) as b.
      intros b. revert rs. induction b as [|y ys IHb]; intros [|r rs]; cbn; auto with frame.
      apply (keeps_bind _ (fun _ => True)); auto with frame. intros t _.
      apply (keeps_bind _ (fun _ => True)); auto with frame.
      apply keeps_mark_session. intros st0 H0. exact H0.
Qed.

Lemma events_of_In_parse_plan_upload w cfg ps e f :
  ~ In (Watcher.EvParsePlan f) (Watcher.events_of e (Watcher.upload_plans w cfg ps e)).
Proof.
  unfold Watcher.upload_plans, Watcher.upload_all.
  destruct (emits_batches plan_Name Watcher.mark_plan (Watcher.w_upload_plans w) Watcher.EvUploadPlans
              (fun P k t => emits_mark_plan P k t) (S (length ps)) (Watcher.RetryAttempts cfg) 0 ps e)
    as (evs & Ht & Hf).
  rewrite (events_of_emits _ _ _ Ht). intros Hi.
  rewrite List.Forall_forall in Hf. destruct (Hf _ Hi) as [(b & Hb & _)|(n & Hn)]; discriminate.
Qed.

Lemma plan_uploads_events w cfg (ps : list Plan) e1 :
  exists evs,
    Watcher.e_trace (fst ((match ps with [] => Watcher.ret tt | _ :: _ => Watcher.upload_plans w cfg ps end) e1))
      = (Watcher.e_trace e1 ++ evs)%list /\
    forall f, ~ In (Watcher.EvParsePlan f) evs.
Proof.
  destruct ps as [|p ps].
  - exists []. rewrite app_nil_r. split; [reflexivity | intros f []].
  - unfold Watcher.upload_plans, Watcher.upload_all.
    destruct (emits_batches plan_Name Watcher.mark_plan (Watcher.w_upload_plans w) Watcher.EvUploadPlans
                (fun P k t => emits_mark_plan P k t) (S (length (p :: ps))) (Watcher.RetryAttempts cfg)
                0 (p :: ps) e1) as (evs & Ht & Hf).
    exists evs. split; [exact Ht|]. intros f Hi.
    rewrite List.Forall_forall in Hf. destruct (Hf _ Hi) as [(b & Hb & _)|(n & Hn)]; discriminate.
Qed.

(** C6: in the plan step of a pass (the plans directory exists), a plan
    file found below it whose modification time is [mt] is parsed for
    delivery exactly when its name is not in the plan map, or is recorded
    there with a time strictly before [mt]; and the session part of the
    pass, which runs before, leaves the plan map unchanged. *)
Theorem plan_candidates (lib : GoLib) (w : Watcher.World) (cfg : Watcher.Config)
  (e : Watcher.Env) (f : string) (mt : Z) :
  Watcher.w_stat w (PathJoin (Watcher.w_logsPath w) "plans") <> StatNotExist ->
  In f (fst (Walk.findPlans (PathJoin (Watcher.w_logsPath w) "plans")
                             (Watcher.w_tree w (PathJoin (Watcher.w_logsPath w) "plans")))) ->
  Watcher.w_stat w f = StatOk mt ->
  (In (Watcher.EvParsePlan f) (Watcher.events_of e (Watcher.syncPlans lib w cfg e)) <->
     Watcher.SyncedPlans (Watcher.e_state e) !! Watcher.planName f = None \/
     exists last, Watcher.SyncedPlans (Watcher.e_state e) !! Watcher.planName f = Some last /\
                  (last < mt)%Z) /\
  (forall files e0,
     Watcher.SyncedPlans (Watcher.e_state (fst (Watcher.sync_sessions lib w cfg files e0)))
       = Watcher.SyncedPlans (Watcher.e_state e0)).
Proof.
  intros Hdir Hf Hst. split; [|apply sync_sessions_plans].
  rewrite findPlans_spec in Hf. cbn [fst] in Hf.
  set (files := match Watcher.w_tree w (PathJoin (Watcher.w_logsPath w) "plans") with
                | Some d => Props.tree_files ".md" (PathJoin (Watcher.w_logsPath w) "plans") d
                | None => []
                end) in Hf.
  set (synced := Watcher.SyncedPlans (Watcher.e_state e)).
  match goal with |- _ <-> ?R =>
    assert (Hc : In f (Watcher.new_plan_files synced (Watcher.w_stat w) files) <-> R)
      by (rewrite (In_new_plan_files synced (Watcher.w_stat w) files f mt Hst); tauto)
  end.
  unfold Watcher.syncPlans.
  destruct (Watcher.w_stat w (PathJoin (Watcher.w_logsPath w) "plans")); [| contradiction |];
  rewrite findPlans_spec; fold files; cbn [fst snd];
  rewrite bind_get_state; fold synced.
  all: destruct (Watcher.new_plan_files synced (Watcher.w_stat w) files) as [|g gs] eqn:Hn;
    [ rewrite (events_of_emits e _ []) by (symmetry; apply app_nil_r); cbn;
      split; [intros []| intros HR; apply Hc; auto]
    | ].
  all: unfold Watcher.bind;
    destruct (parse_plans_run lib w (g :: gs) [] e) as (Ht & _ & ps & Hr);
    destruct (Watcher.parse_plans lib w (g :: gs) [] e) as [e1 r1]; cbn [fst snd] in Ht, Hr; subst r1;
    destruct (plan_uploads_events w cfg ps e1) as (evs & Ht2 & Hno);
    rewrite (events_of_emits e _ (map Watcher.EvParsePlan (g :: gs) ++ evs)%list)
      by (rewrite Ht2, Ht, app_assoc; reflexivity);
    rewrite in_app_iff, in_map_iff, <- Hc;
    split; [ intros [(x & Hx & Hi)|Hi]; [injection Hx as ->; exact Hi | exfalso; exact (Hno f Hi)]
           | intros Hi; left; exists f; auto ].
Qed.

Lemma plan_candidates_witness :
  Watcher.w_stat (Samples.world_plans 5000) "/root/.claude/plans" <> StatNotExist /\
  In "/root/.claude/plans/plan.md"
     (fst (Walk.findPlans "/root/.claude/plans"
             (Watcher.w_tree (Samples.world_plans 5000) "/root/.claude/plans"))) /\
  Watcher.w_stat (Samples.world_plans 5000) "/root/.claude/plans/plan.md" = StatOk 5000 /\
  (In (Watcher.EvParsePlan "/root/.claude/plans/plan.md")
      (Watcher.events_of (Samples.env_plan 4000)
         (Watcher.syncPlans ascii_lib (Samples.world_plans 5000) (Samples.config "metadata" 3)
            (Samples.env_plan 4000))) <->
   Watcher.SyncedPlans (Watcher.e_state (Samples.env_plan 4000))
     !! Watcher.planName "/root/.claude/plans/plan.md" = None \/
   exists last, Watcher.SyncedPlans (Watcher.e_state (Samples.env_plan 4000))
                  !! Watcher.planName "/root/.claude/plans/plan.md" = Some last /\ (last < 5000)%Z).
Proof.
  split; [vm_compute; discriminate|]. split; [vm_compute; left; reflexivity|].
  split; [vm_compute; reflexivity|].
  refine (proj1 (plan_candidates ascii_lib (Samples.world_plans 5000) (Samples.config "metadata" 3)
                   (Samples.env_plan 4000) "/root/.claude/plans/plan.md" 5000 _ _ _)).
  - vm_compute. discriminate.
  - vm_compute. left. reflexivity.
  - vm_compute. reflexivity.
Defined.

(** ** Batches *)

Lemma chunks_fuel_enough {T} n (l : list T) f f' :
  0 < n -> length l <= f -> length l <= f' -> Props.chunks_fuel f n l = Props.chunks_fuel f' n l.
Proof.
  intros Hn. revert l f'. induction f as [|f IH]; intros l f' H1 H2.
  - destruct l; [destruct f'; reflexivity | cbn in H1; lia].
  - destruct l as [|x xs]; [destruct f'; reflexivity|].
    destruct f' as [|f']; [cbn in H2; lia|]. cbn [Props.chunks_fuel]. f_equal.
    apply IH; rewrite length_skipn; cbn in *; lia.
Qed.

Lemma chunks_nil {T} n : Props.chunks (T := T) n [] = [].
Proof. reflexivity. Qed.

Lemma chunks_cons {T} n (l : list T) :
  0 < n -> l <> [] -> Props.chunks n l = firstn n l :: Props.chunks n (skipn n l).
Proof.
  intros Hn Hl. unfold Props.chunks. destruct l as [|x xs]; [congruence|].
  cbn [length Props.chunks_fuel]. f_equal.
  apply chunks_fuel_enough; [exact Hn | rewrite length_skipn; cbn; lia | lia].
Qed.

Lemma chunks_ind {T} n (P : list T -> Prop) :
  0 < n -> P [] -> (forall l, l <> [] -> P (skipn n l) -> P l) -> forall l, P l.
Proof.
  intros Hn H0 HS l. remember (length l) as k eqn:Hk.
  revert l Hk. induction k as [k IH] using lt_wf_ind. intros l Hk.
  destruct l as [|x xs]; [exact H0|]. apply HS; [discriminate|].
  apply (IH (length (skipn n (x :: xs)))); [|reflexivity].
  rewrite length_skipn. cbn in *. lia.
Qed.

Lemma concat_chunks {T} (l : list T) : concat (Props.chunks 10 l) = l.
Proof.
  revert l. apply (chunks_ind 10); [lia|reflexivity|]. intros l Hl IH.
  rewrite chunks_cons by (lia || exact Hl). cbn [concat]. rewrite IH. apply firstn_skipn.
Qed.

Lemma length_chunks {T} (l : list T) : length (Props.chunks 10 l) = (length l + 9) / 10.
Proof.
  revert l. apply (chunks_ind 10); [lia|reflexivity|]. intros l Hl IH.
  rewrite chunks_cons by (lia || exact Hl). cbn [length]. rewrite IH, length_skipn.
  destruct l as [|x xs]; [congruence|]. cbn [length].
  destruct (Nat.le_gt_cases (S (length xs)) 10).
  - replace (S (length xs) - 10) with 0 by lia. change ((0 + 9) / 10) with 0.
    apply Nat.div_unique with (r := S (length xs) + 9 - 10); lia.
  - replace ((S (length xs) + 9) / 10) with (S ((S (length xs) - 10 + 9) / 10)); [reflexivity|].
    replace (S (length xs) + 9) with (1 * 10 + (S (length xs) - 10 + 9)) by lia.
    rewrite Nat.div_add_l by lia. lia.
Qed.

Lemma chunks_sizes {T} (l : list T) :
  (forall c, In c (Props.chunks 10 l) -> 0 < length c <= 10) /\
  (forall k, S k < length (Props.chunks 10 l) -> length (nth k (Props.chunks 10 l) []) = 10).
Proof.
  revert l. apply (chunks_ind 10); [lia|split; cbn; [tauto|lia]|]. intros l Hl [IH1 IH2].
  rewrite chunks_cons by (lia || exact Hl). split.
  - intros c [<-|Hc]; [|auto]. rewrite length_firstn.
    destruct l; [congruence|]. cbn [length]. lia.
  - intros [|k] Hk; cbn [nth length] in Hk |- *.
    + rewrite length_firstn. destruct (Props.chunks 10 (skipn 10 l)) as [|c cs] eqn:E; [cbn in Hk; lia|].
      assert (Hne : skipn 10 l <> []) by (intros Hs; rewrite Hs in E; discriminate).
      assert (10 <= length l); [|lia].
      destruct (Nat.le_gt_cases 10 (length l)) as [|Hlt]; [assumption|].
      exfalso. apply Hne. apply skipn_all2. lia.
    + apply IH2. lia.
Qed.

Lemma go_slice_batch {T} (l : list T) i :
  Watcher.go_slice l i (Nat.min (i + Watcher.batchSize) (length l)) = firstn 10 (skipn i l).
Proof.
  unfold Watcher.go_slice, Watcher.batchSize.
  destruct (Nat.le_gt_cases (i + 10) (length l)).
  - rewrite Nat.min_l by lia. f_equal. lia.
  - rewrite Nat.min_r by lia.
    rewrite !firstn_all2; [reflexivity | rewrite length_skipn; lia | rewrite length_skipn; lia].
Qed.

Lemma batches_chunks {T R} key mark (upload : list T -> Watcher.M (string + list R)) ra fuel i l e :
  length l - i < fuel ->
  Watcher.batches key mark upload fuel ra i l e
    = Props.deliver_each key mark upload ra (Props.chunks 10 (skipn i l)) e.
Proof.
  revert i e. induction fuel as [|f IH]; intros i e Hf; [lia|].
  cbn [Watcher.batches]. destruct (Nat.ltb_spec i (length l)) as [Hi|Hi].
  - rewrite go_slice_batch, chunks_cons; [| lia |].
    + cbn [Props.deliver_each]. unfold Watcher.bind.
      destruct (Watcher.deliver_batch key mark upload ra (firstn 10 (skipn i l)) e)
        as [e' [a|msg|msg]]; [|reflexivity|reflexivity].
      unfold Watcher.batchSize. rewrite IH by lia.
      rewrite skipn_skipn. replace (10 + i) with (i + 10) by lia. reflexivity.
    + intros Hs. apply (f_equal (@length T)) in Hs. rewrite length_skipn in Hs. cbn in Hs. lia.
  - replace (skipn i l) with (@nil T) by (symmetry; apply skipn_all2; lia). reflexivity.
Qed.

Lemma upload_all_chunks {T R} key mark (upload : list T -> Watcher.M (string + list R)) ra l e :
  Watcher.upload_all key mark upload ra l e
    = Props.deliver_each key mark upload ra (Props.chunks 10 l) e.
Proof. unfold Watcher.upload_all. rewrite batches_chunks by lia. reflexivity. Qed.

Lemma bind_call {T R B} (ans : nat -> list T -> string + list R) ev b (k : _ -> Watcher.M B) e :
  Watcher.bind (Watcher.call ans ev b) k e
    = k (ans (Watcher.e_calls e) b)
        (Watcher.Build_Env (Watcher.e_state e) (Watcher.e_clock e) (S (Watcher.e_calls e))
           (Watcher.e_trace e ++ [ev b])%list (Watcher.e_saved e)).
Proof. reflexivity. Qed.

Lemma bind_sleep {B} n (k : unit -> Watcher.M B) e :
  Watcher.bind (Watcher.sleep n) k e
    = k tt (Watcher.Build_Env (Watcher.e_state e) (Watcher.e_clock e + n * 1000000000)%Z
              (Watcher.e_calls e) (Watcher.e_trace e ++ [Watcher.EvSleep n])%list (Watcher.e_saved e)).
Proof. reflexivity. Qed.

Section Deliver.
Variable ans : nat -> list Session -> string + list Watcher.SessionResponse.

Let deliver := Watcher.deliver_batch ID Watcher.mark_session (Watcher.call ans Watcher.EvUpload).

Lemma mark_acks_ok b (rs : list Watcher.SessionResponse) e :
  length rs <= length b ->
  Watcher.e_trace (fst (Watcher.mark_acks ID Watcher.mark_session b rs e)) = Watcher.e_trace e /\
  Watcher.e_calls (fst (Watcher.mark_acks ID Watcher.mark_session b rs e)) = Watcher.e_calls e /\
  snd (Watcher.mark_acks ID Watcher.mark_session b rs e) = Watcher.Ok tt.
Proof.
  revert rs e. induction b as [|x xs IH]; intros [|r rs] e Hl; cbn in Hl; try lia; try (cbn; auto; fail).
  cbn [Watcher.mark_acks Watcher.bind Watcher.now Watcher.mark_session Watcher.get_state
       Watcher.put_state fst snd].
  match goal with |- context [Watcher.mark_acks _ _ xs rs ?e'] =>
    destruct (IH rs e') as (H1 & H2 & H3); [lia|] end.
  rewrite H1, H2, H3. auto.
Qed.

Lemma attempts_fail b :
  (forall n, exists m, ans n b = inl m) ->
  forall fuel ra a err e, Z.to_nat (ra - a + 1) < fuel ->
  let r := Watcher.attempts ID Watcher.mark_session (Watcher.call ans Watcher.EvUpload) fuel ra a b err e in
  Watcher.e_trace (fst r) = (Watcher.e_trace e ++ Props.fail_events Watcher.EvUpload b a (Z.to_nat (ra - a + 1)))%list /\
  Watcher.e_calls (fst r) = Watcher.e_calls e + Z.to_nat (ra - a + 1) /\
  Watcher.e_state (fst r) = Watcher.e_state e /\
  exists err', snd r = Watcher.Ok err'.
Proof.
  intros Hb fuel. induction fuel as [|f IH]; intros ra a err e Hf; [lia|].
  cbn [Watcher.attempts]. destruct (Z.leb_spec a ra) as [Ha|Ha].
  - destruct (Hb (Watcher.e_calls e)) as [m Hm].
    rewrite bind_call, Hm, bind_sleep.
    replace (Z.to_nat (ra - a + 1)) with (S (Z.to_nat (ra - (a + 1) + 1))) by lia.
    match goal with |- context [Watcher.attempts _ _ _ f ra (a + 1) b (Some m) ?e'] =>
      destruct (IH ra (a + 1)%Z (Some m) e') as (Ht & Hc & Hs & Hr); [lia|] end.
    cbn [Watcher.e_calls Watcher.e_clock Watcher.e_saved Watcher.e_state Watcher.e_trace] in *.
    split; [|split; [|split]].
    + rewrite Ht. cbn [Watcher.e_trace Props.fail_events]. rewrite <- !app_assoc. reflexivity.
    + rewrite Hc. cbn [Watcher.e_calls]. lia.
    + rewrite Hs. reflexivity.
    + exact Hr.
  - replace (Z.to_nat (ra - a + 1)) with 0 by lia. cbn. rewrite app_nil_r. eauto.
Qed.

Lemma deliver_fail b ra e :
  (forall n, exists m, ans n b = inl m) ->
  Watcher.e_trace (fst (deliver ra b e))
    = (Watcher.e_trace e ++ Props.fail_events Watcher.EvUpload b 1 (Z.to_nat ra))%list /\
  Watcher.e_calls (fst (deliver ra b e)) = Watcher.e_calls e + Z.to_nat ra /\
  Watcher.e_state (fst (deliver ra b e)) = Watcher.e_state e /\
  exists err, snd (deliver ra b e) = Watcher.Ok err.
Proof.
  intros Hb. unfold deliver, Watcher.deliver_batch.
  replace (Z.to_nat ra) with (Z.to_nat (ra - 1 + 1)) by lia.
  apply attempts_fail; [exact Hb | lia].
Qed.

Lemma deliver_ok b ra e rs :
  (1 <= ra)%Z -> ans (Watcher.e_calls e) b = inr rs -> length rs <= length b ->
  Watcher.e_trace (fst (deliver ra b e)) = (Watcher.e_trace e ++ [Watcher.EvUpload b])%list /\
  Watcher.e_calls (fst (deliver ra b e)) = S (Watcher.e_calls e) /\
  snd (deliver ra b e) = Watcher.Ok None.
Proof.
  intros Hra Hans Hl. unfold deliver, Watcher.deliver_batch.
  replace (Z.to_nat ra) with (S (Z.to_nat (ra - 1))) by lia.
  cbn [Watcher.attempts]. replace (1 <=? ra)%Z with true by lia.
  rewrite bind_call, Hans. cbv beta iota. unfold Watcher.bind.
  match goal with |- context [Watcher.mark_acks _ _ b rs ?e'] =>
    destruct (mark_acks_ok b rs e') as (Ht & Hc & Hr); [exact Hl|];
    destruct (Watcher.mark_acks ID Watcher.mark_session b rs e') as [e1 o] end.
  cbn [fst snd] in Ht, Hc, Hr. subst o. cbn [fst snd Watcher.ret]. rewrite Ht, Hc. auto.
Qed.

Let each := Props.deliver_each ID Watcher.mark_session (Watcher.call ans Watcher.EvUpload).

Lemma deliver_each_fail ra cs e :
  (forall n b, exists m, ans n b = inl m) ->
  Watcher.e_trace (fst (each ra cs e))
    = (Watcher.e_trace e ++ flat_map (fun c => Props.fail_events Watcher.EvUpload c 1 (Z.to_nat ra)) cs)%list /\
  Watcher.e_calls (fst (each ra cs e)) = Watcher.e_calls e + length cs * Z.to_nat ra /\
  Watcher.e_state (fst (each ra cs e)) = Watcher.e_state e /\
  snd (each ra cs e) = Watcher.Ok tt.
Proof.
  intros Hans. revert e. induction cs as [|c cs IH]; intros e.
  - cbn. rewrite app_nil_r. auto.
  - unfold each. cbn [Props.deliver_each]. unfold Watcher.bind.
    destruct (deliver_fail c ra e (fun n => Hans n c)) as (Ht & Hc & Hs & err & Hr).
    unfold deliver in Ht, Hc, Hs, Hr.
    destruct (Watcher.deliver_batch _ _ _ ra c e) as [e1 o]. cbn [fst snd] in *. subst o.
    fold each. destruct (IH e1) as (Ht' & Hc' & Hs' & Hr').
    rewrite Ht', Hc', Hs', Hr', Ht, Hc, Hs. cbn [flat_map length].
    rewrite <- app_assoc. repeat split. lia.
Qed.

Lemma deliver_each_ok ra cs e :
  (1 <= ra)%Z ->
  (forall n b, exists rs, ans n b = inr rs /\ length rs <= length b) ->
  Watcher.e_trace (fst (each ra cs e)) = (Watcher.e_trace e ++ map Watcher.EvUpload cs)%list /\
  Watcher.e_calls (fst (each ra cs e)) = Watcher.e_calls e + length cs /\
  snd (each ra cs e) = Watcher.Ok tt.
Proof.
  intros Hra Hans. revert e. induction cs as [|c cs IH]; intros e.
  - cbn. rewrite app_nil_r. auto.
  - unfold each. cbn [Props.deliver_each]. unfold Watcher.bind.
    destruct (Hans (Watcher.e_calls e) c) as (rs & Hrs & Hl).
    destruct (deliver_ok c ra e rs Hra Hrs Hl) as (Ht & Hc & Hr).
    unfold deliver in Ht, Hc, Hr.
    destruct (Watcher.deliver_batch _ _ _ ra c e) as [e1 o]. cbn [fst snd] in *. subst o.
    fold each. destruct (IH e1) as (Ht' & Hc' & Hr').
    rewrite Ht', Hc', Hr', Ht, Hc. cbn [map length].
    rewrite <- app_assoc. repeat split. lia.
Qed.

End Deliver.

Lemma chunks_23 {T} (l : list T) : length l = 23 -> map (@length T) (Props.chunks 10 l) = [10; 10; 3].
Proof.
  intros H. do 23 (destruct l as [|? l]; [cbn in H; discriminate|]).
  destruct l; [reflexivity | cbn in H; discriminate].
Qed.

(** C4: a batch whose every delivery call fails gets exactly
    max(retry_attempts, 0) calls, each followed by a sleep of
    attempt_number * 2 seconds (also after the last one), and SyncState is
    left as it was. With a collector that always fails, the delivery
    events of the pass are these call/sleep runs, one run per batch in
    order: no batch is sent again within the pass. *)
Theorem delivery_retry_exhaustion w cfg b toUpload e :
  ((forall n, exists m, Watcher.w_upload w n b = inl m) ->
   let r := Watcher.deliver_batch ID Watcher.mark_session
              (Watcher.call (Watcher.w_upload w) Watcher.EvUpload) (Watcher.RetryAttempts cfg) b e in
   Watcher.e_trace (fst r)
     = (Watcher.e_trace e
        ++ Props.fail_events Watcher.EvUpload b 1 (Z.to_nat (Watcher.RetryAttempts cfg)))%list /\
   Watcher.e_calls (fst r) = Watcher.e_calls e + Z.to_nat (Watcher.RetryAttempts cfg) /\
   Watcher.e_state (fst r) = Watcher.e_state e) /\
  ((forall n b', exists m, Watcher.w_upload w n b' = inl m) ->
   let r := Watcher.upload_sessions w cfg toUpload e in
   Watcher.events_of e r
     = flat_map (fun c => Props.fail_events Watcher.EvUpload c 1 (Z.to_nat (Watcher.RetryAttempts cfg)))
         (Props.chunks 10 toUpload) /\
   Watcher.e_calls (fst r)
     = Watcher.e_calls e + length (Props.chunks 10 toUpload) * Z.to_nat (Watcher.RetryAttempts cfg) /\
   Watcher.e_state (fst r) = Watcher.e_state e /\
   snd r = Watcher.Ok tt).
Proof.
  split.
  - intros Hb. cbv zeta.
    destruct (deliver_fail (Watcher.w_upload w) b (Watcher.RetryAttempts cfg) e Hb) as (Ht & Hc & Hs & _).
    auto.
  - intros Hall. cbv zeta. unfold Watcher.upload_sessions. rewrite upload_all_chunks.
    destruct (deliver_each_fail (Watcher.w_upload w) (Watcher.RetryAttempts cfg)
                (Props.chunks 10 toUpload) e Hall) as (Ht & Hc & Hs & Hr).
    split; [apply events_of_emits; exact Ht | auto].
Qed.

Lemma delivery_retry_exhaustion_witness :
  Watcher.e_calls (fst (Watcher.deliver_batch ID Watcher.mark_session
                          (Watcher.call (Watcher.w_upload (Samples.world [] Samples.always_fail true))
                             Watcher.EvUpload)
                          (Watcher.RetryAttempts (Samples.config "full" 3)) [Samples.session]
                          (Samples.env0 ∅))) = 3 /\
  Watcher.events_of (Samples.env0 ∅)
    (Watcher.upload_sessions (Samples.world [] Samples.always_fail true) (Samples.config "full" 3)
       [Samples.session; Samples.session] (Samples.env0 ∅))
    = [Watcher.EvUpload [Samples.session; Samples.session]; Watcher.EvSleep 2;
       Watcher.EvUpload [Samples.session; Samples.session]; Watcher.EvSleep 4;
       Watcher.EvUpload [Samples.session; Samples.session]; Watcher.EvSleep 6].
Proof.
  destruct (delivery_retry_exhaustion (Samples.world [] Samples.always_fail true) (Samples.config "full" 3)
              [Samples.session] [Samples.session; Samples.session] (Samples.env0 ∅)) as [HA HB].
  split.
  - destruct HA as (_ & Hc & _); [intros n; eexists; reflexivity|]. rewrite Hc. reflexivity.
  - destruct HB as (Hev & _); [intros n b'; eexists; reflexivity|]. rewrite Hev. reflexivity.
Defined.

(** Counterexample to C4: with retry_attempts = -1 (accepted by
    [Validate]) a pass whose collector always fails makes no delivery call
    at all for the batch holding the new session, not -1 calls. *)
Lemma sync_negative_retries :
  let w := Samples.world [("s0.jsonl", Samples.turn)] Samples.always_fail true in
  let cfg := Samples.config "full" (-1) in
  let e := Samples.env0 ∅ in
  Watcher.RetryAttempts cfg = (-1)%Z /\
  In (Watcher.EvParse "/root/.claude/projects/-home-bob-proj/s0.jsonl")
     (Watcher.events_of e (Watcher.sync ascii_lib w cfg e)) /\
  Props.uploads (Watcher.events_of e (Watcher.sync ascii_lib w cfg e)) = [].
Proof. vm_compute. split; [reflexivity | split; [left; reflexivity | reflexivity]]. Qed.

(** C7: when the collector acknowledges every batch at its first attempt
    (retry_attempts >= 1, never more responses than sessions in the
    batch), delivering n sessions sends the consecutive pieces of 10 of
    the list, in order, one call each: ceil(n/10) calls; every piece but
    the last holds 10 sessions, the last one between 1 and 10, and 23
    sessions are sent as pieces of 10, 10 and 3. *)
Theorem upload_batches w cfg toUpload e :
  (1 <= Watcher.RetryAttempts cfg)%Z ->
  (forall n b, exists rs, Watcher.w_upload w n b = inr rs /\ length rs <= length b) ->
  let r := Watcher.upload_sessions w cfg toUpload e in
  Watcher.events_of e r = map Watcher.EvUpload (Props.chunks 10 toUpload) /\
  Watcher.e_calls (fst r) = Watcher.e_calls e + (length toUpload + 9) / 10 /\
  concat (Props.chunks 10 toUpload) = toUpload /\
  (forall c, In c (Props.chunks 10 toUpload) -> 0 < length c <= 10) /\
  (forall k, S k < length (Props.chunks 10 toUpload) ->
             length (nth k (Props.chunks 10 toUpload) []) = 10) /\
  (length toUpload = 23 -> map (@length Session) (Props.chunks 10 toUpload) = [10; 10; 3]).
Proof.
  intros Hra Hans. cbv zeta. unfold Watcher.upload_sessions. rewrite upload_all_chunks.
  destruct (deliver_each_ok (Watcher.w_upload w) (Watcher.RetryAttempts cfg)
              (Props.chunks 10 toUpload) e Hra Hans) as (Ht & Hc & _).
  destruct (chunks_sizes toUpload) as [H1 H2].
  split; [apply events_of_emits; exact Ht|].
  split; [rewrite Hc, length_chunks; reflexivity|].
  split; [apply concat_chunks|].
  split; [exact H1|]. split; [exact H2|]. apply chunks_23.
Qed.

Lemma upload_batches_witness :
  map (@length Session)
    (Props.uploads (Watcher.events_of (Samples.env0 ∅)
       (Watcher.upload_sessions (Samples.world [] Samples.ack_all true) (Samples.config "full" 3)
          (repeat Samples.session 23) (Samples.env0 ∅))))
    = [10; 10; 3].
Proof.
  destruct (upload_batches (Samples.world [] Samples.ack_all true) (Samples.config "full" 3)
              (repeat Samples.session 23) (Samples.env0 ∅)) as (Hev & _ & _ & _ & _ & H23).
  - vm_compute. intros H. discriminate.
  - intros n b. eexists. split; [reflexivity|]. unfold Samples.ack_all. rewrite length_map. lia.
  - rewrite Hev. rewrite <- H23 by reflexivity. unfold Props.uploads.
    generalize (Props.chunks 10 (repeat Samples.session 23)). intros cs.
    induction cs as [|c cs IH]; [reflexivity|]. cbn. rewrite IH. reflexivity.
Defined.

(** Counterexample to C7: with a collector that always fails and
    retry_attempts = 3, a pass over 23 new sessions makes 9 delivery calls,
    not ceil(23/10) = 3: each batch of 10, 10 and 3 is sent three times. *)
Lemma sync_23_failing :
  let w := Samples.world (Samples.session_files 23) Samples.always_fail true in
  let cfg := Samples.config "full" 3 in
  let e := Samples.env0 ∅ in
  map (@length Session) (Props.uploads (Watcher.events_of e (Watcher.sync ascii_lib w cfg e)))
    = [10; 10; 10; 10; 10; 10; 3; 3; 3].
Proof. vm_compute. reflexivity. Qed.

(** ** Sessions of a pass *)

Lemma parse_line_ID lib st l : ID (ps_session (parse_line lib st l)) = ID (ps_session st).
Proof.
  unfold parse_line. destruct (is_empty l); [reflexivity|].
  destruct (unmarshal_entry l) as [e|]; [|reflexivity].
  repeat match goal with |- context [match ?p with pair _ _ => _ end] => destruct p end.
  destruct (String.eqb (re_Type e) "user" || String.eqb (re_Type e) "assistant"); reflexivity.
Qed.

Lemma fold_parse_line_ID lib ls st :
  ID (ps_session (fold_left (parse_line lib) ls st)) = ID (ps_session st).
Proof.
  revert st. induction ls as [|l ls IH]; intros st; cbn; [reflexivity|].
  rewrite IH. apply parse_line_ID.
Qed.

Lemma ParseJSONL_ID lib g o s err :
  ParseJSONL lib g o = (Some s, err) -> ID s = Watcher.sessionID g.
Proof.
  destruct o as [fd|]; [|discriminate]. unfold ParseJSONL.
  destruct (project_of g) as [ppath pname]. destruct (scan_lines fd) as [lines e0].
  intros H. injection H as <- _. cbn. rewrite fold_parse_line_ID. reflexivity.
Qed.

Lemma Apply_ID c s s' : Filter.Apply c s = Some s' -> ID s' = ID s.
Proof.
  unfold Filter.Apply. destruct (Filter.isExcluded c (ProjectPath s)); [discriminate|].
  destruct (String.eqb (Filter.Level c) "none"); [discriminate|].
  destruct (String.eqb (Filter.Level c) "metadata");
    [|destruct (String.eqb (Filter.Level c) "full")]; intros H; injection H as <-; reflexivity.
Qed.

Lemma Apply_Some_not_excluded c s s' :
  Filter.Apply c s = Some s' -> Filter.isExcluded c (ProjectPath s) = false.
Proof. unfold Filter.Apply. destruct (Filter.isExcluded c (ProjectPath s)); [discriminate|reflexivity]. Qed.

Lemma returns_weaken {A} (Q Q' : A -> Prop) (m : Watcher.M A) :
  (forall a, Q a -> Q' a) -> Props.returns Q m -> Props.returns Q' m.
Proof. intros HQ Hm e a H. apply HQ. exact (Hm e a H). Qed.

Lemma emits_parse_filter P lib w sh l acc :
  (forall g, In g l -> P (Watcher.EvParse g)) -> Props.emits P (Watcher.parse_filter lib w sh l acc).
Proof.
  revert acc. induction l as [|f fs IH]; intros acc HP; cbn [Watcher.parse_filter]; [auto with frame|].
  assert (IH' : forall acc, Props.emits P (Watcher.parse_filter lib w sh fs acc))
    by (intros; apply IH; intros g Hg; apply HP; right; exact Hg).
  apply (emits_bind _ (fun _ => True)); auto with frame.
  - apply emits_emit. apply HP. left. reflexivity.
  - intros [] _. destruct (ParseJSONL lib f (Watcher.w_open w f)) as [[s|] [err|]]; auto.
    destruct (Filter.Apply sh s); auto.
    apply (emits_bind _ (fun _ => True)); auto with frame. intros t _.
    apply (emits_bind _ (fun _ => True)); auto with frame.
Qed.

Lemma returns_parse_filter lib w sh l acc :
  Props.returns
    (fun out => forall x, In x out -> In x acc \/
       exists g s, In g l /\ ParseJSONL lib g (Watcher.w_open w g) = (Some s, None) /\
                   Filter.Apply sh s = Some x)
    (Watcher.parse_filter lib w sh l acc).
Proof.
  revert acc. induction l as [|f fs IH]; intros acc; cbn [Watcher.parse_filter].
  - apply returns_ret. intros x Hx. left. exact Hx.
  - apply (returns_bind (fun _ => True)); [apply returns_any|]. intros [] _.
    destruct (ParseJSONL lib f (Watcher.w_open w f)) as [[s|] [err|]] eqn:Hp.
    2: destruct (Filter.Apply sh s) as [s'|] eqn:Ha.
    all: try (eapply returns_weaken; [|apply IH];
              intros out H x Hx; destruct (H x Hx) as [Hi|(g & s0 & Hg & Hs & Ha')];
              [left; exact Hi | right; exists g, s0; split; [right; exact Hg | auto]]).
    + eapply returns_weaken; [|apply IH].
      intros out H x Hx. destruct (H x Hx) as [Hi|(g & s0 & Hg & Hs & Ha')].
      * apply in_app_iff in Hi. destruct Hi as [Hi|[<-|[]]]; [left; exact Hi|].
        right. exists f, s. split; [left; reflexivity | auto].
      * right. exists g, s0. split; [right; exact Hg | auto].
    + apply (returns_bind (fun _ => True)); [apply returns_any|]. intros t _.
      apply (returns_bind (fun _ => True)); [apply returns_any|]. intros [] _.
      eapply returns_weaken; [|apply IH].
      intros out H x Hx. destruct (H x Hx) as [Hi|(g & s0 & Hg & Hs & Ha')]; [left; exact Hi|].
      right. exists g, s0. split; [right; exact Hg | auto].
Qed.

Lemma emits_bind_at {A B} P (m : Watcher.M A) (k : A -> Watcher.M B) e evs1 :
  Watcher.e_trace (fst (m e)) = (Watcher.e_trace e ++ evs1)%list -> Forall P evs1 ->
  (forall a, Props.emits P (k a)) ->
  exists evs, Watcher.e_trace (fst (Watcher.bind m k e)) = (Watcher.e_trace e ++ evs)%list /\ Forall P evs.
Proof.
  intros Ht Hf Hk. unfold Watcher.bind.
  destruct (m e) as [e1 [a|msg|msg]]; cbn [fst] in *; [|eauto|eauto].
  destruct (Hk a e1) as (evs2 & Ht2 & Hf2). exists (evs1 ++ evs2)%list.
  rewrite Ht2, Ht, app_assoc. split; [reflexivity|]. apply Forall_app. auto.
Qed.

Lemma emits_parse_plans P lib w l acc :
  (forall g, P (Watcher.EvParsePlan g)) -> Props.emits P (Watcher.parse_plans lib w l acc).
Proof.
  intros HP e. destruct (parse_plans_run lib w l acc e) as (Ht & _ & _).
  exists (map Watcher.EvParsePlan l). split; [exact Ht|].
  apply List.Forall_forall. intros x Hx. apply in_map_iff in Hx. destruct Hx as (g & <- & _). apply HP.
Qed.

Lemma emits_syncPlans P lib w cfg :
  (forall g, P (Watcher.EvParsePlan g)) -> (forall b, P (Watcher.EvUploadPlans b)) ->
  (forall n, P (Watcher.EvSleep n)) -> Props.emits P (Watcher.syncPlans lib w cfg).
Proof.
  intros H1 H2 H3. unfold Watcher.syncPlans.
  destruct (Watcher.w_stat w (PathJoin (Watcher.w_logsPath w) "plans")); auto with frame.
  all: rewrite findPlans_spec; cbn [fst snd].
  all: apply (emits_bind _ (fun _ => True)); auto with frame; intros st _.
  all: destruct (Watcher.new_plan_files (Watcher.SyncedPlans st) (Watcher.w_stat w) _) as [|g gs];
    auto with frame.
  all: apply (emits_bind _ (fun _ => True)); auto using emits_parse_plans with frame.
  all: intros [|p ps] _; auto with frame.
  all: unfold Watcher.upload_plans, Watcher.upload_all.
  all: eapply emits_weaken; [|apply (emits_batches plan_Name Watcher.mark_plan (Watcher.w_upload_plans w)
                                      Watcher.EvUploadPlans (fun P k t => emits_mark_plan P k t))].
  all: intros x [(b & -> & _)|(n & ->)]; auto.
Qed.

Lemma emits_session_part lib w cfg newFiles :
  Props.emits (Props.pass_event lib w (Watcher.Sharing cfg) newFiles)
    (match newFiles with
     | [] => Watcher.ret tt
     | g :: gs =>
         Watcher.bind (Watcher.parse_filter lib w (Watcher.Sharing cfg) (g :: gs) [])
           (fun toUpload => match toUpload with
                            | [] => Watcher.ret tt
                            | _ :: _ => Watcher.upload_sessions w cfg toUpload
                            end)
     end).
Proof.
  destruct newFiles as [|f fs]; auto with frame.
  apply (emits_bind _ _ _ _ (emits_parse_filter _ _ _ _ _ _ (fun g Hg => Hg))
           (returns_parse_filter lib w (Watcher.Sharing cfg) (f :: fs) [])).
  intros [|x xs] Hq; auto with frame.
  unfold Watcher.upload_sessions, Watcher.upload_all.
  eapply emits_weaken; [|apply (emits_batches ID Watcher.mark_session (Watcher.w_upload w)
                                  Watcher.EvUpload (fun P k t => emits_mark_session P k t))].
  intros ev [(b & -> & Hb)|(n & ->)]; cbn; [|exact I].
  intros s' Hs'. destruct (Hq s' (Hb s' Hs')) as [[]|H]. exact H.
Qed.

(** The events of a pass, against the candidate files computed from the
    session map at its start. *)
Lemma sync_events lib w cfg e :
  Forall (Props.pass_event lib w (Watcher.Sharing cfg)
            (Watcher.new_session_files (Watcher.SyncedSessions (Watcher.e_state e))
               (fst (Walk.findSessions (PathJoin (Watcher.w_logsPath w) "projects")
                       (Watcher.w_tree w (PathJoin (Watcher.w_logsPath w) "projects"))))))
    (Watcher.events_of e (Watcher.sync lib w cfg e)).
Proof.
  unfold Watcher.sync. rewrite findSessions_spec. cbn [fst snd].
  set (files := match Watcher.w_tree w (PathJoin (Watcher.w_logsPath w) "projects") with
                | Some d => Props.tree_files ".jsonl" (PathJoin (Watcher.w_logsPath w) "projects") d
                | None => []
                end).
  set (P := Props.pass_event lib w (Watcher.Sharing cfg)
              (Watcher.new_session_files (Watcher.SyncedSessions (Watcher.e_state e)) files)).
  assert (Hrest : Props.emits P
    (Watcher.bind (Watcher.log_err (Watcher.syncPlans lib w cfg))
       (fun _ => Watcher.bind Watcher.now (fun t => Watcher.bind Watcher.get_state (fun st =>
          Watcher.bind (Watcher.put_state (Watcher.Build_SyncState (Watcher.SyncedSessions st)
                                             (Watcher.SyncedPlans st) t))
            (fun _ => Watcher.saveState w)))))).
  { apply (emits_bind _ (fun _ => True)); auto with frame.
    - apply emits_log_err. apply emits_syncPlans; intros; exact I.
    - intros [] _. apply (emits_bind _ (fun _ => True)); auto with frame. intros t _.
      apply (emits_bind _ (fun _ => True)); auto with frame. intros st _.
      apply (emits_bind _ (fun _ => True)); auto with frame. }
  destruct (emits_session_part lib w cfg
              (Watcher.new_session_files (Watcher.SyncedSessions (Watcher.e_state e)) files) e)
    as (evs1 & Ht1 & Hf1).
  assert (Hs : Watcher.e_trace (fst (Watcher.sync_sessions lib w cfg files e))
               = (Watcher.e_trace e ++ evs1)%list)
    by (unfold Watcher.sync_sessions; rewrite bind_get_state; exact Ht1).
  destruct (emits_bind_at P _ _ e evs1 Hs Hf1 (fun _ => Hrest)) as (evs & Ht & Hf).
  rewrite (events_of_emits _ _ evs Ht). exact Hf.
Qed.

Section KeepsPass.
Variable I : Watcher.SyncState -> Prop.
Hypothesis I_session : forall st k t,
  I st -> I (Watcher.Build_SyncState (<[k := t]> (Watcher.SyncedSessions st)) (Watcher.SyncedPlans st)
               (Watcher.LastSync st)).
Hypothesis I_plan : forall st k t,
  I st -> I (Watcher.Build_SyncState (Watcher.SyncedSessions st) (<[k := t]> (Watcher.SyncedPlans st))
               (Watcher.LastSync st)).
Hypothesis I_last : forall st t,
  I st -> I (Watcher.Build_SyncState (Watcher.SyncedSessions st) (Watcher.SyncedPlans st) t).

Lemma keeps_mark_acks {T R} key mark (b : list T) (rs : list R) :
  (forall k t, Props.keeps I (mark k t)) -> Props.keeps I (Watcher.mark_acks key mark b rs).
Proof.
  intros Hm. revert rs. induction b as [|x xs IH]; intros [|r rs]; cbn; auto with frame.
  apply (keeps_bind _ (fun _ => True)); auto with frame. intros t _.
  apply (keeps_bind _ (fun _ => True)); auto with frame.
Qed.

Lemma keeps_upload_all {T R} key mark (ans : nat -> list T -> string + list R) ev ra l :
  (forall k t, Props.keeps I (mark k t)) ->
  Props.keeps I (Watcher.upload_all key mark (Watcher.call ans ev) ra l).
Proof.
  intros Hm. unfold Watcher.upload_all.
  generalize (S (length l)) as fuel, 0%nat as i. intros fuel.
  induction fuel as [|n IH]; intros i; cbn [Watcher.batches]; auto with frame.
  destruct (Nat.ltb i (length l)); auto with frame.
  apply (keeps_bind _ (fun _ => True)); auto with frame.
  unfold Watcher.deliver_batch.
  generalize (S (Z.to_nat ra)) as fuel', 1%Z as a, (@None string) as err.
  intros fuel'. induction fuel' as [|n' IH']; intros a err; cbn [Watcher.attempts]; auto with frame.
  destruct (a <=? ra)%Z; auto with frame.
  apply (keeps_bind _ (fun _ => True)); auto with frame. intros [msg|rs] _.
  - apply (keeps_bind _ (fun _ => True)); auto with frame.
  - apply (keeps_bind _ (fun _ => True)); auto using keeps_mark_acks with frame.
Qed.

Lemma keeps_mark_session' k t : Props.keeps I (Watcher.mark_session k t).
Proof. apply keeps_mark_session. intros st H. apply I_session. exact H. Qed.

Lemma keeps_mark_plan' k t : Props.keeps I (Watcher.mark_plan k t).
Proof. apply keeps_mark_plan. intros st H. apply I_plan. exact H. Qed.

Lemma keeps_parse_filter lib w sh l acc : Props.keeps I (Watcher.parse_filter lib w sh l acc).
Proof.
  revert acc. induction l as [|x xs IH]; intros acc; cbn; auto with frame.
  apply (keeps_bind _ (fun _ => True)); auto with frame. intros [] _.
  destruct (ParseJSONL lib x (Watcher.w_open w x)) as [[s|] [err|]]; auto.
  destruct (Filter.Apply sh s); auto.
  apply (keeps_bind _ (fun _ => True)); auto with frame. intros t _.
  apply (keeps_bind _ (fun _ => True)); auto using keeps_mark_session' with frame.
Qed.

Lemma keeps_session_part lib w cfg newFiles :
  Props.keeps I
    (match newFiles with
     | [] => Watcher.ret tt
     | g :: gs =>
         Watcher.bind (Watcher.parse_filter lib w (Watcher.Sharing cfg) (g :: gs) [])
           (fun toUpload => match toUpload with
                            | [] => Watcher.ret tt
                            | _ :: _ => Watcher.upload_sessions w cfg toUpload
                            end)
     end).
Proof.
  destruct newFiles as [|f fs]; auto with frame.
  apply (keeps_bind _ (fun _ => True)); auto using keeps_parse_filter with frame.
  intros [|x xs] _; auto with frame.
  apply keeps_upload_all. apply keeps_mark_session'.
Qed.

Lemma keeps_sync_sessions lib w cfg files : Props.keeps I (Watcher.sync_sessions lib w cfg files).
Proof.
  intros e He. unfold Watcher.sync_sessions. rewrite bind_get_state.
  apply keeps_session_part. exact He.
Qed.

Lemma keeps_syncPlans lib w cfg : Props.keeps I (Watcher.syncPlans lib w cfg).
Proof.
  unfold Watcher.syncPlans.
  destruct (Watcher.w_stat w (PathJoin (Watcher.w_logsPath w) "plans")); auto with frame.
  all: rewrite findPlans_spec; cbn [fst snd].
  all: apply (keeps_bind _ (fun _ => True)); auto with frame; intros st _.
  all: destruct (Watcher.new_plan_files (Watcher.SyncedPlans st) (Watcher.w_stat w) _) as [|g gs];
    auto with frame.
  all: apply (keeps_bind _ (fun _ => True)); [apply keeps_unchanged; intros e;
        destruct (parse_plans_run lib w (g :: gs) [] e) as (_ & Hs & _); exact Hs | auto with frame |].
  all: intros [|p ps] _; auto with frame.
  all: apply keeps_upload_all; apply keeps_mark_plan'.
Qed.

(** What [sync] does after the sessions: plans, [LastSync], [saveState]. *)
Lemma keeps_sync_tail lib w cfg :
  Props.keeps I
    (Watcher.bind (Watcher.log_err (Watcher.syncPlans lib w cfg))
       (fun _ => Watcher.bind Watcher.now (fun t => Watcher.bind Watcher.get_state (fun st =>
          Watcher.bind (Watcher.put_state (Watcher.Build_SyncState (Watcher.SyncedSessions st)
                                             (Watcher.SyncedPlans st) t))
            (fun _ => Watcher.saveState w))))).
Proof.
  apply (keeps_bind _ (fun _ => True)); auto using keeps_syncPlans with frame. intros [] _.
  apply (keeps_bind _ (fun _ => True)); auto with frame. intros t _.
  intros e He. rewrite bind_get_state. unfold Watcher.bind, Watcher.put_state. cbn [fst snd].
  apply keeps_saveState. cbn [Watcher.e_state]. apply I_last. exact He.
Qed.

Lemma keeps_sync lib w cfg : Props.keeps I (Watcher.sync lib w cfg).
Proof.
  unfold Watcher.sync. rewrite findSessions_spec. cbn [fst snd].
  apply (keeps_bind _ (fun _ => True)); auto using keeps_sync_sessions, keeps_sync_tail with frame.
Qed.

End KeepsPass.

Lemma In_new_session_files m files f :
  In f (Watcher.new_session_files m files) <-> In f files /\ m !! Watcher.sessionID f = None.
Proof.
  unfold Watcher.new_session_files. rewrite filter_In.
  destruct (m !! Watcher.sessionID f); split; intros [H1 H2]; split; auto; discriminate.
Qed.

Section Synced.
Variable id : string.
Let I st := is_Some (Watcher.SyncedSessions st !! id).

Lemma synced_session st k t :
  I st -> I (Watcher.Build_SyncState (<[k := t]> (Watcher.SyncedSessions st)) (Watcher.SyncedPlans st)
               (Watcher.LastSync st)).
Proof. unfold I. cbn [Watcher.SyncedSessions]. rewrite lookup_insert_is_Some'. auto. Qed.

Lemma synced_plan st k t :
  I st -> I (Watcher.Build_SyncState (Watcher.SyncedSessions st) (<[k := t]> (Watcher.SyncedPlans st))
               (Watcher.LastSync st)).
Proof. auto. Qed.

Lemma synced_last st t :
  I st -> I (Watcher.Build_SyncState (Watcher.SyncedSessions st) (Watcher.SyncedPlans st) t).
Proof. auto. Qed.

End Synced.

Lemma mark_acks_marks b (rs : list Watcher.SessionResponse) e x :
  length rs <= length b -> In x (firstn (length rs) b) ->
  is_Some (Watcher.SyncedSessions
             (Watcher.e_state (fst (Watcher.mark_acks ID Watcher.mark_session b rs e))) !! ID x).
Proof.
  revert rs e. induction b as [|y ys IH]; intros [|r rs] e Hl Hx; cbn in Hx; try contradiction.
  cbn [Watcher.mark_acks Watcher.bind Watcher.now Watcher.mark_session Watcher.get_state
       Watcher.put_state fst snd].
  cbn [length] in Hl. destruct Hx as [->|Hx].
  - apply (keeps_mark_acks (fun st => is_Some (Watcher.SyncedSessions st !! ID x))).
    + intros k t. apply keeps_mark_session. intros st. apply synced_session.
    + cbn [Watcher.e_state Watcher.SyncedSessions]. rewrite lookup_insert_is_Some'. auto.
  - apply IH; [lia | exact Hx].
Qed.

(** C1: in a pass that starts with [id] in the session map, no candidate
    file has session ID [id], so no file with that session ID is parsed,
    no delivered session has ID [id] (whatever the files hold and
    whenever they were modified), and [id] is still in the session map
    after the pass, so this holds again in the next pass. A session is
    put in the map when the collector acknowledges it. *)
Theorem synced_sessions_skipped lib w cfg e id :
  is_Some (Watcher.SyncedSessions (Watcher.e_state e) !! id) ->
  let projectsDir := PathJoin (Watcher.w_logsPath w) "projects" in
  let files := fst (Walk.findSessions projectsDir (Watcher.w_tree w projectsDir)) in
  let r := Watcher.sync lib w cfg e in
  (forall f, In f (Watcher.new_session_files (Watcher.SyncedSessions (Watcher.e_state e)) files) ->
             Watcher.sessionID f <> id) /\
  (forall f, In (Watcher.EvParse f) (Watcher.events_of e r) -> Watcher.sessionID f <> id) /\
  (forall b x, In (Watcher.EvUpload b) (Watcher.events_of e r) -> In x b -> ID x <> id) /\
  is_Some (Watcher.SyncedSessions (Watcher.e_state (fst r)) !! id) /\
  (forall b (rs : list Watcher.SessionResponse) e' x,
     length rs <= length b -> In x (firstn (length rs) b) ->
     is_Some (Watcher.SyncedSessions
                (Watcher.e_state (fst (Watcher.mark_acks ID Watcher.mark_session b rs e'))) !! ID x)).
Proof.
  intros Hid. cbv zeta.
  set (files := fst (Walk.findSessions (PathJoin (Watcher.w_logsPath w) "projects")
                       (Watcher.w_tree w (PathJoin (Watcher.w_logsPath w) "projects")))).
  assert (Hnew : forall f, In f (Watcher.new_session_files (Watcher.SyncedSessions (Watcher.e_state e)) files) ->
                           Watcher.sessionID f <> id).
  { intros f Hf Heq. apply In_new_session_files in Hf. destruct Hf as [_ Hf].
    rewrite Heq in Hf. rewrite Hf in Hid. destruct Hid as [? Hc]. discriminate. }
  pose proof (sync_events lib w cfg e) as Hev. fold files in Hev.
  rewrite List.Forall_forall in Hev.
  split; [exact Hnew|]. split; [|split; [|split]].
  - intros f Hf. apply Hnew. exact (Hev _ Hf).
  - intros b x Hb Hx. destruct (Hev _ Hb x Hx) as (g & s & Hg & Hp & Ha).
    rewrite (Apply_ID _ _ _ Ha), (ParseJSONL_ID _ _ _ _ _ Hp). apply Hnew. exact Hg.
  - apply (keeps_sync _ (synced_session id) (synced_plan id) (synced_last id)). exact Hid.
  - intros b rs e' x. apply mark_acks_marks.
Qed.

Lemma synced_sessions_skipped_witness :
  ~ In (Watcher.EvParse "/root/.claude/projects/-home-bob-proj/abc.jsonl")
       (Watcher.events_of (Samples.env0 (<["abc" := 5%Z]> ∅))
          (Watcher.sync ascii_lib
             (Samples.world [("abc.jsonl", Samples.turn); ("def.jsonl", Samples.turn)] Samples.ack_all true)
             (Samples.config "full" 3) (Samples.env0 (<["abc" := 5%Z]> ∅)))).
Proof.
  intros H.
  refine (proj1 (proj2 (synced_sessions_skipped ascii_lib
    (Samples.world [("abc.jsonl", Samples.turn); ("def.jsonl", Samples.turn)] Samples.ack_all true)
    (Samples.config "full" 3) (Samples.env0 (<["abc" := 5%Z]> ∅)) "abc" _))
    "/root/.claude/projects/-home-bob-proj/abc.jsonl" H _).
  - vm_compute. eexists. reflexivity.
  - vm_compute. reflexivity.
Defined.

Lemma keeps_bind_at {A B} (I : Watcher.SyncState -> Prop) (m : Watcher.M A) (k : A -> Watcher.M B) e :
  I (Watcher.e_state (fst (m e))) -> (forall a, Props.keeps I (k a)) ->
  I (Watcher.e_state (fst (Watcher.bind m k e))).
Proof.
  intros H Hk. unfold Watcher.bind. destruct (m e) as [e1 [a|msg|msg]]; cbn [fst] in *; auto.
  apply Hk. exact H.
Qed.

Lemma parse_filter_cons lib w sh f fs acc e :
  exists acc' e', Watcher.parse_filter lib w sh (f :: fs) acc e = Watcher.parse_filter lib w sh fs acc' e'.
Proof.
  cbn [Watcher.parse_filter]. unfold Watcher.bind at 1. cbn [Watcher.emit].
  destruct (ParseJSONL lib f (Watcher.w_open w f)) as [[s|] [err|]]; eauto.
  destruct (Filter.Apply sh s); eauto.
Qed.

Lemma parse_filter_excluded lib w sh f fs acc e s :
  ParseJSONL lib f (Watcher.w_open w f) = (Some s, None) -> Filter.Apply sh s = None ->
  exists e', is_Some (Watcher.SyncedSessions (Watcher.e_state e') !! ID s) /\
             Watcher.parse_filter lib w sh (f :: fs) acc e = Watcher.parse_filter lib w sh fs acc e'.
Proof.
  intros Hp Ha. cbn [Watcher.parse_filter]. rewrite Hp, Ha.
  eexists. split; [|reflexivity]. cbn. rewrite lookup_insert_is_Some'. auto.
Qed.

Lemma parse_filter_marks lib w sh l f s :
  In f l -> ParseJSONL lib f (Watcher.w_open w f) = (Some s, None) -> Filter.Apply sh s = None ->
  forall acc e,
    is_Some (Watcher.SyncedSessions (Watcher.e_state (fst (Watcher.parse_filter lib w sh l acc e))) !! ID s).
Proof.
  intros Hf Hp Ha. induction l as [|g gs IH]; [destruct Hf|]. intros acc e.
  destruct Hf as [->|Hf].
  - destruct (parse_filter_excluded lib w sh f gs acc e s Hp Ha) as (e' & He' & ->).
    exact (keeps_parse_filter _ (synced_session (ID s)) lib w sh gs acc e' He').
  - destruct (parse_filter_cons lib w sh g gs acc e) as (acc' & e' & ->). apply IH. exact Hf.
Qed.

(** C2: a session file found in a pass, parsed without error into [s]
    whose project path matches an exclusion pattern: [Apply] returns nil
    for [s]; every session delivered in the pass is the [Apply] copy of a
    session, parsed without error from another file, whose project path
    matches no exclusion pattern, so [s] is never sent; and the ID of [s]
    is in the session map after the pass, so its file is no candidate
    of later passes. *)
Theorem excluded_sessions_recorded lib w cfg e f s :
  let projectsDir := PathJoin (Watcher.w_logsPath w) "projects" in
  In f (fst (Walk.findSessions projectsDir (Watcher.w_tree w projectsDir))) ->
  ParseJSONL lib f (Watcher.w_open w f) = (Some s, None) ->
  Filter.isExcluded (Watcher.Sharing cfg) (ProjectPath s) = true ->
  let r := Watcher.sync lib w cfg e in
  Filter.Apply (Watcher.Sharing cfg) s = None /\
  (forall b x, In (Watcher.EvUpload b) (Watcher.events_of e r) -> In x b ->
     exists g s', g <> f /\ ParseJSONL lib g (Watcher.w_open w g) = (Some s', None) /\
       Filter.isExcluded (Watcher.Sharing cfg) (ProjectPath s') = false /\
       Filter.Apply (Watcher.Sharing cfg) s' = Some x) /\
  is_Some (Watcher.SyncedSessions (Watcher.e_state (fst r)) !! ID s).
Proof.
  cbv zeta. intros Hf Hp Hex.
  assert (Ha : Filter.Apply (Watcher.Sharing cfg) s = None) by (unfold Filter.Apply; rewrite Hex; reflexivity).
  split; [exact Ha|]. split.
  - pose proof (sync_events lib w cfg e) as Hev. rewrite List.Forall_forall in Hev.
    intros b x Hb Hx. destruct (Hev _ Hb x Hx) as (g & s' & _ & Hp' & Ha').
    exists g, s'. split; [|split; [exact Hp'|split; [eapply Apply_Some_not_excluded; exact Ha' | exact Ha']]].
    intros ->. rewrite Hp in Hp'. injection Hp' as <-. congruence.
  - pose proof (ParseJSONL_ID _ _ _ _ _ Hp) as Hid.
    destruct (Watcher.SyncedSessions (Watcher.e_state e) !! Watcher.sessionID f) as [t|] eqn:Hm.
    + apply (keeps_sync _ (synced_session (ID s)) (synced_plan (ID s)) (synced_last (ID s))).
      rewrite Hid, Hm. eexists. reflexivity.
    + unfold Watcher.sync. rewrite findSessions_spec. cbn [fst snd].
      rewrite findSessions_spec in Hf. cbn [fst] in Hf.
      apply keeps_bind_at; [|intros []; apply (keeps_sync_tail _ (synced_plan (ID s)) (synced_last (ID s)))].
      unfold Watcher.sync_sessions. rewrite bind_get_state.
      assert (Hn : In f (Watcher.new_session_files (Watcher.SyncedSessions (Watcher.e_state e))
                          match Watcher.w_tree w (PathJoin (Watcher.w_logsPath w) "projects") with
                          | Some d => Props.tree_files ".jsonl" (PathJoin (Watcher.w_logsPath w) "projects") d
                          | None => []
                          end)) by (apply In_new_session_files; auto).
      destruct (Watcher.new_session_files _ _) as [|g gs]; [destruct Hn|].
      apply keeps_bind_at.
      * apply (parse_filter_marks lib w _ (g :: gs) f s Hn Hp Ha).
      * intros [|x xs]; [apply keeps_ret|].
        apply keeps_upload_all. apply (keeps_mark_session' _ (synced_session (ID s))).
Qed.

Lemma excluded_sessions_recorded_witness :
  is_Some (Watcher.SyncedSessions
             (Watcher.e_state (fst (Watcher.sync ascii_lib
                (Samples.world [("abc.jsonl", Samples.turn)] Samples.ack_all true)
                (Samples.exclude_config ["/home/bob/*"]) (Samples.env0 ∅))))
           !! ID (match fst (ParseJSONL ascii_lib "/root/.claude/projects/-home-bob-proj/abc.jsonl"
                               (Watcher.w_open (Samples.world [("abc.jsonl", Samples.turn)] Samples.ack_all true)
                                  "/root/.claude/projects/-home-bob-proj/abc.jsonl")) with
                 | Some s => s | None => Samples.session end)).
Proof.
  refine (proj2 (proj2 (excluded_sessions_recorded ascii_lib
    (Samples.world [("abc.jsonl", Samples.turn)] Samples.ack_all true)
    (Samples.exclude_config ["/home/bob/*"]) (Samples.env0 ∅)
    "/root/.claude/projects/-home-bob-proj/abc.jsonl" _ _ _ _))).
  - vm_compute. left. reflexivity.
  - vm_compute. reflexivity.
  - vm_compute. reflexivity.
Defined.

(** ** config.Validate and DefaultConfig *)

Lemma Validate_ok_iff (c : config.Config) :
  config.Validate c = None <->
    config.URL (config.Server c) <> "" /\ config.APIKey (config.Server c) <> "" /\
    In (Filter.Level (config.Sharing c)) ["none"; "metadata"; "full"].
Proof.
  unfold config.Validate.
  destruct (String.eqb_spec (config.URL (config.Server c)) "") as [Hu|Hu];
    [split; [discriminate | intros (H & _); contradiction]|].
  destruct (String.eqb_spec (config.APIKey (config.Server c)) "") as [Hk|Hk];
    [split; [discriminate | intros (_ & H & _); contradiction]|].
  destruct (String.eqb_spec (Filter.Level (config.Sharing c)) "none") as [Hl|Hl];
    [cbn; rewrite Hl; split; [intros _; split; [|split]; auto; left; reflexivity | reflexivity]|].
  destruct (String.eqb_spec (Filter.Level (config.Sharing c)) "metadata") as [Hm|Hm];
    [cbn; rewrite Hm; split; [intros _; split; [|split]; auto; right; left; reflexivity | reflexivity]|].
  destruct (String.eqb_spec (Filter.Level (config.Sharing c)) "full") as [Hf|Hf];
    [cbn; rewrite Hf; split; [intros _; split; [|split]; auto; right; right; left; reflexivity | reflexivity]|].
  cbn. split; [discriminate|]. intros (_ & _ & [H|[H|[H|[]]]]); congruence.
Qed.

(** X1: [Validate] returns nil exactly when the server URL and the API
    key are set and the share level is "none", "metadata" or "full". It
    checks in that order: an empty URL gives [ErrMissingServerURL]
    whatever the rest holds, and an empty key with a URL set gives
    [ErrMissingAPIKey] whatever the share level. *)
Theorem Validate_checks (c : config.Config) :
  (config.Validate c = None <->
     config.URL (config.Server c) <> "" /\ config.APIKey (config.Server c) <> "" /\
     In (Filter.Level (config.Sharing c)) ["none"; "metadata"; "full"]) /\
  (config.URL (config.Server c) = "" -> config.Validate c = Some config.ErrMissingServerURL) /\
  (config.URL (config.Server c) <> "" -> config.APIKey (config.Server c) = "" ->
     config.Validate c = Some config.ErrMissingAPIKey).
Proof.
  split; [apply Validate_ok_iff|]. unfold config.Validate. split.
  - intros ->. reflexivity.
  - intros Hu ->. destruct (String.eqb_spec (config.URL (config.Server c)) ""); [contradiction|reflexivity].
Qed.

Lemma cmdInit_config_url lib scan url k lv an iv :
  config.URL (config.Server (Agent.cmdInit_config lib scan url k lv an iv)) <> "".
Proof.
  unfold Agent.cmdInit_config. cbn [config.Server config.URL].
  destruct (String.eqb_spec (TrimSpace lib url) "") as [H|H]; cbn; [discriminate | exact H].
Qed.

(** X2: the configuration [cmdInit] builds always has a server URL (the
    default one when the answer is blank). It is saved exactly when the
    API key answer is not blank and the share level answer is blank (the
    default "metadata") or one of "none", "metadata", "full" (after
    trimming white space); with a blank API key [cmdInit] always exits
    on [ErrMissingAPIKey]. *)
Theorem cmdInit_validation (lib : GoLib) (scan : string -> option Z)
  (url apiKey level anon interval : string) :
  config.URL (config.Server (Agent.cmdInit_config lib scan url apiKey level anon interval)) <> "" /\
  ((exists cfg, Agent.cmdInit_result lib scan url apiKey level anon interval = inr cfg) <->
     TrimSpace lib apiKey <> "" /\
     (TrimSpace lib level = "" \/ In (TrimSpace lib level) ["none"; "metadata"; "full"])) /\
  (TrimSpace lib apiKey = "" ->
     Agent.cmdInit_result lib scan url apiKey level anon interval = inl config.ErrMissingAPIKey).
Proof.
  split; [apply cmdInit_config_url|]. split.
  - unfold Agent.cmdInit_result.
    pose proof (Validate_ok_iff (Agent.cmdInit_config lib scan url apiKey level anon interval)) as Hv.
    pose proof (cmdInit_config_url lib scan url apiKey level anon interval) as Hu.
    assert (Hk : config.APIKey (config.Server (Agent.cmdInit_config lib scan url apiKey level anon interval))
                 = TrimSpace lib apiKey) by reflexivity.
    assert (Hl : Filter.Level (config.Sharing (Agent.cmdInit_config lib scan url apiKey level anon interval))
                 = if negb (String.eqb (TrimSpace lib level) "") then TrimSpace lib level else "metadata")
      by reflexivity.
    rewrite Hk, Hl in Hv.
    destruct (config.Validate _) as [err|].
    + split; [intros [cfg Hc]; discriminate|]. intros (H1 & H2). exfalso.
      assert (Some err = None); [|discriminate]. apply Hv. split; [exact Hu|]. split; [exact H1|].
      destruct (String.eqb_spec (TrimSpace lib level) "") as [He|He]; cbn.
      * right. left. reflexivity.
      * destruct H2 as [H2|H2]; [contradiction | exact H2].
    + split; [|intros _; eexists; reflexivity]. intros _.
      destruct (proj1 Hv eq_refl) as (_ & H1 & H2). split; [exact H1|].
      destruct (String.eqb_spec (TrimSpace lib level) "") as [He|He]; [left; exact He|right; exact H2].
  - intros Hk. unfold Agent.cmdInit_result, config.Validate.
    pose proof (cmdInit_config_url lib scan url apiKey level anon interval) as Hu.
    destruct (String.eqb_spec (config.URL (config.Server (Agent.cmdInit_config lib scan url apiKey level anon interval))) "");
      [contradiction|].
    cbn [config.Server config.APIKey Agent.cmdInit_config]. rewrite Hk. reflexivity.
Qed.

(** X3: under a configuration that [Validate] accepts, [Apply] returns nil
    exactly for sessions whose project is excluded or when the level is
    "none"; a copy it returns carries the session's messages under "full"
    and none otherwise: the branch for an unknown level is never taken. *)
Theorem validated_config_Apply (c : config.Config) (s : Session) :
  config.Validate c = None ->
  (Filter.Apply (config.Sharing c) s = None <->
     Filter.isExcluded (config.Sharing c) (ProjectPath s) = true \/
     Filter.Level (config.Sharing c) = "none") /\
  (forall x, Filter.Apply (config.Sharing c) s = Some x ->
     Messages x = if String.eqb (Filter.Level (config.Sharing c)) "full" then Messages s else []).
Proof.
  intros Hv. apply Validate_ok_iff in Hv. destruct Hv as (_ & _ & Hl).
  unfold Filter.Apply.
  destruct (Filter.isExcluded (config.Sharing c) (ProjectPath s)).
  { split; [split; auto|intros x Hx; discriminate]. }
  destruct Hl as [Hl|[Hl|[Hl|[]]]]; rewrite <- Hl; cbn.
  - split; [split; [intros _; right; reflexivity | intros _; reflexivity] | intros x Hx; discriminate Hx].
  - split; [split; [intros H; discriminate H|intros [H|H]; discriminate H]|].
    intros x Hx. injection Hx as <-. reflexivity.
  - split; [split; [intros H; discriminate H|intros [H|H]; discriminate H]|].
    intros x Hx. injection Hx as <-. reflexivity.
Qed.

Lemma validated_config_Apply_witness :
  config.Validate (config.Build_Config (config.Build_ServerConfig "https://insights.dkd.internal" "key")
                     (Samples.sharing "full") (config.Build_SyncConfig 300 3)
                     (config.Build_LoggingConfig "info" "")) = None /\
  (forall x, Filter.Apply (Samples.sharing "full") Samples.session = Some x ->
     Messages x = Messages Samples.session).
Proof.
  split; [reflexivity|].
  exact (proj2 (validated_config_Apply
    (config.Build_Config (config.Build_ServerConfig "https://insights.dkd.internal" "key")
       (Samples.sharing "full") (config.Build_SyncConfig 300 3) (config.Build_LoggingConfig "info" ""))
    Samples.session eq_refl)).
Defined.

(** ** Filter.Apply: project fields *)

(** X4: a copy [Apply] returns has an empty [ProjectPath] (the field is
    not copied), and its [ProjectName] is [filepath.Base] of the input's
    project path when [AnonymizePaths] is set, the whole project path
    otherwise. *)
Theorem Apply_project_fields (cfg : Filter.SharingConfig) (s x : Session) :
  Filter.Apply cfg s = Some x ->
  ProjectPath x = "" /\
  ProjectName x = if Filter.AnonymizePaths cfg then Base (ProjectPath s) else ProjectPath s.
Proof.
  unfold Filter.Apply. destruct (Filter.isExcluded cfg (ProjectPath s)); [discriminate|].
  destruct (String.eqb (Filter.Level cfg) "none"); [discriminate|].
  destruct (String.eqb (Filter.Level cfg) "metadata");
    [|destruct (String.eqb (Filter.Level cfg) "full")]; intros H; injection H as <-; split; reflexivity.
Qed.

Lemma Apply_project_fields_witness :
  Filter.Apply (Samples.sharing "full") Samples.session
    = Some (Filter.with_messages (Filter.filtered_copy (Samples.sharing "full") Samples.session)
              (Messages Samples.session)) /\
  ProjectName (Filter.with_messages (Filter.filtered_copy (Samples.sharing "full") Samples.session)
                 (Messages Samples.session)) = "proj".
Proof.
  split; [reflexivity|].
  exact (proj2 (Apply_project_fields (Samples.sharing "full") Samples.session _ eq_refl)).
Defined.

(** ** ParseJSONL: what the parse loop keeps *)

Lemma Split_no_sep s sep : forall x, In x (Split s sep) -> contains_byte x sep = false.
Proof.
  induction s as [|a s IH]; cbn; intros x Hx.
  - destruct Hx as [<-|[]]. reflexivity.
  - destruct (Ascii.eqb a sep) eqn:Ha.
    + destruct Hx as [<-|Hx]; [reflexivity | apply IH; exact Hx].
    + destruct (Split s sep) as [|r rs] eqn:Hs.
      * destruct Hx as [<-|[]]. cbn. rewrite Ha. reflexivity.
      * destruct Hx as [<-|Hx].
        -- cbn. rewrite Ha. apply IH. left. reflexivity.
        -- apply IH. right. exact Hx.
Qed.

Lemma Split_nonempty s sep : Split s sep <> [].
Proof.
  destruct s as [|a s]; cbn; [discriminate|].
  destruct (Ascii.eqb a sep); [discriminate|]. destruct (Split s sep); discriminate.
Qed.

Lemma last_In' {A} (l : list A) d : l <> [] -> In (List.last l d) l.
Proof.
  induction l as [|x [|y l] IH]; intros H; [contradiction| left; reflexivity|].
  right. apply IH. discriminate.
Qed.

Lemma parse_line_project lib st l :
  ProjectPath (ps_session (parse_line lib st l)) = ProjectPath (ps_session st) /\
  ProjectName (ps_session (parse_line lib st l)) = ProjectName (ps_session st).
Proof.
  unfold parse_line. destruct (is_empty l); [auto|].
  destruct (unmarshal_entry l) as [e|]; [|auto].
  repeat match goal with |- context [match ?p with pair _ _ => _ end] => destruct p end.
  destruct (String.eqb (re_Type e) "user" || String.eqb (re_Type e) "assistant"); auto.
Qed.

Lemma fold_parse_line_project lib ls st :
  ProjectPath (ps_session (fold_left (parse_line lib) ls st)) = ProjectPath (ps_session st) /\
  ProjectName (ps_session (fold_left (parse_line lib) ls st)) = ProjectName (ps_session st).
Proof.
  revert st. induction ls as [|l ls IH]; intros st; cbn; [auto|].
  destruct (IH (parse_line lib st l)) as [H1 H2]. rewrite H1, H2. apply parse_line_project.
Qed.

(** X5: whatever the file holds, the session [ParseJSONL] returns has the
    ID [filepath.Base(strings.TrimSuffix(path, ".jsonl"))], the key the
    watcher looks up in its session map, and its project path and name
    are computed from the name of the parent directory alone; the
    project name never contains a "/". *)
Theorem ParseJSONL_path_fields (lib : GoLib) (path : string) (fd : file_data) :
  exists s, fst (ParseJSONL lib path (Some fd)) = Some s /\
    ID s = Watcher.sessionID path /\
    (ProjectPath s, ProjectName s) = project_of path /\
    contains_byte (ProjectName s) slash = false.
Proof.
  assert (Hpn : contains_byte (snd (project_of path)) slash = false).
  { unfold project_of. destruct (HasPrefix (Base (Dir path)) "-"); [|reflexivity].
    cbn [snd]. eapply Split_no_sep. apply last_In'. apply Split_nonempty. }
  unfold ParseJSONL. destruct (project_of path) as [pp pn] eqn:Hpo.
  destruct (scan_lines fd) as [ls err].
  destruct (fold_parse_line_project lib ls
              (Build_pstate (Build_Session (Base (TrimSuffix path ".jsonl")) pn pp 0 None 0 0 0 "" ∅ [] [])
                 0 0 0)) as [H1 H2].
  eexists. split; [reflexivity|]. cbn [ID ProjectPath ProjectName ps_session] in *.
  rewrite fold_parse_line_ID, H1, H2. cbn. split; [reflexivity|]. split; [reflexivity|]. exact Hpn.
Qed.

Lemma parse_line_msgs_ok lib st l : Props.msgs_ok st -> Props.msgs_ok (parse_line lib st l).
Proof.
  intros (Ht & Hq & Hm). unfold parse_line.
  destruct (is_empty l); [split; auto|].
  destruct (unmarshal_entry l) as [e|]; [|split; auto].
  repeat match goal with |- context [match ?p with pair _ _ => _ end] => destruct p end.
  destruct (String.eqb (re_Type e) "user" || String.eqb (re_Type e) "assistant") eqn:Hty;
    [|split; auto].
  unfold Props.msgs_ok. cbn [ps_session ps_msgSeq set_totals Messages TotalMessages].
  rewrite length_app. cbn [length].
  replace (Z.of_nat (length (Messages (ps_session st)) + 1)) with
    (Z.of_nat (length (Messages (ps_session st))) + 1)%Z by lia.
  split; [rewrite Ht; apply wrap64_add_l|]. split; [rewrite Hq; apply wrap64_add_l|].
  intros i m Hi.
  destruct (Nat.lt_ge_cases i (length (Messages (ps_session st)))) as [Hlt|Hge].
  - rewrite nth_error_app1 in Hi by exact Hlt. exact (Hm i m Hi).
  - rewrite nth_error_app2 in Hi by exact Hge.
    destruct (i - length (Messages (ps_session st))) as [|k] eqn:Hk; [|destruct k; discriminate].
    injection Hi as <-. cbn [msg_Seq msg_Role].
    replace i with (length (Messages (ps_session st))) by lia. split; [exact Hq|].
    apply orb_true_iff in Hty. destruct Hty as [H|H]; apply String.eqb_eq in H; auto.
Qed.

Lemma fold_parse_line_msgs_ok lib ls st : Props.msgs_ok st -> Props.msgs_ok (fold_left (parse_line lib) ls st).
Proof.
  revert st. induction ls as [|l ls IH]; intros st H; cbn; [exact H|].
  apply IH. apply parse_line_msgs_ok. exact H.
Qed.

(** X6: in the session [ParseJSONL] returns, [TotalMessages] is the
    number of stored messages, the [i]-th message has [Seq] [i] (both
    with [int] wrap-around), and every message has role "user" or
    "assistant". *)
Theorem ParseJSONL_messages (lib : GoLib) (path : string) (fd : file_data) :
  exists s, fst (ParseJSONL lib path (Some fd)) = Some s /\
    TotalMessages s = wrap64 (Z.of_nat (length (Messages s))) /\
    forall i m, nth_error (Messages s) i = Some m ->
      msg_Seq m = wrap64 (Z.of_nat i) /\ (msg_Role m = "user" \/ msg_Role m = "assistant").
Proof.
  unfold ParseJSONL. destruct (project_of path) as [pp pn]. destruct (scan_lines fd) as [ls err].
  match goal with |- context [fold_left (parse_line lib) ls ?st0] =>
    assert (H0 : Props.msgs_ok st0) by (split; [reflexivity|split; [reflexivity|]]; intros [|i] m Hi; discriminate);
    destruct (fold_parse_line_msgs_ok lib ls st0 H0) as (Ht & _ & Hm)
  end.
  eexists. split; [reflexivity|]. cbn [TotalMessages Messages]. split; [exact Ht | exact Hm].
Qed.

Lemma bump_tool_ok tools name : Props.tools_ok tools -> Props.tools_ok (bump_tool tools name).
Proof.
  intros H k t Hk. unfold bump_tool in Hk.
  destruct (String.eq_dec name k) as [<-|Hne].
  - rewrite lookup_insert_eq in Hk. injection Hk as <-. cbn.
    destruct (tools !! name) as [t0|] eqn:E.
    + destruct (H name t0 E) as [He Hs]. rewrite He, Hs. auto.
    + auto.
  - rewrite lookup_insert_ne in Hk by exact Hne. exact (H k t Hk).
Qed.

Lemma scan_blocks_ok blocks tools : Props.tools_ok tools -> Props.tools_ok (snd (scan_blocks blocks tools)).
Proof.
  unfold scan_blocks. intros H. change tools with (snd (@nil string, tools)) in H.
  revert H. generalize (@nil string, tools) as acc.
  induction blocks as [|b bs IH]; intros [parts tl] H; cbn; [exact H|].
  apply IH. cbn in H.
  destruct (String.eqb (cb_Type b) "text"); [exact H|].
  destruct (String.eqb (cb_Type b) "tool_use"); [|exact H].
  destruct (is_empty (cb_Name b)); [exact H|apply bump_tool_ok; exact H].
Qed.

Lemma parse_line_tools_ok lib st l :
  Props.tools_ok (Tools (ps_session st)) -> Props.tools_ok (Tools (ps_session (parse_line lib st l))).
Proof.
  intros H. unfold parse_line.
  destruct (is_empty l); [exact H|].
  destruct (unmarshal_entry l) as [e|]; [|exact H].
  destruct (if negb (is_empty (re_Timestamp e)) then _ else _) as [f0 l0].
  destruct (String.eqb (re_Type e) "user" || String.eqb (re_Type e) "assistant"); [|exact H].
  pose proof (scan_blocks_ok (mc_Content (match re_Message e with
                                         | Some m => decode_message_content m
                                         | None => zero_mc end)) _ H) as Hb.
  destruct (scan_blocks _ _) as [parts tools].
  repeat match goal with |- context [match ?p with pair _ _ => _ end] => destruct p end.
  exact Hb.
Qed.

(** X7: [ParseJSONL] never counts a tool error: in the session it
    returns, every tool's [Errors] is 0 and its [Success] equals its
    [Count]. *)
Theorem ParseJSONL_tool_stats (lib : GoLib) (path : string) (fd : file_data) :
  exists s, fst (ParseJSONL lib path (Some fd)) = Some s /\
    forall name t, Tools s !! name = Some t -> Errors t = 0%Z /\ Success t = Count t.
Proof.
  unfold ParseJSONL. destruct (project_of path) as [pp pn]. destruct (scan_lines fd) as [ls err].
  eexists. split; [reflexivity|]. cbn [Tools].
  match goal with |- context [fold_left (parse_line lib) ls ?st0] =>
    assert (H : forall ls st, Props.tools_ok (Tools (ps_session st)) ->
                  Props.tools_ok (Tools (ps_session (fold_left (parse_line lib) ls st))))
      by (induction ls0 as [|l0 ls0 IH]; intros st1 H1; cbn; [exact H1|];
          apply IH; apply parse_line_tools_ok; exact H1);
    apply (H ls st0)
  end.
  intros k t Hk. cbn in Hk. discriminate.
Qed.

Lemma fold_parse_line_none lib ls st :
  (forall l, In l ls -> unmarshal_entry l = None) -> fold_left (parse_line lib) ls st = st.
Proof.
  revert st. induction ls as [|l ls IH]; intros st H; cbn; [reflexivity|].
  replace (parse_line lib st l) with st.
  - apply IH. intros l' Hl'. apply H. right. exact Hl'.
  - unfold parse_line. rewrite (H l (or_introl eq_refl)). destruct (is_empty l); reflexivity.
Qed.

(** X8: when no scanned line of the file decodes into an entry (an empty
    file, blank lines, lines that are not JSON), [ParseJSONL] returns the
    session it starts from: ID and project from the path, no messages,
    no tools, no tags, zero counts and start time, no end time, and the
    scanner's error. *)
Theorem ParseJSONL_no_entries (lib : GoLib) (path : string) (fd : file_data) :
  (forall l, In l (fst (scan_lines fd)) -> unmarshal_entry l = None) ->
  ParseJSONL lib path (Some fd) =
    (Some (Build_Session (Watcher.sessionID path) (snd (project_of path)) (fst (project_of path))
             0 None 0 0 0 "" ∅ [] []),
     snd (scan_lines fd)).
Proof.
  intros H. unfold ParseJSONL. destruct (project_of path) as [pp pn].
  destruct (scan_lines fd) as [ls err]. cbn [fst snd] in *.
  rewrite (fold_parse_line_none lib ls _ H). reflexivity.
Qed.

Lemma ParseJSONL_no_entries_witness :
  (forall l, In l (fst (scan_lines (Build_file_data ("garbage" ++ String nl (String nl "")) None))) ->
             unmarshal_entry l = None) /\
  ParseJSONL ascii_lib "/root/.claude/projects/-home-bob-proj/abc.jsonl"
    (Some (Build_file_data ("garbage" ++ String nl (String nl "")) None)) =
    (Some (Build_Session (Watcher.sessionID "/root/.claude/projects/-home-bob-proj/abc.jsonl")
             (snd (project_of "/root/.claude/projects/-home-bob-proj/abc.jsonl"))
             (fst (project_of "/root/.claude/projects/-home-bob-proj/abc.jsonl"))
             0 None 0 0 0 "" ∅ [] []),
     snd (scan_lines (Build_file_data ("garbage" ++ String nl (String nl "")) None))).
Proof.
  assert (H : forall l, In l (fst (scan_lines (Build_file_data ("garbage" ++ String nl (String nl "")) None))) ->
                        unmarshal_entry l = None).
  { intros l Hl. vm_compute in Hl. destruct Hl as [<-|[<-|[]]]; vm_compute; reflexivity. }
  split; [exact H|].
  exact (ParseJSONL_no_entries ascii_lib "/root/.claude/projects/-home-bob-proj/abc.jsonl"
           (Build_file_data ("garbage" ++ String nl (String nl "")) None) H).
Defined.

(** ** generateTags *)

Lemma pattern_tags_sub (f : string -> list string -> bool) (l : list (string * list string)) :
  NoDup (map fst l) ->
  NoDup (flat_map (fun '(tag, kws) => if f tag kws then [tag] else []) l) /\
  forall t, In t (flat_map (fun '(tag, kws) => if f tag kws then [tag] else []) l) -> In t (map fst l).
Proof.
  induction l as [|[tag kws] l IH]; intros Hn; cbn; [split; [constructor|intros t []]|].
  inversion Hn as [|? ? Hnin Hn']; subst. destruct (IH Hn') as [Hd Hi].
  destruct (f tag kws); cbn; split.
  - constructor; [|exact Hd]. intros Ht. apply Hnin, list_elem_of_In, Hi, list_elem_of_In, Ht.
  - intros t [<-|Ht]; [left; reflexivity|right; apply Hi, Ht].
  - exact Hd.
  - intros t Ht. right. apply Hi, Ht.
Qed.

(** X9: [generateTags] never repeats a tag: it yields one tag
    "tool:<name>" for each tool of the session, and every other tag it
    yields is one of "debugging", "refactoring", "feature", "testing",
    "documentation". *)
Theorem generateTags_shape (lib : GoLib) (s : Session) :
  NoDup (generateTags lib s) /\
  (forall name, is_Some (Tools s !! name) -> In ("tool:" ++ name) (generateTags lib s)) /\
  (forall t, In t (generateTags lib s) ->
     (exists name, is_Some (Tools s !! name) /\ t = "tool:" ++ name) \/
     In t ["debugging"; "refactoring"; "feature"; "testing"; "documentation"]).
Proof.
  unfold generateTags.
  set (content := fold_left _ _ _).
  destruct (pattern_tags_sub (fun _ kws => existsb (Contains content) kws) tag_patterns)
    as [Hd Hi]; [apply (bool_decide_unpack _); vm_compute; reflexivity|].
  set (ptags := flat_map _ tag_patterns) in *.
  assert (Htool : forall t, In t (map (fun kv => "tool:" ++ fst kv) (map_to_list (Tools s))) <->
                            exists name, is_Some (Tools s !! name) /\ t = "tool:" ++ name).
  { intros t. rewrite in_map_iff. split.
    - intros ([k v] & <- & Hkv). apply list_elem_of_In, elem_of_map_to_list in Hkv.
      exists k. split; [exists v; exact Hkv|reflexivity].
    - intros (k & [v Hv] & ->). exists (k, v). split; [reflexivity|].
      apply list_elem_of_In, elem_of_map_to_list. exact Hv. }
  split; [|split].
  - apply NoDup_app. split; [|split].
    + replace (map (fun kv => "tool:" ++ fst kv) (map_to_list (Tools s)))
        with ((fun k => "tool:" ++ k) <$> ((map_to_list (Tools s)).*1))
        by (clear; induction (map_to_list (Tools s)) as [|kv l IH]; cbn; [reflexivity|rewrite IH; reflexivity]).
      apply NoDup_fmap_2_strong; [|apply NoDup_fst_map_to_list].
      intros a b _ _ Hab. inversion Hab as [Hab0]. exact Hab0.
    + intros t Ht1 Ht2. apply list_elem_of_In in Ht1, Ht2.
      apply Htool in Ht1. destruct Ht1 as (k & _ & ->).
      apply Hi in Ht2. cbn in Ht2. intuition discriminate.
    + exact Hd.
  - intros name Hn. apply in_or_app. left. apply Htool. eauto.
  - intros t Ht. apply in_app_or in Ht. destruct Ht as [Ht|Ht]; [left; apply Htool, Ht|right].
    apply Hi in Ht. exact Ht.
Qed.

(** ** ParsePlan *)

Lemma find_none {A} (f : A -> bool) l : (forall x, In x l -> f x = false) -> List.find f l = None.
Proof.
  induction l as [|x l IH]; intros H; cbn; [reflexivity|].
  rewrite (H x (or_introl eq_refl)). apply IH. intros y Hy. apply H. right. exact Hy.
Qed.

(** X10: [ParsePlan] returns nil exactly when reading the file or
    [os.Stat] fails. Otherwise the plan's name is
    [filepath.Base(strings.TrimSuffix(path, ".md"))], the key [syncPlans]
    looks up and marks in its plan map, its content is the file's text
    unchanged, its [CreatedAt] is the file's modification time, and when
    no line starts with "# " its title is its name. *)
Theorem ParsePlan_fields (lib : GoLib) (path : string) (read : option string) (st : stat_result) :
  (ParsePlan lib path read st = None <-> read = None \/ forall mt, st <> StatOk mt) /\
  (forall content mt p, ParsePlan lib path (Some content) (StatOk mt) = Some p ->
     plan_Name p = Watcher.planName path /\ plan_Content p = content /\ plan_CreatedAt p = mt /\
     ((forall l, In l (Split content nl) -> HasPrefix l "# " = false) -> plan_Title p = plan_Name p)).
Proof.
  split.
  - unfold ParsePlan. destruct read as [content|]; [|split; auto].
    destruct st as [mt| |]; split; intros H; try discriminate.
    + destruct H as [H|H]; [discriminate|]. destruct (H mt eq_refl).
    + right. intros mt H'. discriminate H'.
    + reflexivity.
    + right. intros mt H'. discriminate H'.
    + reflexivity.
  - intros content mt p H. unfold ParsePlan in H. injection H as <-. cbn.
    split; [reflexivity|]. split; [reflexivity|]. split; [reflexivity|].
    intros Hh. rewrite (find_none _ _ Hh). reflexivity.
Qed.

Lemma ParsePlan_fields_witness :
  ParsePlan ascii_lib "/root/.claude/plans/p.md" (Some "no heading") (StatOk 7%Z)
    = Some (Build_Plan "p" "p" "no heading" 7%Z) /\
  plan_Name (Build_Plan "p" "p" "no heading" 7%Z) = Watcher.planName "/root/.claude/plans/p.md".
Proof.
  split; [reflexivity|].
  exact (proj1 (proj2 (ParsePlan_fields ascii_lib "/root/.claude/plans/p.md" (Some "no heading") (StatOk 7%Z))
                  "no heading" 7%Z _ eq_refl)).
Defined.

(** ** File discovery *)

Lemma tree_files_suffix suffix d : forall path f,
  In f (Props.tree_files suffix path d) -> HasSuffix f suffix = true.
Proof.
  induction d as [n | n r cs Hcs] using Props.dentry_ind'; intros path f Hf; cbn in Hf.
  - destruct (HasSuffix path suffix) eqn:E; [destruct Hf as [<-|[]]; exact E | destruct Hf].
  - induction Hcs as [|c cs0 Hc Hcs0 IH]; [destruct Hf|].
    apply in_app_or in Hf. destruct Hf as [Hf|Hf]; [exact (Hc _ _ Hf) | exact (IH Hf)].
Qed.

(** X11: every path [findSessions] returns ends in ".jsonl", every path
    [findPlans] returns ends in ".md", whatever the tree holds. *)
Theorem found_files_suffix (dir : string) (t : option Walk.dentry) :
  (forall f, In f (fst (Walk.findSessions dir t)) -> HasSuffix f ".jsonl" = true) /\
  (forall f, In f (fst (Walk.findPlans dir t)) -> HasSuffix f ".md" = true).
Proof.
  rewrite findSessions_spec, findPlans_spec. cbn [fst].
  destruct t as [d|]; split; intros f Hf; try destruct Hf; eapply tree_files_suffix; exact Hf.
Qed.

(** ** The files a pass parses *)

Lemma parse_filter_run lib w sh l acc e :
  Watcher.e_trace (fst (Watcher.parse_filter lib w sh l acc e))
    = (Watcher.e_trace e ++ map Watcher.EvParse l)%list /\
  exists out, snd (Watcher.parse_filter lib w sh l acc e) = Watcher.Ok out.
Proof.
  revert acc e. induction l as [|f fs IH]; intros acc e.
  - cbn. rewrite app_nil_r. eauto.
  - assert (Hstep : exists acc' e2,
              Watcher.parse_filter lib w sh (f :: fs) acc e = Watcher.parse_filter lib w sh fs acc' e2 /\
              Watcher.e_trace e2 = (Watcher.e_trace e ++ [Watcher.EvParse f])%list).
    { cbn [Watcher.parse_filter]. unfold Watcher.bind at 1, Watcher.emit at 1.
      destruct (ParseJSONL lib f (Watcher.w_open w f)) as [[s|] [err|]];
        [|destruct (Filter.Apply sh s) as [s'|]| |];
        (eexists _, _; split; [reflexivity|reflexivity]). }
    destruct Hstep as (acc' & e2 & -> & Ht2). destruct (IH acc' e2) as [Ht Hr].
    rewrite Ht, Ht2, <- app_assoc. split; [reflexivity|exact Hr].
Qed.

Lemma bind_trace {A B} P (m : Watcher.M A) (k : A -> Watcher.M B) e pre evs1 :
  Watcher.e_trace (fst (m e)) = (Watcher.e_trace e ++ pre ++ evs1)%list -> Forall P evs1 ->
  (forall a, Props.emits P (k a)) ->
  exists evs, Watcher.e_trace (fst (Watcher.bind m k e)) = (Watcher.e_trace e ++ pre ++ evs)%list /\
              Forall P evs.
Proof.
  intros Ht Hf Hk. unfold Watcher.bind.
  destruct (m e) as [e1 [a|msg|msg]]; cbn [fst] in *; [|eauto|eauto].
  destruct (Hk a e1) as (evs2 & Ht2 & Hf2). exists (evs1 ++ evs2)%list.
  rewrite Ht2, Ht, !app_assoc. split; [reflexivity|]. apply Forall_app. auto.
Qed.

Lemma parses_app l1 l2 : Props.parses (l1 ++ l2) = (Props.parses l1 ++ Props.parses l2)%list.
Proof. apply flat_map_app. Qed.

Lemma parses_none evs : Forall Props.not_parse evs -> Props.parses evs = [].
Proof. induction 1 as [|x xs Hx _ IH]; [reflexivity|]. destruct x; try contradiction; exact IH. Qed.

Lemma parses_map l : Props.parses (map Watcher.EvParse l) = l.
Proof. induction l as [|x l IH]; cbn; [reflexivity|]. f_equal. exact IH. Qed.

Lemma sync_trace_parses lib w cfg e :
  let projectsDir := PathJoin (Watcher.w_logsPath w) "projects" in
  exists evs,
    Watcher.e_trace (fst (Watcher.sync lib w cfg e)) =
      (Watcher.e_trace e ++
       map Watcher.EvParse (Watcher.new_session_files (Watcher.SyncedSessions (Watcher.e_state e))
                              (fst (Walk.findSessions projectsDir (Watcher.w_tree w projectsDir)))) ++
       evs)%list /\ Forall Props.not_parse evs.
Proof.
  cbv zeta. unfold Watcher.sync. rewrite findSessions_spec. cbn [fst snd].
  set (files := match Watcher.w_tree w (PathJoin (Watcher.w_logsPath w) "projects") with
                | Some d => Props.tree_files ".jsonl" (PathJoin (Watcher.w_logsPath w) "projects") d
                | None => []
                end).
  assert (Hrest : Props.emits Props.not_parse
    (Watcher.bind (Watcher.log_err (Watcher.syncPlans lib w cfg))
       (fun _ => Watcher.bind Watcher.now (fun t => Watcher.bind Watcher.get_state (fun st =>
          Watcher.bind (Watcher.put_state (Watcher.Build_SyncState (Watcher.SyncedSessions st)
                                             (Watcher.SyncedPlans st) t))
            (fun _ => Watcher.saveState w)))))).
  { apply (emits_bind _ (fun _ => True)); auto with frame.
    - apply emits_log_err. apply emits_syncPlans; intros; exact I.
    - intros [] _. apply (emits_bind _ (fun _ => True)); auto with frame. intros t _.
      apply (emits_bind _ (fun _ => True)); auto with frame. intros st _.
      apply (emits_bind _ (fun _ => True)); auto with frame. }
  assert (Hs : exists evs1,
    Watcher.e_trace (fst (Watcher.sync_sessions lib w cfg files e)) =
      (Watcher.e_trace e ++
       map Watcher.EvParse (Watcher.new_session_files (Watcher.SyncedSessions (Watcher.e_state e)) files) ++
       evs1)%list /\ Forall Props.not_parse evs1).
  { unfold Watcher.sync_sessions. rewrite bind_get_state.
    destruct (Watcher.new_session_files (Watcher.SyncedSessions (Watcher.e_state e)) files) as [|g gs].
    + exists []. cbn. rewrite app_nil_r. split; [reflexivity|constructor].
    + destruct (parse_filter_run lib w (Watcher.Sharing cfg) (g :: gs) [] e) as [Ht [out Hr]].
      unfold Watcher.bind at 1.
      destruct (Watcher.parse_filter lib w (Watcher.Sharing cfg) (g :: gs) [] e) as [e1 o].
      cbn [snd fst] in Hr, Ht. subst o.
      assert (Hu : Props.emits Props.not_parse
                     (match out with [] => Watcher.ret tt | _ :: _ => Watcher.upload_sessions w cfg out end)).
      { destruct out as [|x xs]; [apply emits_ret|].
        unfold Watcher.upload_sessions, Watcher.upload_all.
        eapply emits_weaken; [|apply (emits_batches ID Watcher.mark_session (Watcher.w_upload w)
                                        Watcher.EvUpload (fun P k t => emits_mark_session P k t))].
        intros x' [(b & -> & _)|(n & ->)]; exact I. }
      destruct (Hu e1) as (evs & Ht2 & Hf2). exists evs. rewrite Ht2, Ht, <- app_assoc.
      split; [reflexivity|exact Hf2]. }
  destruct Hs as (evs1 & Hs & Hf1).
  exact (bind_trace Props.not_parse _ _ e _ evs1 Hs Hf1 (fun _ => Hrest)).
Qed.

Lemma sync_parses lib w cfg e :
  let projectsDir := PathJoin (Watcher.w_logsPath w) "projects" in
  Props.parses (Watcher.events_of e (Watcher.sync lib w cfg e)) =
    Watcher.new_session_files (Watcher.SyncedSessions (Watcher.e_state e))
      (fst (Walk.findSessions projectsDir (Watcher.w_tree w projectsDir))).
Proof.
  cbv zeta. destruct (sync_trace_parses lib w cfg e) as (evs & Ht & Hf).
  rewrite (events_of_emits _ _ _ Ht), parses_app, parses_map, parses_none by exact Hf.
  apply app_nil_r.
Qed.

Lemma new_session_files_empty files : Watcher.new_session_files ∅ files = files.
Proof.
  unfold Watcher.new_session_files. induction files as [|f fs IH]; cbn; [reflexivity|].
  rewrite lookup_empty. f_equal. exact IH.
Qed.

(** X12: a pass parses each candidate file once, in the order the walk
    found them, and no other file. [SyncOnce] therefore parses the found
    files whose session ID is not in the map it loaded; when the state
    file is missing, cannot be read or does not decode, it starts from an
    empty map and parses every session file found. *)
Theorem SyncOnce_parses (lib : GoLib) (w : Watcher.World) (cfg : Watcher.Config)
  (f : Watcher.state_file) (e : Watcher.Env) :
  let projectsDir := PathJoin (Watcher.w_logsPath w) "projects" in
  let files := fst (Walk.findSessions projectsDir (Watcher.w_tree w projectsDir)) in
  Props.parses (Watcher.events_of e (Watcher.sync lib w cfg e)) =
    Watcher.new_session_files (Watcher.SyncedSessions (Watcher.e_state e)) files /\
  Props.parses (Watcher.events_of e (Watcher.SyncOnce lib w cfg f e)) =
    match f with
    | Watcher.StateData st None => Watcher.new_session_files (Watcher.SyncedSessions st) files
    | _ => files
    end.
Proof.
  cbv zeta. split; [apply sync_parses|].
  set (e1 := fst (Watcher.load_or_empty f e)).
  assert (Hr : Watcher.SyncOnce lib w cfg f e = Watcher.sync lib w cfg e1 /\
               Watcher.e_trace e1 = Watcher.e_trace e /\
               Watcher.SyncedSessions (Watcher.e_state e1) =
                 match f with Watcher.StateData st None => Watcher.SyncedSessions st | _ => ∅ end).
  { unfold e1, Watcher.SyncOnce, Watcher.load_or_empty, Watcher.loadState.
    destruct f as [|msg|st [msg|]]; repeat split. }
  destruct Hr as (-> & Ht & Hs).
  unfold Watcher.events_of. rewrite <- Ht. fold (Watcher.events_of e1 (Watcher.sync lib w cfg e1)).
  rewrite sync_parses, Hs.
  destruct f as [|msg|st [msg|]]; try apply new_session_files_empty; reflexivity.
Qed.

(** ** End of a pass: LastSync and saveState *)

(** X13: a pass that returns no error has saved the state it ends with,
    and that state's [LastSync] is the time the pass ended: the state
    file was written ([saveState] succeeded) after [LastSync] was set,
    whatever the session and plan parts did. *)
Theorem sync_saves_final_state (lib : GoLib) (w : Watcher.World) (cfg : Watcher.Config) (e : Watcher.Env) :
  snd (Watcher.sync lib w cfg e) = Watcher.Ok tt ->
  Watcher.w_save_ok w = true /\
  Watcher.e_saved (fst (Watcher.sync lib w cfg e)) = Some (Watcher.e_state (fst (Watcher.sync lib w cfg e))) /\
  Watcher.LastSync (Watcher.e_state (fst (Watcher.sync lib w cfg e))) = Watcher.e_clock (fst (Watcher.sync lib w cfg e)).
Proof.
  remember (Watcher.sync lib w cfg e) as r eqn:Er. intros H.
  unfold Watcher.sync in Er. rewrite findSessions_spec in Er. cbn [fst snd] in Er.
  unfold Watcher.bind in Er.
  destruct (Watcher.sync_sessions lib w cfg _ e) as [e1 [[]|m|m]]; [|subst r; discriminate H|subst r; discriminate H].
  destruct (Watcher.log_err (Watcher.syncPlans lib w cfg) e1) as [e2 [[]|m|m]];
    [|subst r; discriminate H|subst r; discriminate H].
  unfold Watcher.now, Watcher.get_state, Watcher.put_state, Watcher.saveState in Er. cbn in Er.
  destruct (Watcher.w_save_ok w); subst r; [|discriminate H].
  split; [reflexivity|split; reflexivity].
Qed.

Lemma sync_saves_final_state_witness :
  snd (Watcher.sync ascii_lib (Samples.world_no_projects true) (Samples.config "metadata" 3)
         (Samples.env0 ∅)) = Watcher.Ok tt /\
  Watcher.w_save_ok (Samples.world_no_projects true) = true /\
  Watcher.e_saved (fst (Watcher.sync ascii_lib (Samples.world_no_projects true) (Samples.config "metadata" 3)
                          (Samples.env0 ∅))) =
    Some (Watcher.e_state (fst (Watcher.sync ascii_lib (Samples.world_no_projects true)
                                  (Samples.config "metadata" 3) (Samples.env0 ∅)))) /\
  Watcher.LastSync (Watcher.e_state (fst (Watcher.sync ascii_lib (Samples.world_no_projects true)
                                          (Samples.config "metadata" 3) (Samples.env0 ∅)))) =
    Watcher.e_clock (fst (Watcher.sync ascii_lib (Samples.world_no_projects true)
                            (Samples.config "metadata" 3) (Samples.env0 ∅))).
Proof.
  assert (H : snd (Watcher.sync ascii_lib (Samples.world_no_projects true) (Samples.config "metadata" 3)
                     (Samples.env0 ∅)) = Watcher.Ok tt) by (vm_compute; reflexivity).
  split; [exact H|].
  exact (sync_saves_final_state ascii_lib (Samples.world_no_projects true) (Samples.config "metadata" 3)
           (Samples.env0 ∅) H).
Defined.

(** ** The maps of the state only grow *)

Section Grows.
Variable st0 : Watcher.SyncState.
Let J st :=
  (forall k, is_Some (Watcher.SyncedSessions st0 !! k) -> is_Some (Watcher.SyncedSessions st !! k)) /\
  (forall k, is_Some (Watcher.SyncedPlans st0 !! k) -> is_Some (Watcher.SyncedPlans st !! k)).

Lemma grows_session st k t :
  J st -> J (Watcher.Build_SyncState (<[k := t]> (Watcher.SyncedSessions st)) (Watcher.SyncedPlans st)
               (Watcher.LastSync st)).
Proof.
  intros [Hs Hp]. split; [|exact Hp]. intros k' Hk'. cbn [Watcher.SyncedSessions].
  rewrite lookup_insert_is_Some'. right. apply Hs, Hk'.
Qed.

Lemma grows_plan st k t :
  J st -> J (Watcher.Build_SyncState (Watcher.SyncedSessions st) (<[k := t]> (Watcher.SyncedPlans st))
               (Watcher.LastSync st)).
Proof.
  intros [Hs Hp]. split; [exact Hs|]. intros k' Hk'. cbn [Watcher.SyncedPlans].
  rewrite lookup_insert_is_Some'. right. apply Hp, Hk'.
Qed.

Lemma grows_last st t :
  J st -> J (Watcher.Build_SyncState (Watcher.SyncedSessions st) (Watcher.SyncedPlans st) t).
Proof. auto. Qed.

Lemma grows_sync lib w cfg e :
  Watcher.e_state e = st0 -> J (Watcher.e_state (fst (Watcher.sync lib w cfg e))).
Proof.
  intros He. apply (keeps_sync J grows_session grows_plan grows_last).
  rewrite He. split; auto.
Qed.

End Grows.

Lemma size_grows (m1 m2 : gmap string Z) :
  (forall k, is_Some (m1 !! k) -> is_Some (m2 !! k)) -> size m1 <= size m2.
Proof.
  intros H. rewrite <- !size_dom. apply subseteq_size. intros k Hk.
  apply elem_of_dom. apply H. apply elem_of_dom. exact Hk.
Qed.

(** X14: a pass never removes a session ID or a plan name from the maps
    of the state, whether it succeeds, returns an error or panics; so the
    counts [GetStats] reports for the state after the pass are at least
    those for the state before it. *)
Theorem sync_never_forgets (lib : GoLib) (w : Watcher.World) (cfg : Watcher.Config) (e : Watcher.Env) :
  let st := Watcher.e_state e in
  let st' := Watcher.e_state (fst (Watcher.sync lib w cfg e)) in
  (forall k, is_Some (Watcher.SyncedSessions st !! k) -> is_Some (Watcher.SyncedSessions st' !! k)) /\
  (forall k, is_Some (Watcher.SyncedPlans st !! k) -> is_Some (Watcher.SyncedPlans st' !! k)) /\
  (forall e0,
     Watcher.TotalSynced (Watcher.GetStats (Watcher.StateData st None) e0) <=
       Watcher.TotalSynced (Watcher.GetStats (Watcher.StateData st' None) e0) /\
     Watcher.TotalPlansSynced (Watcher.GetStats (Watcher.StateData st None) e0) <=
       Watcher.TotalPlansSynced (Watcher.GetStats (Watcher.StateData st' None) e0)).
Proof.
  cbv zeta. destruct (grows_sync (Watcher.e_state e) lib w cfg e eq_refl) as [Hs Hp].
  split; [exact Hs|]. split; [exact Hp|]. intros e0. cbn.
  split; apply size_grows; assumption.
Qed.

(** ** Marking acknowledged sessions *)


(** ** Passes of Start *)





(** ** setupLogger: the directory it creates *)

Lemma Split_app_sep s b sep : Split (s ++ String sep b) sep = (Split s sep ++ Split b sep)%list.
Proof.
  induction s as [|a s IH]; simpl.
  - rewrite Ascii.eqb_refl. reflexivity.
  - rewrite IH. destruct (Ascii.eqb a sep); [reflexivity|].
    destruct (Split s sep) as [|r rs] eqn:E; [destruct (Split_nonempty s sep E)|reflexivity].
Qed.

Lemma Split_single s sep : contains_byte s sep = false -> Split s sep = [s].
Proof.
  induction s as [|a s IH]; cbn; intros H; [reflexivity|].
  apply orb_false_iff in H. destruct H as [H1 H2]. rewrite H1, (IH H2). reflexivity.
Qed.

Lemma last_app_ne {A} (l1 l2 : list A) d : l2 <> [] -> List.last (l1 ++ l2) d = List.last l2 d.
Proof.
  intros H. induction l1 as [|x l1 IH]; [reflexivity|].
  cbn [app]. rewrite <- IH. destruct (l1 ++ l2)%list eqn:E; [|reflexivity].
  apply app_eq_nil in E. destruct E as [_ E]. contradiction.
Qed.

Lemma length_append (a b : string) : String.length (a ++ b) = String.length a + String.length b.
Proof. induction a as [|c a IH]; [reflexivity|exact (f_equal S IH)]. Qed.

Lemma substring_append_r (a b : string) m : substring (String.length a) m (a ++ b) = substring 0 m b.
Proof. induction a as [|c a IH]; [reflexivity|exact IH]. Qed.

Lemma substring_full (b : string) : substring 0 (String.length b) b = b.
Proof. induction b as [|c b IH]; cbn; [reflexivity|rewrite IH; reflexivity]. Qed.

Lemma substring_append_l (a b : string) : substring 0 (String.length a) (a ++ b) = a.
Proof. induction a as [|c a IH]; [destruct b; reflexivity|exact (f_equal (String c) IH)]. Qed.

Lemma TrimSuffix_append d suf : TrimSuffix (d ++ suf) suf = d.
Proof.
  unfold TrimSuffix, HasSuffix. cbv zeta. rewrite length_append.
  replace (String.length d + String.length suf - String.length suf) with (String.length d) by lia.
  rewrite substring_append_r, substring_full, String.eqb_refl.
  replace (Nat.leb (String.length suf) (String.length d + String.length suf)) with true
    by (symmetry; apply Nat.leb_le; lia).
  apply substring_append_l.
Qed.

Lemma TrimSuffix_longer s suf : String.length s < String.length suf -> TrimSuffix s suf = s.
Proof.
  intros H. unfold TrimSuffix, HasSuffix. cbv zeta.
  replace (Nat.leb (String.length suf) (String.length s)) with false
    by (symmetry; apply Nat.leb_gt; lia).
  reflexivity.
Qed.

Lemma log_dir_join d f : contains_byte f slash = false -> Agent.log_dir (d ++ String slash f) = d.
Proof.
  intros Hf. unfold Agent.log_dir.
  rewrite Split_app_sep, last_app_ne by apply Split_nonempty.
  rewrite (Split_single f slash Hf). cbn [List.last].
  exact (TrimSuffix_append d (String slash f)).
Qed.

(** X17: for a log file [d/f] whose last element [f] holds no '/',
    [setupLogger] creates the directory [d] and logs to [d/f] when it can
    be opened, else to stdout; a file "~/f" is opened in the home
    directory, which it creates. *)
Theorem setupLogger_dir (home : string) (open_ok : string -> string -> bool) (d f : string) :
  contains_byte f slash = false ->
  HasPrefix (d ++ String slash f) "~" = false ->
  Agent.setupLogger home open_ok (d ++ String slash f) =
    ((if open_ok d (d ++ String slash f) then Agent.LogFile (d ++ String slash f) else Agent.Stdout),
     Some (d, d ++ String slash f)) /\
  Agent.setupLogger home open_ok (String "~" (String slash f)) =
    ((if open_ok home (home ++ String slash f) then Agent.LogFile (home ++ String slash f) else Agent.Stdout),
     Some (home, home ++ String slash f)).
Proof.
  intros Hf Hp. split.
  - unfold Agent.setupLogger.
    replace (String.eqb (d ++ String slash f) "") with false by (destruct d; reflexivity).
    cbn [negb]. rewrite Hp. rewrite (log_dir_join d f Hf). reflexivity.
  - unfold Agent.setupLogger.
    change (String.eqb (String "~" (String slash f)) "") with false.
    change (HasPrefix (String "~" (String slash f)) "~") with true.
    cbv beta iota zeta.
    change (Agent.replace_first (String "~" (String slash f)) "~" home) with (home ++ String slash f).
    rewrite (log_dir_join home f Hf). reflexivity.
Qed.

Lemma setupLogger_dir_witness :
  contains_byte "agent.log" slash = false /\
  HasPrefix ("/var/log/insights" ++ String slash "agent.log") "~" = false /\
  Agent.setupLogger "/home/bob" (fun _ _ => true) ("/var/log/insights" ++ String slash "agent.log") =
    (Agent.LogFile ("/var/log/insights" ++ String slash "agent.log"),
     Some ("/var/log/insights", "/var/log/insights" ++ String slash "agent.log")).
Proof.
  assert (H1 : contains_byte "agent.log" slash = false) by reflexivity.
  assert (H2 : HasPrefix ("/var/log/insights" ++ String slash "agent.log") "~" = false) by reflexivity.
  split; [exact H1|]. split; [exact H2|].
  exact (proj1 (setupLogger_dir "/home/bob" (fun _ _ => true) "/var/log/insights" "agent.log" H1 H2)).
Defined.

(** X18: for a log file name with no '/' (a bare name such as
    "agent.log", not starting with '~'), [setupLogger] passes the log
    path itself to [os.MkdirAll], not its directory: the file name is
    both the directory it creates and the file it opens. *)
Theorem setupLogger_bare_name (home : string) (open_ok : string -> string -> bool) (f : string) :
  f <> "" -> contains_byte f slash = false -> HasPrefix f "~" = false ->
  Agent.setupLogger home open_ok f =
    ((if open_ok f f then Agent.LogFile f else Agent.Stdout), Some (f, f)).
Proof.
  intros Hne Hf Hp. unfold Agent.setupLogger.
  replace (String.eqb f "") with false by (destruct f; [contradiction|reflexivity]).
  cbn [negb]. rewrite Hp. unfold Agent.log_dir. rewrite (Split_single f slash Hf). cbn [List.last].
  rewrite (TrimSuffix_longer f (String slash f)) by (cbn; lia). reflexivity.
Qed.

Lemma setupLogger_bare_name_witness :
  "agent.log" <> "" /\ contains_byte "agent.log" slash = false /\ HasPrefix "agent.log" "~" = false /\
  Agent.setupLogger "/home/bob" (fun _ _ => true) "agent.log" =
    (Agent.LogFile "agent.log", Some ("agent.log", "agent.log")).
Proof.
  assert (H0 : "agent.log" <> "") by discriminate.
  assert (H1 : contains_byte "agent.log" slash = false) by reflexivity.
  assert (H2 : HasPrefix "agent.log" "~" = false) by reflexivity.
  split; [exact H0|]. split; [exact H1|]. split; [exact H2|].
  exact (setupLogger_bare_name "/home/bob" (fun _ _ => true) "agent.log" H0 H1 H2).
Defined.

(** ** No retry attempts *)








(** ** A file that fails to parse is tried again *)

Section NotMarked.
Variable id : string.
Let I st := Watcher.SyncedSessions st !! id = None.

Lemma nm_insert st k t :
  k <> id -> I st ->
  I (Watcher.Build_SyncState (<[k := t]> (Watcher.SyncedSessions st)) (Watcher.SyncedPlans st)
       (Watcher.LastSync st)).
Proof. unfold I. cbn [Watcher.SyncedSessions]. intros Hk H. rewrite lookup_insert_ne by exact Hk. exact H. Qed.

Lemma nm_plan st k t :
  I st -> I (Watcher.Build_SyncState (Watcher.SyncedSessions st) (<[k := t]> (Watcher.SyncedPlans st))
               (Watcher.LastSync st)).
Proof. auto. Qed.

Lemma nm_last st t :
  I st -> I (Watcher.Build_SyncState (Watcher.SyncedSessions st) (Watcher.SyncedPlans st) t).
Proof. auto. Qed.

Lemma keeps_mark_acks_nm (b : list Session) (rs : list Watcher.SessionResponse) :
  Forall (fun x => ID x <> id) b -> Props.keeps I (Watcher.mark_acks ID Watcher.mark_session b rs).
Proof.
  intros Hb. revert rs. induction Hb as [|x xs Hx Hxs IH]; intros [|r rs]; cbn; auto with frame.
  apply (keeps_bind _ (fun _ => True)); auto with frame. intros t _.
  apply (keeps_bind _ (fun _ => True)); auto with frame.
  apply keeps_mark_session. intros st. apply nm_insert. exact Hx.
Qed.

Lemma keeps_upload_sessions_nm w cfg l :
  Forall (fun x => ID x <> id) l -> Props.keeps I (Watcher.upload_sessions w cfg l).
Proof.
  intros Hl. unfold Watcher.upload_sessions, Watcher.upload_all.
  generalize (S (length l)) as fuel, 0%nat as i. intros fuel.
  induction fuel as [|n IH]; intros i; cbn [Watcher.batches]; auto with frame.
  destruct (Nat.ltb i (length l)); auto with frame. cbv zeta.
  apply (keeps_bind _ (fun _ => True)); auto with frame.
  assert (Hb : Forall (fun x => ID x <> id)
                 (Watcher.go_slice l i (Nat.min (i + Watcher.batchSize) (length l))))
    by (unfold Watcher.go_slice; apply Forall_take, Forall_drop, Hl).
  revert Hb. generalize (Watcher.go_slice l i (Nat.min (i + Watcher.batchSize) (length l))) as batch.
  intros batch Hb. unfold Watcher.deliver_batch.
  generalize (S (Z.to_nat (Watcher.RetryAttempts cfg))) as fuel', 1%Z as a, (@None string) as err.
  intros fuel'. induction fuel' as [|n' IH']; intros a err; cbn [Watcher.attempts]; auto with frame.
  destruct (a <=? Watcher.RetryAttempts cfg)%Z; auto with frame.
  apply (keeps_bind _ (fun _ => True)); auto with frame. intros [msg|rs] _.
  - apply (keeps_bind _ (fun _ => True)); auto with frame.
  - apply (keeps_bind _ (fun _ => True)); auto with frame. apply keeps_mark_acks_nm. exact Hb.
Qed.

Lemma keeps_parse_filter_nm lib w sh l acc :
  (forall f, In f l -> Watcher.sessionID f = id ->
             forall s, ParseJSONL lib f (Watcher.w_open w f) <> (Some s, None)) ->
  Props.keeps I (Watcher.parse_filter lib w sh l acc).
Proof.
  revert acc. induction l as [|x xs IH]; intros acc Hl; cbn; auto with frame.
  assert (IH' : forall acc, Props.keeps I (Watcher.parse_filter lib w sh xs acc))
    by (intros; apply IH; intros f Hf; apply Hl; right; exact Hf).
  apply (keeps_bind _ (fun _ => True)); auto with frame. intros [] _.
  destruct (ParseJSONL lib x (Watcher.w_open w x)) as [[s|] [err|]] eqn:Hp; auto.
  destruct (Filter.Apply sh s); auto.
  apply (keeps_bind _ (fun _ => True)); auto with frame. intros t _.
  apply (keeps_bind _ (fun _ => True)); auto with frame.
  apply keeps_mark_session. intros st. apply nm_insert.
  intros Heq. rewrite (ParseJSONL_ID _ _ _ _ _ Hp) in Heq. exact (Hl x (or_introl eq_refl) Heq s Hp).
Qed.

Lemma keeps_sync_sessions_nm lib w cfg files :
  (forall f, In f files -> Watcher.sessionID f = id ->
             forall s, ParseJSONL lib f (Watcher.w_open w f) <> (Some s, None)) ->
  Props.keeps I (Watcher.sync_sessions lib w cfg files).
Proof.
  intros Hf e He. unfold Watcher.sync_sessions. rewrite bind_get_state.
  remember (Watcher.new_session_files (Watcher.SyncedSessions (Watcher.e_state e)) files) as nf eqn:Enf.
  assert (Hnf : forall f, In f nf -> In f files)
    by (intros f Hin; rewrite Enf in Hin; apply In_new_session_files in Hin; destruct Hin as [Hin _]; exact Hin).
  destruct nf as [|g gs]; [exact He|].
  refine (keeps_bind I (fun out => Forall (fun x => ID x <> id) out) _ _ _ _ _ e He).
  - apply keeps_parse_filter_nm. intros f Hin. apply Hf, Hnf, Hin.
  - eapply returns_weaken; [|apply returns_parse_filter]. intros out Hout. apply List.Forall_forall.
    intros x Hx. destruct (Hout x Hx) as [[]|(g' & s & Hg & Hp & Ha)].
    rewrite (Apply_ID _ _ _ Ha), (ParseJSONL_ID _ _ _ _ _ Hp). intros Heq.
    exact (Hf g' (Hnf g' Hg) Heq s Hp).
  - intros [|x xs] Hx; auto with frame. apply keeps_upload_sessions_nm. exact Hx.
Qed.

End NotMarked.

(** X20: a session whose files all fail to parse in a pass (the file
    cannot be opened or the scanner reports an error) is not marked by
    that pass, even when it is excluded by the filter: its ID is still
    missing from the session map afterwards, so each of its files is a
    candidate again in the next pass. *)
Theorem failed_parse_retried (lib : GoLib) (w : Watcher.World) (cfg : Watcher.Config) (e : Watcher.Env)
  (id : string) :
  Watcher.SyncedSessions (Watcher.e_state e) !! id = None ->
  (forall f, In f (fst (Walk.findSessions (PathJoin (Watcher.w_logsPath w) "projects")
                          (Watcher.w_tree w (PathJoin (Watcher.w_logsPath w) "projects")))) ->
             Watcher.sessionID f = id ->
             forall s, ParseJSONL lib f (Watcher.w_open w f) <> (Some s, None)) ->
  Watcher.SyncedSessions (Watcher.e_state (fst (Watcher.sync lib w cfg e))) !! id = None /\
  (forall f, In f (fst (Walk.findSessions (PathJoin (Watcher.w_logsPath w) "projects")
                          (Watcher.w_tree w (PathJoin (Watcher.w_logsPath w) "projects")))) ->
             Watcher.sessionID f = id ->
             In f (Watcher.new_session_files
                     (Watcher.SyncedSessions (Watcher.e_state (fst (Watcher.sync lib w cfg e))))
                     (fst (Walk.findSessions (PathJoin (Watcher.w_logsPath w) "projects")
                             (Watcher.w_tree w (PathJoin (Watcher.w_logsPath w) "projects")))))).
Proof.
  intros Hid Hf.
  assert (Hk : Watcher.SyncedSessions (Watcher.e_state (fst (Watcher.sync lib w cfg e))) !! id = None).
  { unfold Watcher.sync. rewrite findSessions_spec in Hf |- *. cbn [fst snd] in Hf |- *.
    refine (keeps_bind (fun st => Watcher.SyncedSessions st !! id = None) (fun _ => True) _ _ _ _ _ e Hid).
    - apply keeps_sync_sessions_nm. exact Hf.
    - apply returns_any.
    - intros _ _. apply (keeps_sync_tail _ (nm_plan id) (nm_last id)). }
  split; [exact Hk|]. intros f Hin Heq. apply In_new_session_files. split; [exact Hin|].
  rewrite Heq. exact Hk.
Qed.

Lemma failed_parse_retried_witness :
  Watcher.SyncedSessions (Watcher.e_state (Samples.env0 ∅)) !! "abc" = None /\
  (forall f, In f (fst (Walk.findSessions (PathJoin "/root/.claude" "projects")
                          (Some (Samples.projects_tree [("abc.jsonl", "")])))) ->
             Watcher.sessionID f = "abc" ->
             forall s, ParseJSONL ascii_lib f None <> (Some s, None)) /\
  Watcher.SyncedSessions
    (Watcher.e_state (fst (Watcher.sync ascii_lib
       {| Watcher.w_logsPath := "/root/.claude";
          Watcher.w_tree := fun _ => Some (Samples.projects_tree [("abc.jsonl", "")]);
          Watcher.w_stat := fun _ => StatNotExist;
          Watcher.w_open := fun _ => None;
          Watcher.w_readfile := fun _ => None;
          Watcher.w_upload := Samples.ack_all;
          Watcher.w_upload_plans := fun _ _ => inr [];
          Watcher.w_save_ok := true |} (Samples.config "full" 3) (Samples.env0 ∅)))) !! "abc" = None.
Proof.
  assert (H1 : Watcher.SyncedSessions (Watcher.e_state (Samples.env0 ∅)) !! "abc" = None) by reflexivity.
  assert (H2 : forall f, In f (fst (Walk.findSessions (PathJoin "/root/.claude" "projects")
                                      (Some (Samples.projects_tree [("abc.jsonl", "")])))) ->
                         Watcher.sessionID f = "abc" ->
                         forall s, ParseJSONL ascii_lib f None <> (Some s, None))
    by (intros f _ _ s H; discriminate H).
  split; [exact H1|]. split; [exact H2|].
  exact (proj1 (failed_parse_retried ascii_lib
    {| Watcher.w_logsPath := "/root/.claude";
       Watcher.w_tree := fun _ => Some (Samples.projects_tree [("abc.jsonl", "")]);
       Watcher.w_stat := fun _ => StatNotExist;
       Watcher.w_open := fun _ => None;
       Watcher.w_readfile := fun _ => None;
       Watcher.w_upload := Samples.ack_all;
       Watcher.w_upload_plans := fun _ _ => inr [];
       Watcher.w_save_ok := true |} (Samples.config "full" 3) (Samples.env0 ∅) "abc" H1 H2)).
Defined.
